(** * obsidian-bookmarks: the bookmark workflow, its queue and its text helpers

    A shallow embedding of the TypeScript sources
    ([waitlist.ts], [FileManager.ts], [ApiCaller.ts], [aiService.ts],
    [workflow.ts], and of [modal.ts] and of the first version of [main.ts]
    the handling of the input) and the properties of the specification
    checked on it, followed by further properties of the same code.

    Conventions.
    - A JavaScript string is the list of its UTF-16 code units, so that
      [length], [substring] and the regular-expression class [\s] mean what
      they mean in the engine.
    - Code that can throw returns an [outcome]; code that mutates the
      singletons of the plug-in threads a [World].
    - Whatever the plug-in asks of Obsidian, the network or the clock is
      read from a [Host] record of oracles. *)

From Stdlib Require Import ZArith NArith List Bool Ascii String DecimalString Lia.
From stdpp Require Import base decidable countable option list gmap.

Local Open Scope N_scope.
Set Warnings "-register-all".

(** ** JavaScript strings *)

Module Js.

(** One UTF-16 code unit. *)
Definition char := N.

Definition js_string := list char.

(** The code units of an ASCII literal. *)
Definition ascii_units (s : string) : js_string :=
  map N_of_ascii (list_ascii_of_string s).

(** Continuation bytes of a UTF-8 sequence contribute their low six bits. *)
Definition cont (b : N) : N := N.land b 63.

(** UTF-16 encoding of one code point. *)
Definition units_of_code_point (cp : N) : js_string :=
  if cp <? 65536 then [cp]
  else let v := cp - 65536 in
       [55296 + N.shiftr v 10; 56320 + N.land v 1023].

(** Decoding of the UTF-8 bytes in which a literal of this file is stored,
    followed by the UTF-16 encoding the engine keeps in memory. *)
Fixpoint utf16_of_bytes (fuel : nat) (bs : list N) : js_string :=
  match fuel with
  | O => []
  | S fuel' =>
    match bs with
    | [] => []
    | b0 :: r0 =>
      if b0 <? 128 then b0 :: utf16_of_bytes fuel' r0
      else if b0 <? 224 then
        match r0 with
        | b1 :: r1 =>
          units_of_code_point (N.shiftl (N.land b0 31) 6 + cont b1)
            ++ utf16_of_bytes fuel' r1
        | _ => []
        end
      else if b0 <? 240 then
        match r0 with
        | b1 :: b2 :: r2 =>
          units_of_code_point
            (N.shiftl (N.land b0 15) 12 + N.shiftl (cont b1) 6 + cont b2)
            ++ utf16_of_bytes fuel' r2
        | _ => []
        end
      else
        match r0 with
        | b1 :: b2 :: b3 :: r3 =>
          units_of_code_point
            (N.shiftl (N.land b0 7) 18 + N.shiftl (cont b1) 12
             + N.shiftl (cont b2) 6 + cont b3)
            ++ utf16_of_bytes fuel' r3
        | _ => []
        end
    end
  end.

(** A source literal as the engine sees it. *)
Definition lit (s : string) : js_string :=
  let bs := ascii_units s in utf16_of_bytes (List.length bs) bs.
Arguments lit : simpl never.

(** [WhiteSpace] and [LineTerminator] of ECMAScript: the class [\s] of a
    regular expression and the characters [String.prototype.trim] strips. *)
Definition is_space (c : char) : bool :=
  (c =? 9) || (c =? 10) || (c =? 11) || (c =? 12) || (c =? 13)
  || (c =? 32) || (c =? 160) || (c =? 5760)
  || ((8192 <=? c) && (c <=? 8202))
  || (c =? 8232) || (c =? 8233) || (c =? 8239) || (c =? 8287)
  || (c =? 12288) || (c =? 65279).

Definition SP : char := 32.

(** [String.prototype.trimStart]. *)
Fixpoint trimStart (s : js_string) : js_string :=
  match s with
  | [] => []
  | c :: r => if is_space c then trimStart r else s
  end.

(** [String.prototype.trimEnd]: a code unit is dropped when it is white
    space and nothing but white space follows it. *)
Fixpoint trimEnd (s : js_string) : js_string :=
  match s with
  | [] => []
  | c :: r =>
    match trimEnd r with
    | [] => if is_space c then [] else [c]
    | t => c :: t
    end
  end.

(** [String.prototype.trim]. *)
Definition trim (s : js_string) : js_string := trimEnd (trimStart s).

(** [s.substring(0, n)] for [0 <= n]. *)
Definition substring0 (n : nat) (s : js_string) : js_string := firstn n s.

(** [s.includes(needle)]. *)
Fixpoint starts_with (needle s : js_string) : bool :=
  match needle, s with
  | [], _ => true
  | _ :: _, [] => false
  | a :: n', b :: s' => (a =? b) && starts_with n' s'
  end.

Fixpoint includes (needle s : js_string) : bool :=
  starts_with needle s
  || match s with
     | [] => false
     | _ :: r => includes needle r
     end.

(** [s.slice(-n)]. *)
Definition slice_last (n : nat) (s : js_string) : js_string :=
  skipn (List.length s - n) s.

(** Decimal digits of an integer, as [Number.prototype.toString] prints a
    safe integer. *)
Definition decimal (z : Z) : js_string :=
  ascii_units (DecimalString.NilZero.string_of_int (Z.to_int z)).

(** ** Values of type [any]

    What [JSON.parse] and [parseYaml] hand back.  Numbers are the integers
    among the doubles; the plug-in does no arithmetic on parsed numbers. *)
Inductive value :=
  | VUndefined
  | VNull
  | VBool (b : bool)
  | VNum (z : Z)
  | VStr (s : js_string)
  | VArr (elems : list value)
  | VObj (fields : list (js_string * value)).

(** [ToBoolean]. *)
Definition truthy (v : value) : bool :=
  match v with
  | VUndefined | VNull => false
  | VBool b => b
  | VNum z => negb (Z.eqb z 0)
  | VStr s => negb (Nat.eqb (List.length s) 0)
  | VArr _ | VObj _ => true
  end.

(** [a || b]. *)
Definition js_or (a b : value) : value := if truthy a then a else b.

Fixpoint assoc (k : js_string) (fields : list (js_string * value)) : option value :=
  match fields with
  | [] => None
  | (k', v) :: r => if decide (k = k') then Some v else assoc k r
  end.

(** [ToString], as a template literal applies it. *)
Fixpoint to_string (v : value) : js_string :=
  match v with
  | VUndefined => lit "undefined"
  | VNull => lit "null"
  | VBool true => lit "true"
  | VBool false => lit "false"
  | VNum z => decimal z
  | VStr s => s
  | VArr elems =>
    (fix join (l : list value) : js_string :=
       match l with
       | [] => []
       | x :: r =>
         let sx := match x with
                   | VUndefined | VNull => []
                   | _ => to_string x
                   end in
         match r with
         | [] => sx
         | _ :: _ => sx ++ lit "," ++ join r
         end
       end) elems
  | VObj _ => lit "[object Object]"
  end.

(** ** Exceptions and outcomes *)

Inductive error_class :=
  | EError | ETypeError | ESyntaxError | EWorkflowCancellation.

(** What a [throw] carries: an instance of [Error] (or of a subclass), or
    any other value. *)
Inductive exn :=
  | JsError (cls : error_class) (message : js_string)
  | Thrown (v : value).

(** [new Error(message)]. *)
Definition Error (message : js_string) : exn := JsError EError message.

(** [error instanceof Error]. *)
Definition instanceof_Error (e : exn) : bool :=
  match e with JsError _ _ => true | Thrown _ => false end.

(** A call returns, throws, or the fuel of a loop is exhausted before it
    does either. *)
Inductive outcome (A : Type) :=
  | Ret (a : A)
  | Throw (e : exn)
  | OutOfFuel.
Arguments Ret {A} a.
Arguments Throw {A} e.
Arguments OutOfFuel {A}.

(** The message text of engine-raised type errors differs between engines;
    one representative text per situation is fixed here. *)
Definition TypeError (message : js_string) : exn := JsError ETypeError message.

(** [v.key] for a key that no prototype defines. *)
Definition get (v : value) (key : js_string) : outcome value :=
  match v with
  | VUndefined | VNull =>
    Throw (TypeError (lit "Cannot read properties of undefined (reading '" ++ key ++ lit "')"))
  | VObj fields => Ret (default VUndefined (assoc key fields))
  | _ => Ret VUndefined
  end.

(** [v?.key]. *)
Definition get_opt (v : value) (key : js_string) : value :=
  match v with
  | VObj fields => default VUndefined (assoc key fields)
  | _ => VUndefined
  end.

(** [v?.[0]]. *)
Definition index0_opt (v : value) : value :=
  match v with
  | VArr (x :: _) => x
  | VStr (c :: _) => VStr [c]
  | VObj fields => default VUndefined (assoc (lit "0") fields)
  | _ => VUndefined
  end.

(** ** State and exceptions *)

Definition M (S A : Type) : Type := S -> outcome A * S.

Definition ret {S A} (a : A) : M S A := fun s => (Ret a, s).

Definition throw {S A} (e : exn) : M S A := fun s => (Throw e, s).

Definition bind {S A B} (m : M S A) (k : A -> M S B) : M S B :=
  fun s =>
    match m s with
    | (Ret a, s') => k a s'
    | (Throw e, s') => (Throw e, s')
    | (OutOfFuel, s') => (OutOfFuel, s')
    end.

(** [try { m } catch (e) { h e }]. *)
Definition try_catch {S A} (m : M S A) (h : exn -> M S A) : M S A :=
  fun s =>
    match m s with
    | (Throw e, s') => h e s'
    | r => r
    end.

(** [try { m } finally { f }]: [f] runs after [m] has returned or thrown,
    and an exception of [f] replaces the outcome of [m]. *)
Definition try_finally {S A} (m : M S A) (f : M S unit) : M S A :=
  fun s =>
    match m s with
    | (OutOfFuel, s') => (OutOfFuel, s')
    | (r, s') =>
      match f s' with
      | (Ret _, s'') => (r, s'')
      | (Throw e, s'') => (Throw e, s'')
      | (OutOfFuel, s'') => (OutOfFuel, s'')
      end
    end.

(** A synchronous effect on the state. *)
Definition modify {S} (f : S -> S) : M S unit := fun s => (Ret tt, f s).

Definition gets {S A} (f : S -> A) : M S A := fun s => (Ret (f s), s).

(** An outcome that does not touch the state. *)
Definition lift_outcome {S A} (o : outcome A) : M S A := fun s => (o, s).

Declare Scope js_scope.
Delimit Scope js_scope with js.
Notation "'let*' x ':=' m 'in' k" := (bind m (fun x => k))
  (at level 10, x name, m at level 100, k at level 200) : js_scope.
Notation "'run' m 'then' k" := (bind m (fun _ => k))
  (at level 10, m at level 100, k at level 200) : js_scope.

End Js.

Import Js.

(** ** File names ([FileManager.sanitizeFileName], also
    [BookmarkYamlCreator.sanitizeFileName] and the first plug-in class) *)

Module FileName.

(** The character class of the first replacement: less-than, greater-than,
    colon, double quote, slash, backslash, vertical bar, question mark and
    asterisk. *)
Definition illegal (c : char) : bool :=
  (c =? 60) || (c =? 62) || (c =? 58) || (c =? 34) || (c =? 47)
  || (c =? 92) || (c =? 124) || (c =? 63) || (c =? 42).

Definition underscore : char := 95.

(** The first [replace], global: every illegal character becomes [_]. *)
Definition replace_illegal (s : js_string) : js_string :=
  map (fun c => if illegal c then underscore else c) s.

(** [.replace(/\s+/g, ' ')]: the scanner walks the string from the left;
    [in_run] tells that the maximal run of white space it is inside of has
    already been replaced by its single space. *)
Fixpoint collapse_from (in_run : bool) (s : js_string) : js_string :=
  match s with
  | [] => []
  | c :: r =>
    if is_space c
    then if in_run then collapse_from true r else SP :: collapse_from true r
    else c :: collapse_from false r
  end.

Definition collapse_spaces (s : js_string) : js_string := collapse_from false s.

(** [fileName.replace(...).replace(...).trim()]. *)
Definition sanitizeFileName (fileName : js_string) : js_string :=
  trim (collapse_spaces (replace_illegal fileName)).

End FileName.



Local Open Scope js_scope.

(** ** Step definitions ([steps.ts]) and the status type ([types.ts]) *)

Module Steps.

(** [stepStatus]. *)
Inductive stepStatus := pending | processing | completed | failed.

#[global] Instance stepStatus_eq_dec : EqDecision stepStatus.
Proof. solve_decision. Defined.

Record Step := {
  title : js_string;
  desc : js_string;
  name : js_string;
  estimatedTime : option Z;
}.

Definition allSteps : list Step := [
  {| title := lit "获取网页内容";
     desc := lit "使用 Jina 从目标网址获取内容";
     name := lit "get-web-content";
     estimatedTime := Some 30%Z |};
  {| title := lit "获取网站评价";
     desc := lit "使用 Jina 搜索目标网址获取相关评价";
     name := lit "get-web-rating";
     estimatedTime := Some 60%Z |};
  {| title := lit "生成书签信息";
     desc := lit "使用 AI 根据获取的内容生成书签信息";
     name := lit "generate-bookmark-info";
     estimatedTime := Some 60%Z |};
  {| title := lit "下载网站截图";
     desc := lit "使用 Thum.io 下载目标网址的截图";
     name := lit "download-web-screenshot";
     estimatedTime := Some 60%Z |};
  {| title := lit "创建书签笔记";
     desc := lit "根据生成的书签信息创建 Obsidian 笔记";
     name := lit "create-bookmark-note";
     estimatedTime := Some 10%Z |}
].

(** [steps.full] and [steps.simple = allSteps.slice(3)]. *)
Definition full : list Step := allSteps.
Definition simple : list Step := skipn 3 allSteps.

End Steps.

Import Steps.

(** ** The waiting list ([waitlist.ts]) *)

Module Waitlist.

Inductive ProcessType := ProcessFull | ProcessSimple.

(** The interface [StepStatus]; its field [status] is [state] here, the
    name [status] being taken by the field of [WaitlistItem]. *)
Record StepStatus := {
  step : js_string;
  state : stepStatus;
}.

(** A [Record<string, StepStatus>] is read and written by key only; keys
    are own properties (the names that [Object.prototype] defines are not
    step names). *)
Record WaitlistItem := {
  url : js_string;
  status : gmap js_string StepStatus;
}.

Inductive EventType := EvAdd | EvRead | EvRemove | EvClear | EvUpdate.

#[global] Instance EventType_eq_dec : EqDecision EventType.
Proof. solve_decision. Defined.

(** The payload objects handed to [emit]. *)
Inductive EventData :=
  | AddData (url : js_string) (type : ProcessType) (item : WaitlistItem) (count : nat)
  | ReadData (item : option WaitlistItem) (count : nat) (index : Z)
  | RemoveData (item : WaitlistItem) (count : nat)
  | ClearData (count : nat)
  | UpdateData (url step : js_string) (oldStatus newStatus : stepStatus)
               (index : Z) (count : nat).

(** A subscribed callback: an object identity and what a call does, which
    is to return or to throw.  Callbacks observe; they do not call back
    into the list. *)
Record EventListener := {
  identity : nat;
  call : EventData -> option exn;
}.

(** The two private fields of [WaitlistManager], and [emitted], the record
    of the calls of [emit] so far (not a field of the class: it is what an
    observer of the list has been told). *)
Record WaitlistManager := {
  waitlist : list WaitlistItem;
  listeners : EventType -> list EventListener;
  emitted : list (EventType * EventData);
}.

Definition set_waitlist (l : list WaitlistItem) (q : WaitlistManager) : WaitlistManager :=
  {| waitlist := l; listeners := listeners q; emitted := emitted q |}.

Definition set_listeners (f : EventType -> list EventListener) (q : WaitlistManager)
  : WaitlistManager :=
  {| waitlist := waitlist q; listeners := f; emitted := emitted q |}.

Definition record_emit (ev : EventType) (d : EventData) (q : WaitlistManager)
  : WaitlistManager :=
  {| waitlist := waitlist q; listeners := listeners q;
     emitted := emitted q ++ [(ev, d)] |}.

(** [listeners.forEach(listener => listener(data))]: the first callback
    that throws ends the iteration. *)
Fixpoint deliver (ls : list EventListener) (d : EventData) : outcome unit :=
  match ls with
  | [] => Ret tt
  | l :: r =>
    match call l d with
    | Some e => Throw e
    | None => deliver r d
    end
  end.

(** [emit(event, data)]. *)
Definition emit (ev : EventType) (d : EventData) : M WaitlistManager unit :=
  fun q => (deliver (listeners q ev) d, record_emit ev d q).

(** The status object [add] builds by [forEach] over the steps. *)
Definition initial_status (steps : list Step) : gmap js_string StepStatus :=
  fold_left (fun st s => <[name s := {| step := name s; state := pending |}]> st)
            steps ∅.

Definition new_item (u : js_string) (type : ProcessType) : WaitlistItem :=
  {| url := u;
     status := match type with
               | ProcessFull => initial_status Steps.full
               | ProcessSimple => initial_status Steps.simple
               end |}.

(** [add(url, type = 'full')]. *)
Definition add (u : js_string) (type : ProcessType) : M WaitlistManager nat :=
  let item := new_item u type in
  run modify (fun q => set_waitlist (waitlist q ++ [item]) q) then
  let* n := gets (fun q => List.length (waitlist q)) in
  run emit EvAdd (AddData u type item n) then
  gets (fun q => List.length (waitlist q)).

(** [this.waitlist[n]], [undefined] being [None]. *)
Definition at_index (l : list WaitlistItem) (n : Z) : option WaitlistItem :=
  if (n <? 0)%Z then None else l !! Z.to_nat n.

(** [read(n = 0)]. *)
Definition read (n : Z) : M WaitlistManager (option WaitlistItem) :=
  let* item := gets (fun q => at_index (waitlist q) n) in
  let* count := gets (fun q => List.length (waitlist q)) in
  run emit EvRead (ReadData item count n) then
  ret item.

(** [remove()]. *)
Definition remove : M WaitlistManager (option WaitlistItem) :=
  let* l := gets waitlist in
  match l with
  | [] => ret None
  | item :: rest =>
    run modify (set_waitlist rest) then
    run emit EvRemove (RemoveData item (List.length rest)) then
    ret (Some item)
  end.

(** [clear()]. *)
Definition clear : M WaitlistManager unit :=
  run modify (set_waitlist []) then
  emit EvClear (ClearData 0).

(** [update(step, status, n = 0)]. *)
Definition update (stepName : js_string) (new : stepStatus) (n : Z)
  : M WaitlistManager unit :=
  let* l := gets waitlist in
  match at_index l n with
  | Some item =>
    match status item !! stepName with
    | Some st =>
      let oldStatus := state st in
      run modify (set_waitlist
                    (<[Z.to_nat n :=
                         {| url := url item;
                            status := <[stepName := {| step := step st; state := new |}]>
                                        (status item) |}]> l)) then
      emit EvUpdate (UpdateData (url item) stepName oldStatus new n (List.length l))
    | None => ret tt
    end
  | None => ret tt
  end.

(** [subscribe(event, listener)]: a [Set] holds an object once. *)
Definition subscribe (ev : EventType) (l : EventListener) : M WaitlistManager unit :=
  modify (fun q =>
    if existsb (fun l' => Nat.eqb (identity l') (identity l)) (listeners q ev)
    then q
    else set_listeners
           (fun ev' => if decide (ev' = ev) then listeners q ev ++ [l] else listeners q ev') q).

(** [unsubscribe(event, listener)]. *)
Definition unsubscribe (ev : EventType) (l : EventListener) : M WaitlistManager unit :=
  modify (fun q =>
    set_listeners
      (fun ev' => if decide (ev' = ev)
                  then filter (fun l' => identity l' ≠ identity l) (listeners q ev)
                  else listeners q ev') q).

(** The getter [length]. *)
Definition length (q : WaitlistManager) : nat := List.length (waitlist q).

(** The getter [items]. *)
Definition items (q : WaitlistManager) : list WaitlistItem := waitlist q.

(** A list nobody has touched. *)
Definition empty : WaitlistManager :=
  {| waitlist := []; listeners := fun _ => []; emitted := [] |}.

End Waitlist.

Import Waitlist.

(** ** The host, the settings and the state of the plug-in *)

Module Runtime.

(** [BookmarkCreatorSettings] ([types.ts]). *)
Record BookmarkCreatorSettings := {
  bookmarkFolder : js_string;
  attachmentFolder : js_string;
  jinaApiKey : js_string;
  aiApiBaseUrl : js_string;
  aiApiModel : js_string;
  aiApiKey : js_string;
  aiPromptTemplate : js_string;
}.

(** The argument of [requestUrl]. *)
Inductive Request :=
  | GET (url : js_string) (headers : list (js_string * js_string))
  | POST (url : js_string) (headers : list (js_string * js_string)) (body : js_string).

(** What the plug-in reads of a [RequestUrlResponse]. *)
Record Response := {
  resp_status : Z;
  resp_text : js_string;
}.

(** How a call into the host ends. *)
Inductive reply (A : Type) :=
  | Resolved (a : A)
  | Rejected (e : exn).
Arguments Resolved {A} a.
Arguments Rejected {A} e.

Definition settle {A} (r : reply A) : outcome A :=
  match r with
  | Resolved a => Ret a
  | Rejected e => Throw e
  end.

(** Everything outside the plug-in.  The asynchronous calls and the clock
    depend on the moment they are made, the number of suspensions so far. *)
Record Host := {
  (** [new URL(s).hostname]; [None] when the constructor throws. *)
  url_hostname : js_string -> option js_string;
  encodeURIComponent : js_string -> reply js_string;
  requestUrl : nat -> Request -> reply Response;
  JSON_parse : js_string -> reply value;
  (** [JSON.stringify] of the chat payload for a model and a prompt. *)
  chat_body : js_string -> js_string -> js_string;
  parseYaml : js_string -> reply value;
  stringifyYaml : value -> reply js_string;
  (** [new Date().toISOString()] and [new Date().getTime()]. *)
  toISOString : nat -> js_string;
  getTime : nat -> Z;
  adapter_exists : nat -> js_string -> reply bool;
  createFolder : nat -> js_string -> reply unit;
  getAbstractFileByPath : nat -> js_string -> bool;
  (** [vault.create]; the path of the created file. *)
  vault_create : nat -> js_string -> js_string -> reply js_string;
  createBinary : nat -> js_string -> reply unit;
  (** Whether the cancel button of the progress dialog is pressed while the
      plug-in is suspended for the n-th time. *)
  cancel_pressed : nat -> bool;
  (** [String.prototype.match] with the three patterns of
      [parseGeneratedYaml]; the first capture group of the match. *)
  match_dashes : js_string -> option js_string;
  match_yaml_fence : js_string -> option js_string;
  match_fence : js_string -> option js_string;
  (** The pattern of the older [generateBookmarkYaml]; its two groups. *)
  match_generated : js_string -> option (option js_string * option js_string);
}.

Inductive ConsoleLevel := LogLevel | WarnLevel | ErrorLevel.

(** What the plug-in does to the outside, in order.  Of a console call the
    text is kept, not the objects printed after it. *)
Inductive Effect :=
  | Notice (message : js_string)
  | Console (level : ConsoleLevel) (text : js_string)
  | Requested (r : Request)
  | CreateFolder (path : js_string)
  | CreateBinary (path : js_string)
  | CreateFile (path content : js_string)
  | ModalOpen
  | ModalProgressMode (full : bool) (title : js_string)
  | ModalSetCreatedNotes (notes : list js_string)
  | ModalSetTitle (title : js_string).

(** The static fields of [BookmarkWorkflow], the exported singleton
    [waitlist] (here [queue]), the [createdNotes] of every workflow
    instance, and the bookkeeping of the host. *)
Record World := {
  isWorkflowRunning : bool;
  runningInstanceId : option js_string;
  isCancellationRequested : bool;
  cancellingInstanceId : option js_string;
  queue : WaitlistManager;
  createdNotes : gmap js_string (list js_string);
  effects : list Effect;
  tick : nat;
  closures : nat;
}.

Definition set_lock (running : bool) (owner : option js_string) (w : World) : World :=
  {| isWorkflowRunning := running; runningInstanceId := owner;
     isCancellationRequested := isCancellationRequested w;
     cancellingInstanceId := cancellingInstanceId w;
     queue := queue w; createdNotes := createdNotes w; effects := effects w;
     tick := tick w; closures := closures w |}.

Definition set_cancellation (requested : bool) (by_whom : option js_string) (w : World)
  : World :=
  {| isWorkflowRunning := isWorkflowRunning w; runningInstanceId := runningInstanceId w;
     isCancellationRequested := requested; cancellingInstanceId := by_whom;
     queue := queue w; createdNotes := createdNotes w; effects := effects w;
     tick := tick w; closures := closures w |}.

Definition set_queue (q : WaitlistManager) (w : World) : World :=
  {| isWorkflowRunning := isWorkflowRunning w; runningInstanceId := runningInstanceId w;
     isCancellationRequested := isCancellationRequested w;
     cancellingInstanceId := cancellingInstanceId w;
     queue := q; createdNotes := createdNotes w; effects := effects w;
     tick := tick w; closures := closures w |}.

Definition set_createdNotes (n : gmap js_string (list js_string)) (w : World) : World :=
  {| isWorkflowRunning := isWorkflowRunning w; runningInstanceId := runningInstanceId w;
     isCancellationRequested := isCancellationRequested w;
     cancellingInstanceId := cancellingInstanceId w;
     queue := queue w; createdNotes := n; effects := effects w;
     tick := tick w; closures := closures w |}.

Definition set_effects (l : list Effect) (w : World) : World :=
  {| isWorkflowRunning := isWorkflowRunning w; runningInstanceId := runningInstanceId w;
     isCancellationRequested := isCancellationRequested w;
     cancellingInstanceId := cancellingInstanceId w;
     queue := queue w; createdNotes := createdNotes w; effects := l;
     tick := tick w; closures := closures w |}.

Definition set_tick (t : nat) (w : World) : World :=
  {| isWorkflowRunning := isWorkflowRunning w; runningInstanceId := runningInstanceId w;
     isCancellationRequested := isCancellationRequested w;
     cancellingInstanceId := cancellingInstanceId w;
     queue := queue w; createdNotes := createdNotes w; effects := effects w;
     tick := t; closures := closures w |}.

Definition set_closures (c : nat) (w : World) : World :=
  {| isWorkflowRunning := isWorkflowRunning w; runningInstanceId := runningInstanceId w;
     isCancellationRequested := isCancellationRequested w;
     cancellingInstanceId := cancellingInstanceId w;
     queue := queue w; createdNotes := createdNotes w; effects := effects w;
     tick := tick w; closures := c |}.

(** An effect on the outside. *)
Definition perform (e : Effect) : M World unit :=
  modify (fun w => set_effects (effects w ++ [e]) w).

(** A method of the waiting list, called on the singleton. *)
Definition on_queue {A} (m : M WaitlistManager A) : M World A :=
  fun w => let (r, q) := m (queue w) in (r, set_queue q w).

(** A string is falsy when it is empty. *)
Definition is_empty (s : js_string) : bool := Nat.eqb (List.length s) 0.

(** [BookmarkWorkflow.requestCancellation()] ([workflow.ts]); it reads and
    writes static fields only, whatever instance it is called on. *)
Definition requestCancellation : M World unit :=
  let* w := gets (fun w => w) in
  match isWorkflowRunning w, runningInstanceId w with
  | true, Some id =>
    if is_empty id then ret tt
    else
      run modify (set_cancellation true (Some id)) then
      perform (Console LogLevel (lit "工作流取消请求已发送 (实例ID: " ++ id ++ lit ")"))
  | _, _ => ret tt
  end.

Section WithHost.
Context (host : Host).

(** The plug-in is suspended on a promise of the host; meanwhile the user
    may press the cancel button ([BookmarkModal.handleCancel]). *)
Definition suspend : M World unit :=
  let* t := gets tick in
  run modify (set_tick (S t)) then
  if cancel_pressed host t then requestCancellation else ret tt.

(** [await f(...)] for an asynchronous function [f] of the host. *)
Definition await {A} (f : nat -> reply A) : M World A :=
  let* t := gets tick in
  run suspend then
  lift_outcome (settle (f t)).

(** A synchronous call into the host. *)
Definition now {A} (f : nat -> A) : M World A := gets (fun w => f (tick w)).

End WithHost.

End Runtime.

Import Runtime.

(** ** The service caller ([ApiCaller.ts], class [AiService]) *)

Module ApiCaller.

(** [AiServiceType] ([types.ts]). *)
Inductive AiServiceType := jinaReader | jinaSearch | openai.

(** [siteInfoObj] ([types.ts]). *)
Record siteInfoObj := {
  webContent : js_string;
  searchInfo : js_string;
}.

Definition nl : js_string := [10].

Definition user_agent : js_string :=
  lit "Mozilla/5.0 (Windows NT 10.0; Win64; x64) AppleWebKit/537.36".

Definition typeNames (type : AiServiceType) : js_string :=
  match type with
  | jinaReader => lit "Jina AI 读取器"
  | jinaSearch => lit "Jina AI 搜索器"
  | openai => lit "AI 处理器"
  end.

(** [s.length > max ? s.substring(0, max) + '...' : s]. *)
Definition truncated (max : N) (s : js_string) : js_string :=
  if max <? N.of_nat (List.length s)
  then substring0 (N.to_nat max) s ++ lit "..."
  else s.

Section WithHost.
Context (host : Host) (settings : BookmarkCreatorSettings).

Definition jina_headers : list (js_string * js_string) :=
  [ (lit "Authorization", lit "Bearer " ++ jinaApiKey settings);
    (lit "Accept", lit "application/json");
    (lit "User-Agent", user_agent) ].

Definition ai_headers : list (js_string * js_string) :=
  [ (lit "Authorization", lit "Bearer " ++ aiApiKey settings);
    (lit "Content-Type", lit "application/json");
    (lit "User-Agent", user_agent) ].

(** [await requestUrl(r)]. *)
Definition request (r : Request) : M World Response :=
  run perform (Requested r) then
  await host (fun t => requestUrl host t r).

(** The prompt of [generateBookmarkYaml]. *)
Definition prompt (u truncatedWebContent truncatedSearchInfo : js_string) : js_string :=
  aiPromptTemplate settings ++ nl ++ nl
  ++ lit "## 网页内容：" ++ nl ++ truncatedWebContent ++ nl ++ nl
  ++ lit "## 搜索信息：" ++ nl ++ truncatedSearchInfo ++ nl ++ nl
  ++ lit "## 目标网址：" ++ nl ++ u ++ nl.

(** [generateBookmarkYaml(url, webContent, searchInfo)]. *)
Definition generateBookmarkYaml (u webContent searchInfo : js_string) : M World Response :=
  let truncatedWebContent := truncated 2000 webContent in
  let truncatedSearchInfo := truncated 8000 searchInfo in
  request (POST (aiApiBaseUrl settings ++ lit "/chat/completions") ai_headers
                (chat_body host (aiApiModel settings)
                           (prompt u truncatedWebContent truncatedSearchInfo))).

(** The checks of [callApi] that precede the request. *)
Definition validate (u : js_string) (type : AiServiceType) : M World unit :=
  match type with
  | jinaReader | jinaSearch =>
    if is_empty (jinaApiKey settings) then throw (Error (lit "Jina AI API密钥未设置"))
    else match url_hostname host u with
         | None => throw (Error (lit "无效的网址格式"))
         | Some _ => ret tt
         end
  | openai =>
    if is_empty (aiApiKey settings) then throw (Error (lit "AI API密钥未设置"))
    else match url_hostname host (aiApiBaseUrl settings) with
         | None => throw (Error (lit "AI API基础URL格式无效"))
         | Some _ => ret tt
         end
  end.

(** [data.data?.content || data?.data?.toString() || data.content]. *)
Definition jina_content (data : value) : outcome value :=
  match get data (lit "data") with
  | Ret d =>
    let c1 := get_opt d (lit "content") in
    if truthy c1 then Ret c1
    else
      match
        (match d with
         | VUndefined | VNull => Ret VUndefined
         | VObj fields =>
           match assoc (lit "toString") fields with
           | Some _ => Throw (TypeError (lit "data?.data?.toString is not a function"))
           | None => Ret (VStr (to_string d))
           end
         | _ => Ret (VStr (to_string d))
         end)
      with
      | Ret c2 => if truthy c2 then Ret c2 else get data (lit "content")
      | other => other
      end
  | other => other
  end.

(** [data.choices?.[0]?.message?.content]. *)
Definition openai_content (data : value) : outcome value :=
  match get data (lit "choices") with
  | Ret choices => Ret (get_opt (get_opt (index0_opt choices) (lit "message")) (lit "content"))
  | other => other
  end.

(** The branch for status 200: the content is read off the parsed body and
    returned; [content.trim()] needs a string. *)
Definition on_success (type : AiServiceType) (serviceName : js_string) (response : Response)
  : M World js_string :=
  let* data := lift_outcome (settle (JSON_parse host (resp_text response))) in
  let* picked := lift_outcome (match type with
                               | openai => openai_content data
                               | _ => jina_content data
                               end) in
  let content := js_or picked (VStr []) in
  match content with
  | VStr c =>
    run (if is_empty c || is_empty (trim c)
         then perform (Console LogLevel (serviceName ++ lit ": API返回内容为空:"))
         else ret tt) then
    ret c
  | _ => throw (TypeError (lit "content.trim is not a function"))
  end.

(** [callApi(url, type, siteInfo?)]. *)
Definition callApi (u : js_string) (type : AiServiceType) (siteInfo : option siteInfoObj)
  : M World js_string :=
  run validate u type then
  let serviceName := typeNames type in
  try_catch
    (let* response :=
       match type with
       | jinaReader =>
         let* target := lift_outcome (settle (encodeURIComponent host u)) in
         request (GET (lit "https://r.jina.ai/" ++ target) jina_headers)
       | jinaSearch =>
         match url_hostname host u with
         | Some domain =>
           let* target := lift_outcome (settle (encodeURIComponent host domain)) in
           request (GET (lit "https://s.jina.ai/" ++ target) jina_headers)
         | None => throw (TypeError (lit "Invalid URL"))
         end
       | openai =>
         match siteInfo with
         | Some info => generateBookmarkYaml u (webContent info) (searchInfo info)
         | None =>
           throw (TypeError (lit "Cannot read properties of undefined (reading 'webContent')"))
         end
       end in
     let st := resp_status response in
     if (st =? 200)%Z then on_success type serviceName response
     else if (st =? 401)%Z then throw (Error (serviceName ++ lit ": API密钥无效或已过期"))
     else if (st =? 429)%Z then throw (Error (serviceName ++ lit ": API请求过于频繁，请稍后再试"))
     else if (500 <=? st)%Z then throw (Error (serviceName ++ lit ": 服务暂时不可用，请稍后再试"))
     else throw (Error (serviceName ++ lit ": API返回错误，状态码: " ++ decimal st)))
    (fun error =>
       run perform (Console ErrorLevel (serviceName ++ lit ": 调用API时发生错误:")) then
       match error with
       | JsError _ message => throw (Error (lit "AI书签生成失败: " ++ message))
       | Thrown _ => throw (Error (lit "AI书签生成失败: 未知错误"))
       end).

End WithHost.

End ApiCaller.

(** ** The older service class ([aiService.ts], class [AiService]) *)

Module AiService.

Import ApiCaller.

Section WithHost.
Context (host : Host) (settings : BookmarkCreatorSettings).

(** [searchWebInfo(url)].  Its result is handed on as parsed. *)
Definition searchWebInfo (u : js_string) : M World value :=
  if is_empty (jinaApiKey settings) then throw (Error (lit "Jina AI API密钥未设置"))
  else
    match url_hostname host u with
    | None => throw (Error (lit "无效的网址格式"))
    | Some _ =>
      try_catch
        (let* domain := match url_hostname host u with
                        | Some d => ret d
                        | None => throw (TypeError (lit "Invalid URL"))
                        end in
         let searchQuery := domain ++ lit " 网站评价 介绍" in
         let* target := lift_outcome (settle (encodeURIComponent host searchQuery)) in
         let* response :=
           request host (GET (lit "https://s.jina.ai/" ++ target) (jina_headers settings)) in
         let st := resp_status response in
         if (st =? 200)%Z then
           let* data := lift_outcome (settle (JSON_parse host (resp_text response))) in
           let* d := lift_outcome (get data (lit "data")) in
           let c1 := get_opt d (lit "content") in
           if truthy c1 then ret c1
           else
             let* c2 := lift_outcome (get data (lit "content")) in
             ret (js_or c2 (VStr []))
         else if (st =? 401)%Z then
           run perform (Console WarnLevel (lit "Jina AI搜索API密钥无效，跳过搜索步骤")) then
           ret (VStr [])
         else if (st =? 429)%Z then
           run perform (Console WarnLevel (lit "Jina AI搜索API请求过于频繁，跳过搜索步骤")) then
           ret (VStr [])
         else
           run perform (Console WarnLevel
                          (lit "Jina AI搜索API返回错误，状态码: " ++ decimal st
                           ++ lit "，跳过搜索步骤")) then
           ret (VStr []))
        (fun error =>
           run perform (Console ErrorLevel (lit "Jina AI搜索失败:")) then
           ret (VStr []))
    end.

(** The prompt of the older [generateBookmarkYaml]. *)
Definition prompt (u truncatedWebContent truncatedSearchInfo : js_string) : js_string :=
  aiPromptTemplate settings ++ nl ++ nl
  ++ lit "## 网页内容：" ++ nl ++ truncatedWebContent ++ nl ++ nl
  ++ lit "## 搜索信息：" ++ nl ++ truncatedSearchInfo ++ nl ++ nl
  ++ lit "## 目标网址：" ++ nl ++ u ++ nl ++ nl
  ++ lit "请根据以上信息生成完整的书签YAML信息。".

(** [yamlMatch[1] || yamlMatch[2] || generatedContent]. *)
Definition pick_yaml (generatedContent : js_string) : js_string :=
  match match_generated host generatedContent with
  | Some (g1, g2) =>
    match g1 with
    | Some (c :: r) => c :: r
    | _ =>
      match g2 with
      | Some (c :: r) => c :: r
      | _ => generatedContent
      end
    end
  | None => generatedContent
  end.

(** The branches of [generateBookmarkYaml] on the status of the response. *)
Definition generated_yaml (response : Response) : M World js_string :=
  let st := resp_status response in
  if (st =? 200)%Z then
    let* data := lift_outcome (settle (JSON_parse host (resp_text response))) in
    let* picked := lift_outcome (openai_content data) in
    match js_or picked (VStr []) with
    | VStr generatedContent =>
      if is_empty generatedContent || is_empty (trim generatedContent)
      then throw (Error (lit "AI未生成任何内容"))
      else
        let yamlContent := pick_yaml generatedContent in
        if negb (includes (lit "title:") yamlContent)
           || negb (includes (lit "url:") yamlContent)
        then throw (Error (lit "生成的YAML内容缺少必需字段（title或url）"))
        else ret yamlContent
    | _ => throw (TypeError (lit "generatedContent.trim is not a function"))
    end
  else if (st =? 401)%Z then throw (Error (lit "AI API密钥无效或已过期"))
  else if (st =? 429)%Z then throw (Error (lit "AI API请求过于频繁，请稍后再试"))
  else if (st =? 400)%Z then
    throw (Error (lit "AI API请求参数错误，请检查模型名称是否正确"))
  else if (500 <=? st)%Z then throw (Error (lit "AI服务暂时不可用，请稍后再试"))
  else throw (Error (lit "AI API返回错误，状态码: " ++ decimal st)).

(** The [catch] block of [generateBookmarkYaml]. *)
Definition generation_failed (error : exn) : M World js_string :=
  run perform (Console ErrorLevel (lit "AI生成书签信息失败:")) then
  match error with
  | JsError _ message =>
    if includes (lit "Failed to fetch") message || includes (lit "NetworkError") message
    then throw (Error (lit "网络连接失败，请检查网络设置"))
    else throw (Error (lit "AI生成书签信息失败: " ++ message))
  | Thrown _ => throw (Error (lit "AI生成书签信息失败: 未知错误"))
  end.

(** [generateBookmarkYaml(url, webContent, searchInfo)] of [aiService.ts]. *)
Definition generateBookmarkYaml (u webContent searchInfo : js_string) : M World js_string :=
  if is_empty (aiApiKey settings) then throw (Error (lit "AI API密钥未设置"))
  else
    match url_hostname host (aiApiBaseUrl settings) with
    | None => throw (Error (lit "AI API基础URL格式无效"))
    | Some _ =>
      let maxContentLength := 8000 in
      let truncatedWebContent := truncated maxContentLength webContent in
      let truncatedSearchInfo := truncated 2000 searchInfo in
      try_catch
        (let* response :=
           request host
             (POST (aiApiBaseUrl settings ++ lit "/chat/completions") (ai_headers settings)
                   (chat_body host (aiApiModel settings)
                              (prompt u truncatedWebContent truncatedSearchInfo))) in
         generated_yaml response)
        generation_failed
    end.

End WithHost.

End AiService.

(** ** Files ([FileManager.ts]) *)

Module FileManager.

Import ApiCaller.

(** [NoteContentData] ([types.ts]).  The fields copied from a parsed
    document hold whatever the parser produced. *)
Record NoteContentData := {
  created : js_string;
  title : value;
  url : value;
  description : value;
  tags : value;
  screenshotFileName : js_string;
  bookmarkNote : value;
}.

(** [s.split(c)] for a one-character separator. *)
Fixpoint split_on (c : char) (s : js_string) : list js_string :=
  match s with
  | [] => [[]]
  | x :: r =>
    if x =? c then [] :: split_on c r
    else match split_on c r with
         | seg :: segs => (x :: seg) :: segs
         | [] => [[x]]
         end
  end.

(** [parts.join(sep)]. *)
Fixpoint join (sep : js_string) (parts : list js_string) : js_string :=
  match parts with
  | [] => []
  | [x] => x
  | x :: r => x ++ sep ++ join sep r
  end.

(** [sanitizeFileName] at run time: the receiver of [replace] has to be a
    string. *)
Definition sanitize (fileName : value) : outcome js_string :=
  match fileName with
  | VStr s => Ret (FileName.sanitizeFileName s)
  | VUndefined | VNull =>
    Throw (TypeError (lit "Cannot read properties of undefined (reading 'replace')"))
  | _ => Throw (TypeError (lit "fileName.replace is not a function"))
  end.

Section WithHost.
Context (host : Host) (settings : BookmarkCreatorSettings).

(** [ensureFolderExists(folderPath)]. *)
Definition ensureFolderExists (folderPath : js_string) : M World bool :=
  let* isExist := await host (fun t => adapter_exists host t folderPath) in
  try_catch
    (if negb isExist then
       run perform (CreateFolder folderPath) then
       run await host (fun t => createFolder host t folderPath) then
       ret true
     else ret false)
    (fun error =>
       run perform (Notice (lit "创建文件夹 " ++ folderPath ++ lit " 失败")) then
       ret false).

(** [ensureFileCanBeCreated(filePath)]. *)
Definition ensureFileCanBeCreated (filePath : js_string) : M World js_string :=
  let* existingFile := now (fun t => getAbstractFileByPath host t filePath) in
  if negb existingFile then ret filePath
  else
    let* ms := now (getTime host) in
    let timestamp := slice_last 6 (decimal ms) in
    let pathParts := split_on 47 filePath in
    let fileName := List.last pathParts [] in
    let folderPath := join (lit "/") (removelast pathParts) in
    let nameParts := split_on 46 fileName in
    let extension := if Nat.ltb 1 (List.length nameParts) then List.last nameParts [] else [] in
    let baseName := join (lit ".")
                      (if Nat.ltb 1 (List.length nameParts)
                       then removelast nameParts else nameParts) in
    let newFileName := baseName ++ lit "_" ++ timestamp ++ lit "." ++ extension in
    ret (if is_empty folderPath then newFileName else folderPath ++ lit "/" ++ newFileName).

(** [createNoteFile(title, content)]; the path of the created file. *)
Definition createNoteFile (title : value) (content : js_string) : M World js_string :=
  let* safeTitle := lift_outcome (sanitize title) in
  let fileName := safeTitle ++ lit ".md" in
  let filePath := bookmarkFolder settings ++ lit "/" ++ fileName in
  let* finalFilePath := ensureFileCanBeCreated filePath in
  run perform (CreateFile finalFilePath content) then
  await host (fun t => vault_create host t finalFilePath content).

(** [downloadScreenshot(url, noteTitle)]. *)
Definition downloadScreenshot (u noteTitle : value) : M World js_string :=
  let screenshotUrl :=
    lit "https://image.thum.io/get/wait/12/viewportWidth/1600/width/1440/crop/900/png/noanimate/"
    ++ to_string u in
  run perform (Console LogLevel (lit "Downloading screenshot from:")) then
  try_catch
    (run ensureFolderExists (attachmentFolder settings) then
     let* safe := lift_outcome (sanitize noteTitle) in
     let screenshotFileName := safe ++ lit ".png" in
     let filePath := attachmentFolder settings ++ lit "/" ++ screenshotFileName in
     let* response := request host (GET screenshotUrl [(lit "User-Agent", user_agent)]) in
     if (resp_status response =? 200)%Z then
       run perform (Console LogLevel (lit "Screenshot downloaded successfully")) then
       run perform (CreateBinary filePath) then
       run await host (fun t => createBinary host t filePath) then
       ret screenshotFileName
     else throw (Error (lit "截图下载失败，状态码: " ++ decimal (resp_status response))))
    (fun error =>
       run perform (Console ErrorLevel (lit "下载截图失败:")) then
       match error with
       | JsError _ message => throw (Error (lit "无法下载网站截图: " ++ message))
       | Thrown _ => throw (Error (lit "无法下载网站截图: 未知错误"))
       end).

(** [buildNoteContent(data)]. *)
Definition buildNoteContent (data : NoteContentData) : M World js_string :=
  let frontmatter :=
    VObj [ (lit "created", VStr (created data)); (lit "title", title data);
           (lit "url", url data); (lit "description", description data);
           (lit "tags", tags data) ] in
  try_catch
    (let* yaml := lift_outcome (settle (stringifyYaml host frontmatter)) in
     let* shot := lift_outcome (settle (encodeURIComponent host (screenshotFileName data))) in
     ret (lit "---" ++ nl ++ yaml ++ nl ++ lit "---" ++ nl ++ nl
          ++ lit "## 网站截图" ++ nl ++ nl
          ++ lit "screenshot:: ![网站截图](" ++ attachmentFolder settings ++ lit "/" ++ shot
          ++ lit ")" ++ nl ++ nl
          ++ lit "## 网站笔记" ++ nl ++ nl
          ++ to_string (js_or (bookmarkNote data) (VStr [])) ++ nl))
    (fun error =>
       run perform (Console ErrorLevel (lit "构建笔记内容失败:")) then
       throw (Error (lit "构建笔记内容时出错"))).

End WithHost.

End FileManager.

(** ** The progress dialog ([modal.ts]), as far as the workflow drives it *)

Module Modal.

(** The callback [progressMode] subscribes; it moves CSS classes and
    timers of the dialog and leaves the waiting list alone. *)
Definition waitlistUpdateListener (id : nat) : EventListener :=
  {| identity := id; call := fun _ => None |}.

(** [open()]. *)
Definition open : M World unit := perform ModalOpen.

(** [progressMode(full, title)]. *)
Definition progressMode (full : bool) (title : js_string) : M World unit :=
  run perform (ModalProgressMode full title) then
  let* id := gets closures in
  run modify (set_closures (S id)) then
  on_queue (subscribe EvUpdate (waitlistUpdateListener id)).

Definition default_title : js_string := lit "处理中...".

(** [setCreatedNotes(notes)] and [setTitle(title)]. *)
Definition setCreatedNotes (notes : list js_string) : M World unit :=
  perform (ModalSetCreatedNotes notes).

Definition setTitle (title : js_string) : M World unit := perform (ModalSetTitle title).

End Modal.

(** ** The workflow ([workflow.ts], class [BookmarkWorkflow]) *)

Module Workflow.

Import ApiCaller FileManager.

(** An instance; instances are told apart by [instanceId]. *)
Record BookmarkWorkflow := {
  instanceId : js_string;
}.

(** [new WorkflowCancellationError()] ([types.ts]). *)
Definition WorkflowCancellationError : exn :=
  JsError EWorkflowCancellation (lit "工作流已取消").

(** [error instanceof WorkflowCancellationError]. *)
Definition is_cancellation (e : exn) : bool :=
  match e with
  | JsError EWorkflowCancellation _ => true
  | _ => false
  end.

(** [error instanceof Error ? error.message : fallback]. *)
Definition message_or (fallback : js_string) (e : exn) : js_string :=
  match e with
  | JsError _ message => message
  | Thrown _ => fallback
  end.

Definition set_url (u : value) (d : NoteContentData) : NoteContentData :=
  {| created := created d; title := title d; url := u; description := description d;
     tags := tags d; screenshotFileName := screenshotFileName d;
     bookmarkNote := bookmarkNote d |}.

Definition set_screenshotFileName (f : js_string) (d : NoteContentData) : NoteContentData :=
  {| created := created d; title := title d; url := url d; description := description d;
     tags := tags d; screenshotFileName := f; bookmarkNote := bookmarkNote d |}.

Section WithHost.
Context (host : Host) (settings : BookmarkCreatorSettings).

Section Instance.
Context (this : BookmarkWorkflow).

(** [shouldCancel()]. *)
Definition shouldCancel (w : World) : bool :=
  isCancellationRequested w
  && bool_decide (cancellingInstanceId w = Some (instanceId this)).

(** [resetCancellationState()]. *)
Definition resetCancellationState : M World unit :=
  modify (set_cancellation false None).

(** [this.createdNotes]. *)
Definition my_createdNotes (w : World) : list js_string :=
  default [] (createdNotes w !! instanceId this).

(** [executeStep(stepId, stepFunction)]. *)
Definition executeStep {A} (stepId : js_string) (stepFunction : M World A) : M World A :=
  let* cancel := gets shouldCancel in
  if cancel then throw WorkflowCancellationError
  else
    try_catch
      (run on_queue (update stepId processing 0) then
       let* result := stepFunction in
       run on_queue (update stepId completed 0) then
       ret result)
      (fun error =>
         run on_queue (update stepId failed 0) then
         throw error).

(** The text [parseGeneratedYaml] hands to the parser: what is between two
    lines of dashes, else the body of a fence tagged yaml or yml, else the
    body of a plain fence, else the whole text. *)
Definition cleanYaml (yamlContent : js_string) : js_string :=
  match match_dashes host yamlContent with
  | Some g => trim g
  | None =>
    match match_yaml_fence host yamlContent with
    | Some g => trim g
    | None =>
      match match_fence host yamlContent with
      | Some g => trim g
      | None => yamlContent
      end
    end
  end.

(** [parseGeneratedYaml(yamlContent)]. *)
Definition parseGeneratedYaml (yamlContent : js_string) : M World NoteContentData :=
  try_catch
    (let cleanYaml := cleanYaml yamlContent in
     let* parsedYaml := lift_outcome (settle (parseYaml host cleanYaml)) in
     let* t := lift_outcome (get parsedYaml (lit "title")) in
     let* u := (if truthy t then lift_outcome (get parsedYaml (lit "url"))
                else ret VUndefined) in
     if negb (truthy t) || negb (truthy u)
     then throw (Error (lit "书签信息中缺少标题或URL"))
     else
       let* stamp := now (toISOString host) in
       ret {| created := stamp;
              title := t;
              url := u;
              description := js_or (get_opt parsedYaml (lit "description")) (VStr []);
              tags := js_or (get_opt parsedYaml (lit "tags")) (VArr []);
              screenshotFileName := to_string t ++ lit ".png";
              bookmarkNote := js_or (get_opt parsedYaml (lit "bookmarkNote")) (VStr []) |})
    (fun error =>
       run perform (Console ErrorLevel (lit "解析YAML内容失败:")) then
       throw (Error (lit "解析生成的书签信息失败"))).

(** [createBookmarkNote(noteData)]. *)
Definition createBookmarkNote (noteData : NoteContentData) : M World unit :=
  try_catch
    (let* content := buildNoteContent host settings noteData in
     let* path := createNoteFile host settings (title noteData) content in
     modify (fun w =>
       set_createdNotes (<[instanceId this := my_createdNotes w ++ [path]]> (createdNotes w)) w))
    (fun error =>
       run perform (Console ErrorLevel (lit "创建笔记失败:")) then
       throw (Error (lit "创建书签笔记失败: " ++ message_or (lit "未知错误") error))).

(** [URLWorkflow(url, currentIndex)]. *)
Definition URLWorkflow (u : js_string) (currentIndex : nat) : M World bool :=
  try_catch
    (let* len := gets (fun w => Waitlist.length (queue w)) in
     let* hostname := match url_hostname host u with
                      | Some h => ret h
                      | None => throw (TypeError (lit "Invalid URL"))
                      end in
     run Modal.progressMode true
           (lit "正在处理中..."
            ++ (if Nat.ltb 1 len
                then lit " (" ++ decimal (Z.of_nat (currentIndex + 1)) ++ lit "/"
                     ++ decimal (Z.of_nat len) ++ lit ")"
                else [])
            ++ lit " " ++ hostname) then
     let* webContent :=
       executeStep (lit "get-web-content") (callApi host settings u jinaReader None) in
     let* searchInfo :=
       executeStep (lit "get-web-rating") (callApi host settings u jinaSearch None) in
     let* bookmarkYaml :=
       executeStep (lit "generate-bookmark-info")
         (callApi host settings u openai
                  (Some {| webContent := webContent; searchInfo := searchInfo |})) in
     let* parsed := parseGeneratedYaml bookmarkYaml in
     let noteData := set_url (VStr u) parsed in
     let* shot :=
       executeStep (lit "download-web-screenshot")
         (downloadScreenshot host settings (VStr u) (title noteData)) in
     let noteData := set_screenshotFileName shot noteData in
     run executeStep (lit "create-bookmark-note") (createBookmarkNote noteData) then
     run perform (Notice (lit "书签创建成功！")) then
     ret true)
    (fun error =>
       run perform (Console ErrorLevel (lit "书签创建工作流失败:")) then
       run perform (Notice (match error with
                            | JsError _ message => lit "书签创建失败: " ++ message
                            | Thrown _ => lit "书签创建失败: 未知错误"
                            end)) then
       ret false).

(** The [while] loop of [startURLWorkflow]; it returns [hasError].  Each
    turn of the loop takes one unit of fuel. *)
Fixpoint url_loop (fuel : nat) (currentIndex : nat) (hasError : bool) : M World bool :=
  let* len := gets (fun w => Waitlist.length (queue w)) in
  if Nat.ltb currentIndex len then
    match fuel with
    | O => lift_outcome OutOfFuel
    | S fuel' =>
      let* cancel := gets shouldCancel in
      if cancel then throw WorkflowCancellationError
      else
        let* item := on_queue (read (Z.of_nat currentIndex)) in
        match item with
        | None => url_loop fuel' (S currentIndex) hasError
        | Some it =>
          let* thrown :=
            try_catch
              (run URLWorkflow (Waitlist.url it) currentIndex then ret false)
              (fun error =>
                 run perform (Console ErrorLevel (lit "处理URL失败: " ++ Waitlist.url it)) then
                 ret true) in
          url_loop fuel' (S currentIndex) (hasError || thrown)
        end
    end
  else ret hasError.

(** The notice of a start that finds the lock taken. *)
Definition busy_notice (owner : option js_string) : Effect :=
  Notice (lit "工作流正在运行中 (" ++ default (lit "null") owner ++ lit ")，请稍候...").

(** The [finally] block of both entry points. *)
Definition release : M World unit :=
  run modify (set_lock false None) then
  resetCancellationState.

(** The [try] and [catch] blocks of [startURLWorkflow]. *)
Definition url_run (fuel : nat) : M World bool :=
  try_catch
    (run Modal.open then
     run Modal.progressMode true Modal.default_title then
     let* hasError := url_loop fuel 0 false in
     run on_queue clear then
     let* notes := gets my_createdNotes in
     run Modal.setCreatedNotes notes then
     run Modal.setTitle (lit "处理完成！") then
     run perform (Notice (if negb hasError
                          then lit "所有书签创建完成！"
                          else lit "批量处理完成，部分书签创建失败")) then
     ret (negb hasError))
    (fun error =>
       run perform (Console ErrorLevel (lit "批量处理URL时发生错误:")) then
       run perform (Notice (if is_cancellation error
                            then lit "工作流已取消"
                            else lit "批量处理失败: " ++ message_or (lit "未知错误") error)) then
       ret false).

(** [startURLWorkflow()]. *)
Definition startURLWorkflow (fuel : nat) : M World bool :=
  let* running := gets isWorkflowRunning in
  if running : bool then
    let* owner := gets runningInstanceId in
    run perform (busy_notice owner) then
    ret false
  else
    run modify (set_lock true (Some (instanceId this))) then
    try_finally (url_run fuel) release.

(** The [try] and [catch] blocks of [startYAMLWorkflow]. *)
Definition yaml_run (yamlContent : js_string) : M World bool :=
  try_catch
    (let* parsed :=
       try_catch
         (let* d := parseGeneratedYaml yamlContent in ret (Some d))
         (fun error =>
            run perform (Console ErrorLevel (lit "解析YAML内容失败:")) then
            run perform (Notice (lit "解析书签信息失败: 未知错误")) then
            ret None) in
     match parsed with
     | None => ret false
     | Some noteData =>
       run Modal.progressMode false Modal.default_title then
       let* shot :=
         executeStep (lit "download-web-screenshot")
           (downloadScreenshot host settings (url noteData) (title noteData)) in
       let noteData := set_screenshotFileName shot noteData in
       run executeStep (lit "create-bookmark-note") (createBookmarkNote noteData) then
       run perform (Notice (lit "书签创建成功！")) then
       ret true
     end)
    (fun error =>
       run perform (Console ErrorLevel (lit "简化书签创建工作流失败:")) then
       run perform (Notice (if is_cancellation error
                            then lit "工作流已取消"
                            else match error with
                                 | JsError _ message => lit "书签创建失败: " ++ message
                                 | Thrown _ => lit "书签创建失败: 未知错误"
                                 end)) then
       ret false).

(** [startYAMLWorkflow(yamlContent)]. *)
Definition startYAMLWorkflow (yamlContent : js_string) : M World bool :=
  let* running := gets isWorkflowRunning in
  if running : bool then
    let* owner := gets runningInstanceId in
    run perform (busy_notice owner) then
    ret false
  else
    run modify (set_lock true (Some (instanceId this))) then
    try_finally (yaml_run yamlContent) release.

End Instance.

End WithHost.

End Workflow.

(** ** The reader of the older service class ([aiService.ts],
    [extractWebContent]) *)

Module AiServiceReader.

Import ApiCaller.

Section WithHost.
Context (host : Host) (settings : BookmarkCreatorSettings).

(** The branches of [extractWebContent] on the status of the response;
    [content.trim()] needs a string. *)
Definition extracted_content (response : Response) : M World js_string :=
  let st := resp_status response in
  if (st =? 200)%Z then
    let* data := lift_outcome (settle (JSON_parse host (resp_text response))) in
    let* d := lift_outcome (get data (lit "data")) in
    let c1 := get_opt d (lit "content") in
    let* content :=
      (if truthy c1 then ret c1
       else
         let* c2 := lift_outcome (get data (lit "content")) in
         ret (js_or c2 (VStr []))) in
    match content with
    | VStr c =>
      if is_empty c || is_empty (trim c)
      then throw (Error (lit "网页内容为空或无法提取"))
      else ret c
    | _ => throw (TypeError (lit "content.trim is not a function"))
    end
  else if (st =? 401)%Z then throw (Error (lit "Jina AI API密钥无效或已过期"))
  else if (st =? 429)%Z then throw (Error (lit "Jina AI API请求过于频繁，请稍后再试"))
  else if (500 <=? st)%Z then throw (Error (lit "Jina AI服务暂时不可用，请稍后再试"))
  else throw (Error (lit "Jina AI API返回错误，状态码: " ++ decimal st)).

(** The [catch] block of [extractWebContent]. *)
Definition extraction_failed (error : exn) : M World js_string :=
  run perform (Console ErrorLevel (lit "Jina AI内容提取失败:")) then
  match error with
  | JsError _ message =>
    if includes (lit "Failed to fetch") message || includes (lit "NetworkError") message
    then throw (Error (lit "网络连接失败，请检查网络设置"))
    else throw (Error (lit "网页内容提取失败: " ++ message))
  | Thrown _ => throw (Error (lit "网页内容提取失败: 未知错误"))
  end.

(** [extractWebContent(url)]. *)
Definition extractWebContent (u : js_string) : M World js_string :=
  if is_empty (jinaApiKey settings) then throw (Error (lit "Jina AI API密钥未设置"))
  else
    match url_hostname host u with
    | None => throw (Error (lit "无效的网址格式"))
    | Some _ =>
      try_catch
        (let* target := lift_outcome (settle (encodeURIComponent host u)) in
         let* response :=
           request host (GET (lit "https://r.jina.ai/" ++ target) (jina_headers settings)) in
         extracted_content response)
        extraction_failed
    end.

End WithHost.

End AiServiceReader.

(** ** The input dialog ([modal.ts], [BookmarkModal.startWorkflow]) *)

Module BookmarkModal.

Import FileManager.

(** [LineTerminator] of ECMAScript: where [^] and [$] match under the
    flag [m]. *)
Definition is_line_terminator (c : char) : bool :=
  (c =? 10) || (c =? 13) || (c =? 8232) || (c =? 8233).

(** The text cut at every line terminator. *)
Fixpoint lines_of (s : js_string) : list js_string :=
  match s with
  | [] => [[]]
  | x :: r =>
    if is_line_terminator x then [] :: lines_of r
    else match lines_of r with
         | seg :: segs => (x :: seg) :: segs
         | [] => [[x]]
         end
  end.

(** The class [\w]. *)
Definition is_word (c : char) : bool :=
  ((48 <=? c) && (c <=? 57)) || ((65 <=? c) && (c <=? 90)) || (c =? 95)
  || ((97 <=? c) && (c <=? 122)).

Fixpoint take_while (p : char -> bool) (s : js_string) : js_string :=
  match s with
  | [] => []
  | c :: r => if p c then c :: take_while p r else []
  end.

(** A line of three dashes or more. *)
Definition dash_line (l : js_string) : bool :=
  Nat.leb 3 (List.length l) && forallb (fun c => c =? 45) l.

(** A line of three backticks or more, followed by word characters only. *)
Definition fence_line (l : js_string) : bool :=
  let ticks := take_while (fun c => c =? 96) l in
  Nat.leb 3 (List.length ticks) && forallb is_word (skipn (List.length ticks) l).

(** The test of the pattern that tells a pasted document from a list of
    addresses: dashes or a fence opener on a line of its own. *)
Definition is_document (input : js_string) : bool :=
  existsb (fun l => dash_line l || fence_line l) (lines_of input).

Section WithHost.
Context (host : Host) (settings : BookmarkCreatorSettings) (this : Workflow.BookmarkWorkflow).

(** [new URL(line)] returns. *)
Definition is_address (line : js_string) : bool :=
  match url_hostname host line with
  | Some _ => true
  | None => false
  end.

(** [lines.forEach(line => { waitlist.add(line) })]. *)
Fixpoint add_all (lines : list js_string) : M World unit :=
  match lines with
  | [] => ret tt
  | line :: rest =>
    run on_queue (add line ProcessFull) then
    add_all rest
  end.

(** [input.split('\n').map(l => l.trim()).filter(Boolean)]. *)
Definition address_lines (input : js_string) : list js_string :=
  List.filter (fun l => negb (is_empty l)) (map trim (split_on 10 input)).

(** A call of an asynchronous method whose promise nobody awaits: what
    the method returns or throws is dropped.  Nothing follows such a call
    in [startWorkflow], so what the method does is laid out here as what
    happens next. *)
Definition detached {A} (m : M World A) : M World unit :=
  fun w =>
    match m w with
    | (OutOfFuel, w') => (OutOfFuel, w')
    | (_, w') => (Ret tt, w')
    end.

(** [startWorkflow()], for the text of the input area. *)
Definition startWorkflow (fuel : nat) (value : js_string) : M World unit :=
  let input := trim value in
  if is_empty input then perform (Notice (lit "请输入网址或书签信息"))
  else if is_document input then
    detached (Workflow.startYAMLWorkflow host settings this (trim input))
  else
    let lines := address_lines input in
    match List.find (fun line => negb (is_address line)) lines with
    | Some line => perform (Notice (lit "无效网址：" ++ line))
    | None =>
      run add_all lines then
      detached (Workflow.startURLWorkflow host settings this fuel)
    end.

End WithHost.

End BookmarkModal.

(** ** The dialog of the first version of the plug-in ([main.ts] of that
    version, [BookmarkModal.parseYamlContent]) *)

Module FirstModal.

Import FileManager.






Section WithPattern.

(** The first group of the match of the pattern that looks for the text
    between two lines of three dashes. *)
Context (match_frontmatter : js_string -> option js_string).


End WithPattern.

End FirstModal.

(** * Vocabulary of the statements, and concrete inputs *)

Module Spec.

Import FileName.

(** No white space other than single spaces: every white-space code unit
    is a space and is not preceded by white space ([prev] tells whether the
    code unit before the list is white space). *)
Fixpoint tidy (prev : bool) (s : js_string) : bool :=
  match s with
  | [] => true
  | c :: r =>
    if is_space c then negb prev && (c =? SP) && tidy true r
    else tidy false r
  end.

(** *** The waiting list *)

(** The list after a sequence of calls of [add], whether or not a call
    ended in an exception of a listener. *)
Definition after_adds (adds : list (js_string * ProcessType)) (q : WaitlistManager)
  : WaitlistManager :=
  fold_left (fun q a => snd (add (fst a) (snd a) q)) adds q.

(** The items a sequence of calls of [add] creates. *)
Definition added (adds : list (js_string * ProcessType)) : list WaitlistItem :=
  map (fun a => new_item (fst a) (snd a)) adds.

(** No subscribed listener of an event type throws, whatever it is told. *)
Definition quiet (ev : EventType) (q : WaitlistManager) : Prop :=
  forall d, deliver (listeners q ev) d = Ret tt.

(** A listener that throws at every call. *)
Definition angry : EventListener :=
  {| identity := 7; call := fun _ => Some (Error (lit "listener failed")) |}.

(** An empty list with [angry] subscribed to an event type. *)
Definition angry_queue (ev : EventType) : WaitlistManager :=
  snd (subscribe ev angry Waitlist.empty).

Definition two_urls : list (js_string * ProcessType) :=
  [ (lit "https://a.example/", ProcessFull); (lit "https://b.example/", ProcessFull) ].

(** *** Prompts *)

(** What the specification says is embedded in the prompt: the text
    itself when its length is at most the maximum, else its first [max]
    characters followed by three dots. *)
Definition embedded (max : N) (s : js_string) : js_string :=
  if N.of_nat (List.length s) <=? max then s
  else firstn (N.to_nat max) s ++ lit "...".

(** *** A host to run the code on *)

(** The host name of an address that begins with [https://]: what comes
    before the next slash. *)
Fixpoint until_slash (s : js_string) : js_string :=
  match s with
  | [] => []
  | c :: r => if c =? 47 then [] else c :: until_slash r
  end.

Definition demo_hostname (s : js_string) : option js_string :=
  if starts_with (lit "https://") s
  then match until_slash (skipn 8 s) with
       | [] => None
       | h => Some h
       end
  else None.

(** A JSON body that carries [text] wherever the plug-in looks for content. *)
Definition demo_json (text : js_string) : value :=
  VObj [ (lit "data", VObj [(lit "content", VStr text)]);
         (lit "choices",
          VArr [VObj [(lit "message", VObj [(lit "content", VStr text)])]]) ].

Definition demo_yaml : value :=
  VObj [ (lit "title", VStr (lit "Site B")); (lit "url", VStr (lit "https://b.example/"));
         (lit "created", VStr (lit "1999-12-31")) ].

(** A host with the given network and parser, where everything else
    succeeds, nothing exists yet, and nobody presses cancel. *)
Definition host_with (net : nat -> Request -> reply Response)
           (yaml : js_string -> reply value) : Host :=
  {| url_hostname := demo_hostname;
     encodeURIComponent := fun s => Resolved s;
     requestUrl := net;
     JSON_parse := fun text => Resolved (demo_json text);
     chat_body := fun model prompt => prompt;
     parseYaml := yaml;
     stringifyYaml := fun _ => Resolved (lit "title: Site B");
     toISOString := fun _ => lit "2026-01-01T00:00:00.000Z";
     getTime := fun _ => 1767225600000%Z;
     adapter_exists := fun _ _ => Resolved true;
     createFolder := fun _ _ => Resolved tt;
     getAbstractFileByPath := fun _ _ => false;
     vault_create := fun _ path _ => Resolved path;
     createBinary := fun _ _ => Resolved tt;
     cancel_pressed := fun _ => false;
     match_dashes := fun _ => None;
     match_yaml_fence := fun _ => None;
     match_fence := fun _ => None;
     match_generated := fun _ => None |}.

Definition ok_response : Response := {| resp_status := 200; resp_text := lit "text" |}.

Definition status_response (st : Z) : Response := {| resp_status := st; resp_text := [] |}.

(** Every request is answered with 200. *)
Definition demo_host : Host :=
  host_with (fun _ _ => Resolved ok_response) (fun _ => Resolved demo_yaml).

(** Every request is answered with 401. *)
Definition unauthorized_host : Host :=
  host_with (fun _ _ => Resolved (status_response 401)) (fun _ => Resolved demo_yaml).

(** The reader answers 401 for the site [a.example] and 200 otherwise. *)
Definition reader_fails_for_a : Host :=
  host_with (fun _ r =>
               match r with
               | GET u _ =>
                 if starts_with (lit "https://r.jina.ai/") u && includes (lit "a.example") u
                 then Resolved (status_response 401)
                 else Resolved ok_response
               | POST _ _ _ => Resolved ok_response
               end)
            (fun _ => Resolved demo_yaml).

Definition demo_settings : BookmarkCreatorSettings :=
  {| bookmarkFolder := lit "Bookmarks";
     attachmentFolder := lit "assets/images";
     jinaApiKey := lit "jina-key";
     aiApiBaseUrl := lit "https://ai.example/v1";
     aiApiModel := lit "model";
     aiApiKey := lit "ai-key";
     aiPromptTemplate := lit "Describe the site." |}.

(** The plug-in at rest, with a given waiting list. *)
Definition idle (q : WaitlistManager) : World :=
  {| isWorkflowRunning := false; runningInstanceId := None;
     isCancellationRequested := false; cancellingInstanceId := None;
     queue := q; createdNotes := ∅; effects := []; tick := 0; closures := 100 |}.

(** The record [parseGeneratedYaml] makes of [demo_yaml] on [demo_host]. *)
Definition demo_record : FileManager.NoteContentData :=
  {| FileManager.created := lit "2026-01-01T00:00:00.000Z";
     FileManager.title := VStr (lit "Site B");
     FileManager.url := VStr (lit "https://b.example/");
     FileManager.description := VStr [];
     FileManager.tags := VArr [];
     FileManager.screenshotFileName := lit "Site B.png";
     FileManager.bookmarkNote := VStr [] |}.

(** The same host with another YAML parser. *)
Definition with_parseYaml (yaml : js_string -> reply value) (h : Host) : Host :=
  {| url_hostname := url_hostname h;
     encodeURIComponent := encodeURIComponent h;
     requestUrl := requestUrl h;
     JSON_parse := JSON_parse h;
     chat_body := chat_body h;
     parseYaml := yaml;
     stringifyYaml := stringifyYaml h;
     toISOString := toISOString h;
     getTime := getTime h;
     adapter_exists := adapter_exists h;
     createFolder := createFolder h;
     getAbstractFileByPath := getAbstractFileByPath h;
     vault_create := vault_create h;
     createBinary := createBinary h;
     cancel_pressed := cancel_pressed h;
     match_dashes := match_dashes h;
     match_yaml_fence := match_yaml_fence h;
     match_fence := match_fence h;
     match_generated := match_generated h |}.

(** *** The search step *)

(** The request does not come back with status 200: it is rejected, or it
    is answered with another status. *)
Definition request_fails (host : Host) (t : nat) (r : Request) : Prop :=
  match requestUrl host t r with
  | Rejected _ => True
  | Resolved response => resp_status response <> 200%Z
  end.

(** *** Relations between the state before and after a computation *)

(** The computation returns or throws, and its final state is related to
    its initial state. *)
Definition carries (R : World -> World -> Prop) {A} (m : M World A) : Prop :=
  forall w, fst (m w) <> OutOfFuel /\ R w (snd (m w)).

(** [carries], from one initial state. *)
Definition ends_at (R : World -> World -> Prop) {A} (m : M World A) (w : World) : Prop :=
  fst (m w) <> OutOfFuel /\ R w (snd (m w)).

(** The effects of the final state begin with those of the initial one. *)
Definition grows (w w' : World) : Prop := exists l, effects w' = effects w ++ l.

(** *** The workflow *)

(** The status of a step in the item at the head of the waiting list, the
    item [update] addresses when it is called without an index. *)
Definition step_state (stepId : js_string) (w : World) : option stepStatus :=
  match waitlist (queue w) !! 0%nat with
  | Some item => state <$> status item !! stepId
  | None => None
  end.

(** The lock is free and no cancellation is pending. *)
Definition released (w : World) : Prop :=
  isWorkflowRunning w = false /\ runningInstanceId w = None
  /\ isCancellationRequested w = false /\ cancellingInstanceId w = None.

(** The lock is in the same hands. *)
Definition same_lock (w w' : World) : Prop :=
  isWorkflowRunning w' = isWorkflowRunning w /\ runningInstanceId w' = runningInstanceId w.

(** The waiting list has as many items. *)
Definition same_length (w w' : World) : Prop :=
  List.length (waitlist (queue w')) = List.length (waitlist (queue w)).

(** The lock is in the same hands and the waiting list is as long. *)
Definition steady (w w' : World) : Prop := same_lock w w' /\ same_length w w'.

(** A workflow instance. *)
Definition me : Workflow.BookmarkWorkflow := {| Workflow.instanceId := lit "k3j9x2m1q" |}.

(** The notices among the effects, in order. *)
Definition notices (w : World) : list js_string :=
  omap (fun e => match e with Notice m => Some m | _ => None end) (effects w).

(** Two addresses wait, and a listener of [update] throws. *)
Definition angry_world : World :=
  idle (snd (subscribe EvUpdate angry (after_adds two_urls Waitlist.empty))).

(** A step action that leaves a notice and returns. *)
Definition noisy_action : M World js_string :=
  run perform (Notice (lit "action ran")) then ret (lit "done").

End Spec.

Import Spec.

(** * Further vocabulary *)

Module SpecMore.

(** *** The waiting list *)

(** The steps of a processing type. *)
Definition steps_of (type : ProcessType) : list Step :=
  match type with
  | ProcessFull => Steps.full
  | ProcessSimple => Steps.simple
  end.

(** [k] calls of [remove] in a row: what each call came to, and the list
    after the last. *)
Fixpoint removes (k : nat) (q : WaitlistManager)
  : list (outcome (option WaitlistItem)) * WaitlistManager :=
  match k with
  | O => ([], q)
  | S k' =>
    let (r, q1) := remove q in
    let (rs, q2) := removes k' q1 in
    (r :: rs, q2)
  end.

(** Every listener of [update] is a closure made before the counter of
    closures reached its present value: a closure made now is a new
    object. *)
Definition closures_counted (w : World) : Prop :=
  forall l, In l (listeners (queue w) EvUpdate) -> (identity l < closures w)%nat.

(** *** Files *)

(** The name [ensureFileCanBeCreated] makes of a taken file name and a
    time stamp: the stamp goes before the last dot. *)
Definition stamped (fileName stamp : js_string) : js_string :=
  let nameParts := FileManager.split_on 46 fileName in
  FileManager.join (lit ".")
    (if Nat.ltb 1 (List.length nameParts) then removelast nameParts else nameParts)
  ++ lit "_" ++ stamp ++ lit "."
  ++ (if Nat.ltb 1 (List.length nameParts) then List.last nameParts [] else []).

(** *** What a computation comes to *)

(** Whatever the initial state, the outcome and the final state of the
    computation satisfy [Q]. *)
Definition ensures {A} (Q : outcome A -> World -> Prop) (m : M World A) : Prop :=
  forall w, Q (fst (m w)) (snd (m w)).

(** A condition on what is returned, and a condition on what is thrown. *)
Definition on_return {A} (P : A -> World -> Prop) (o : outcome A) (w : World) : Prop :=
  match o with
  | Ret a => P a w
  | _ => True
  end.

Definition on_throw {A} (P : exn -> World -> Prop) (o : outcome A) (w : World) : Prop :=
  match o with
  | Throw e => P e w
  | _ => True
  end.

(** The last notice shown. *)
Definition last_notice (w : World) : option js_string := List.last (map Some (notices w)) None.

(** The static fields of the lock, the waiting list and the lists of
    created notes are what they were. *)
Definition plugin_untouched (w w' : World) : Prop :=
  same_lock w w' /\ queue w' = queue w /\ createdNotes w' = createdNotes w.

(** *** Documents of the first dialog *)









(** *** The workflow *)

(** If the waiting list was empty, it is empty still and nothing has been
    emitted since. *)
Definition unreported (w w' : World) : Prop :=
  waitlist (queue w) = [] ->
  waitlist (queue w') = [] /\ emitted (queue w') = emitted (queue w).

(** The [read] events among the events emitted so far, in order. *)
Definition read_events (q : WaitlistManager) : list EventData :=
  omap (fun p => match fst p with EvRead => Some (snd p) | _ => None end) (emitted q).

(** All that has happened to the waiting list has happened to the statuses
    of its first item: the addresses are the same, every item but the first
    is as it was, no [read] event has been emitted, and the listeners of
    every event but [update] are the same. *)
Definition head_only (w w' : World) : Prop :=
  map url (waitlist (queue w')) = map url (waitlist (queue w))
  /\ (forall j, (1 <= j)%nat -> waitlist (queue w') !! j = waitlist (queue w) !! j)
  /\ read_events (queue w') = read_events (queue w)
  /\ (forall ev, ev <> EvUpdate -> listeners (queue w') ev = listeners (queue w) ev).

(** The same, but for the [read] events. *)
Definition head_only_but_reads (w w' : World) : Prop :=
  map url (waitlist (queue w')) = map url (waitlist (queue w))
  /\ (forall j, (1 <= j)%nat -> waitlist (queue w') !! j = waitlist (queue w) !! j)
  /\ (forall ev, ev <> EvUpdate -> listeners (queue w') ev = listeners (queue w) ev).

(** The [read] event of a turn of the batch loop: the item at the index,
    the length of the list, the index. *)
Definition read_of (w : World) (j : nat) : EventData :=
  ReadData (waitlist (queue w) !! j) (List.length (waitlist (queue w))) (Z.of_nat j).

(** *** Further hosts and inputs *)

(** The same host with a user who presses the cancel button at the given
    moments. *)
Definition with_cancel (pressed : nat -> bool) (h : Host) : Host :=
  {| url_hostname := url_hostname h;
     encodeURIComponent := encodeURIComponent h;
     requestUrl := requestUrl h;
     JSON_parse := JSON_parse h;
     chat_body := chat_body h;
     parseYaml := parseYaml h;
     stringifyYaml := stringifyYaml h;
     toISOString := toISOString h;
     getTime := getTime h;
     adapter_exists := adapter_exists h;
     createFolder := createFolder h;
     getAbstractFileByPath := getAbstractFileByPath h;
     vault_create := vault_create h;
     createBinary := createBinary h;
     cancel_pressed := pressed;
     match_dashes := match_dashes h;
     match_yaml_fence := match_yaml_fence h;
     match_fence := match_fence h;
     match_generated := match_generated h |}.

(** Cancel is pressed during the first suspension of the plug-in. *)
Definition impatient_host : Host := with_cancel (fun t => Nat.eqb t 0) demo_host.

(** The chat service answers with a text that holds both markers. *)
Definition document_reply : Response :=
  {| resp_status := 200; resp_text := lit "title: Site B url: https://b.example/" |}.

Definition document_host : Host :=
  host_with (fun _ _ => Resolved document_reply) (fun _ => Resolved demo_yaml).

(** Every file name is taken. *)
Definition crowded_host : Host :=
  {| url_hostname := url_hostname demo_host;
     encodeURIComponent := encodeURIComponent demo_host;
     requestUrl := requestUrl demo_host;
     JSON_parse := JSON_parse demo_host;
     chat_body := chat_body demo_host;
     parseYaml := parseYaml demo_host;
     stringifyYaml := stringifyYaml demo_host;
     toISOString := toISOString demo_host;
     getTime := getTime demo_host;
     adapter_exists := adapter_exists demo_host;
     createFolder := createFolder demo_host;
     getAbstractFileByPath := fun _ _ => true;
     vault_create := vault_create demo_host;
     createBinary := createBinary demo_host;
     cancel_pressed := cancel_pressed demo_host;
     match_dashes := match_dashes demo_host;
     match_yaml_fence := match_yaml_fence demo_host;
     match_fence := match_fence demo_host;
     match_generated := match_generated demo_host |}.

(** The settings without the key of the reader. *)
Definition keyless_settings : BookmarkCreatorSettings :=
  {| bookmarkFolder := lit "Bookmarks";
     attachmentFolder := lit "assets/images";
     jinaApiKey := [];
     aiApiBaseUrl := lit "https://ai.example/v1";
     aiApiModel := lit "model";
     aiApiKey := lit "ai-key";
     aiPromptTemplate := lit "Describe the site." |}.

(** Two addresses and, between them, a line that is none. *)
Definition three_lines : js_string :=
  lit "https://a.example/" ++ [10] ++ lit "not an address" ++ [10] ++ lit "https://b.example/".

Definition two_lines : js_string :=
  lit "https://a.example/" ++ [10] ++ [10] ++ lit "  https://b.example/".



End SpecMore.

Import SpecMore.

(** * Properties *)

(** ** File names *)

Section FileNameFacts.

Import FileName.

Lemma is_space_SP : is_space SP = true.
Proof. reflexivity. Qed.

Lemma illegal_SP : illegal SP = false.
Proof. reflexivity. Qed.

Lemma illegal_underscore : illegal underscore = false.
Proof. reflexivity. Qed.

Lemma replace_illegal_legal s : Forall (fun c => illegal c = false) (replace_illegal s).
Proof.
  unfold replace_illegal. induction s as [|c r IH]; simpl; constructor; auto.
  destruct (illegal c) eqn:E; [apply illegal_underscore | exact E].
Qed.

Lemma collapse_from_legal b s :
  Forall (fun c => illegal c = false) s ->
  Forall (fun c => illegal c = false) (collapse_from b s).
Proof.
  intros H. revert b. induction H as [|c r Hc Hr IH]; intros b; simpl; [constructor|].
  destruct (is_space c).
  - destruct b; [apply IH | constructor; [apply illegal_SP | apply IH]].
  - constructor; [exact Hc | apply IH].
Qed.

Lemma trimStart_Forall (P : char -> Prop) s : Forall P s -> Forall P (trimStart s).
Proof.
  induction 1 as [|c r Hc Hr IH]; simpl; [constructor|].
  destruct (is_space c); [exact IH | constructor; assumption].
Qed.

Lemma trimEnd_Forall (P : char -> Prop) s : Forall P s -> Forall P (trimEnd s).
Proof.
  induction 1 as [|c r Hc Hr IH]; simpl; [constructor|].
  destruct (trimEnd r) as [|d t].
  - destruct (is_space c); constructor; [exact Hc | constructor].
  - constructor; assumption.
Qed.

Lemma tidy_collapse_from b s : tidy b (collapse_from b s) = true.
Proof.
  revert b. induction s as [|c r IH]; intros b; simpl; [reflexivity|].
  destruct (is_space c) eqn:E.
  - destruct b; [apply IH|]. cbn [tidy]. rewrite is_space_SP, N.eqb_refl. apply IH.
  - simpl. rewrite E. apply IH.
Qed.

Lemma tidy_weaken b s : tidy b s = true -> tidy false s = true.
Proof.
  destruct s as [|c r]; simpl; [reflexivity|].
  destruct (is_space c); [|tauto].
  destruct b; simpl; [discriminate | tauto].
Qed.

Lemma tidy_tail b c r : tidy b (c :: r) = true -> tidy false r = true.
Proof.
  simpl. destruct (is_space c).
  - intros H. apply andb_prop in H as [_ H]. eapply tidy_weaken, H.
  - tauto.
Qed.

Lemma tidy_trimStart b s : tidy b s = true -> tidy false (trimStart s) = true.
Proof.
  revert b. induction s as [|c r IH]; intros b H; [reflexivity|].
  simpl. destruct (is_space c) eqn:E.
  - eapply IH, tidy_tail, H.
  - eapply tidy_weaken, H.
Qed.

Lemma tidy_trimEnd b s : tidy b s = true -> tidy b (trimEnd s) = true.
Proof.
  revert b. induction s as [|c r IH]; intros b H; [reflexivity|].
  simpl in *. destruct (is_space c) eqn:E.
  - apply andb_prop in H as [H1 H2]. specialize (IH true H2).
    destruct (trimEnd r) as [|d t]; [reflexivity|].
    simpl in *. rewrite E, H1. exact IH.
  - specialize (IH false H).
    destruct (trimEnd r) as [|d t]; simpl; rewrite E; [reflexivity | exact IH].
Qed.

(** A tidy string is a fixed point of the second replacement. *)
Lemma collapse_from_tidy b s : tidy b s = true -> collapse_from b s = s.
Proof.
  revert b. induction s as [|c r IH]; intros b H; [reflexivity|].
  simpl in *. destruct (is_space c) eqn:E.
  - apply andb_prop in H as [H1 H2]. apply andb_prop in H1 as [Hb Hc].
    destruct b; [discriminate|]. apply N.eqb_eq in Hc. subst c.
    f_equal. apply IH, H2.
  - f_equal. apply IH, H.
Qed.

Lemma replace_illegal_id s :
  Forall (fun c => illegal c = false) s -> replace_illegal s = s.
Proof.
  unfold replace_illegal. induction 1 as [|c r Hc Hr IH]; simpl; [reflexivity|].
  rewrite Hc, IH. reflexivity.
Qed.

Lemma trimStart_head s c r : trimStart s = c :: r -> is_space c = false.
Proof.
  induction s as [|d t IH]; simpl; [discriminate|].
  destruct (is_space d) eqn:E; [exact IH|].
  intros [= <- _]. exact E.
Qed.

Lemma trimEnd_last s r c : trimEnd s = r ++ [c] -> is_space c = false.
Proof.
  revert r. induction s as [|d t IH]; intros r; simpl.
  - destruct r; discriminate.
  - destruct (trimEnd t) as [|e u] eqn:Et.
    + destruct (is_space d) eqn:E; [destruct r; discriminate|].
      destruct r as [|x [|y r']]; simpl; intros [= ]; subst; try exact E.
    + destruct r as [|x r']; simpl; [discriminate|].
      intros [= -> Hr]. eapply IH. exact Hr.
Qed.

Lemma trimEnd_head s c r :
  trimEnd s = c :: r -> exists r', s = c :: r'.
Proof.
  destruct s as [|d t]; simpl; [discriminate|].
  destruct (trimEnd t); [destruct (is_space d)|]; intros [= ]; subst; eauto.
Qed.

Lemma trimStart_id s :
  (forall c r, s = c :: r -> is_space c = false) -> trimStart s = s.
Proof.
  destruct s as [|c r]; simpl; [reflexivity|].
  intros H. rewrite (H c r eq_refl). reflexivity.
Qed.

Lemma trimEnd_id s :
  (forall r c, s = r ++ [c] -> is_space c = false) -> trimEnd s = s.
Proof.
  induction s as [|d t IH]; intros H; simpl; [reflexivity|].
  rewrite IH.
  - destruct t as [|e u]; [|reflexivity].
    rewrite (H [] d eq_refl). reflexivity.
  - intros r c ->. apply (H (d :: r) c). reflexivity.
Qed.

Lemma tidy_no_pair b s pre x y post :
  tidy b s = true -> s = pre ++ x :: y :: post -> is_space x && is_space y = false.
Proof.
  revert b s. induction pre as [|p pre IH]; intros b s H ->; simpl in *.
  - destruct (is_space x) eqn:Ex; [|reflexivity].
    apply andb_prop in H as [_ H]. destruct (is_space y) eqn:Ey; [|reflexivity].
    simpl in H. discriminate.
  - eapply IH; [|reflexivity]. eapply tidy_tail in H. exact H.
Qed.

End FileNameFacts.

Section SanitizeFileName.

Import FileName.

Lemma sanitizeFileName_legal s : Forall (fun c => illegal c = false) (sanitizeFileName s).
Proof.
  unfold sanitizeFileName, trim, collapse_spaces.
  apply trimEnd_Forall, trimStart_Forall, collapse_from_legal, replace_illegal_legal.
Qed.

Lemma sanitizeFileName_tidy s : tidy false (sanitizeFileName s) = true.
Proof.
  unfold sanitizeFileName, trim, collapse_spaces.
  apply tidy_trimEnd. eapply tidy_trimStart. apply tidy_collapse_from.
Qed.

Lemma sanitizeFileName_head s c r : sanitizeFileName s = c :: r -> is_space c = false.
Proof.
  unfold sanitizeFileName, trim. intros H.
  destruct (trimEnd_head _ _ _ H) as [r' Hr']. eapply trimStart_head, Hr'.
Qed.

Lemma sanitizeFileName_last s r c : sanitizeFileName s = r ++ [c] -> is_space c = false.
Proof. unfold sanitizeFileName, trim. apply trimEnd_last. Qed.

(** C9.  [sanitizeFileName] is idempotent, and whatever its input, its
    output holds none of the nine characters of the first replacement, no
    two white-space characters in a row, and no white space at either end. *)
Theorem sanitizeFileName_idempotent_and_clean (s : js_string) :
  sanitizeFileName (sanitizeFileName s) = sanitizeFileName s
  /\ (forall c, In c (sanitizeFileName s) -> illegal c = false)
  /\ (forall pre x y post,
        sanitizeFileName s = pre ++ x :: y :: post -> is_space x && is_space y = false)
  /\ (forall c r, sanitizeFileName s = c :: r -> is_space c = false)
  /\ (forall r c, sanitizeFileName s = r ++ [c] -> is_space c = false).
Proof.
  repeat split.
  - set (t := sanitizeFileName s).
    assert (Hl : replace_illegal t = t)
      by apply replace_illegal_id, sanitizeFileName_legal.
    assert (Hc : collapse_spaces t = t)
      by apply collapse_from_tidy, sanitizeFileName_tidy.
    unfold sanitizeFileName at 1. rewrite Hl, Hc. unfold trim.
    rewrite (trimStart_id t) by apply sanitizeFileName_head.
    apply trimEnd_id, sanitizeFileName_last.
  - intros c Hc. pose proof (sanitizeFileName_legal s) as H.
    rewrite List.Forall_forall in H. apply H, Hc.
  - intros pre x y post E. eapply tidy_no_pair; [apply sanitizeFileName_tidy | exact E].
  - apply sanitizeFileName_head.
  - apply sanitizeFileName_last.
Qed.

(** Two spaces, a tab and a line feed between words, illegal characters and
    white space at both ends. *)
Example sanitizeFileName_example :
  sanitizeFileName ([32; 160] ++ lit "a<b" ++ [32; 9; 10] ++ lit "c?*.md" ++ [12288; 32])
  = lit "a_b c__.md".
Proof. vm_compute. reflexivity. Qed.

End SanitizeFileName.

(** ** The waiting list *)

Section WaitlistFacts.

Lemma add_state u type q :
  snd (add u type q)
  = record_emit EvAdd (AddData u type (new_item u type) (S (List.length (waitlist q))))
      (set_waitlist (waitlist q ++ [new_item u type]) q).
Proof.
  unfold add, bind, modify, gets, emit, record_emit, set_waitlist; simpl.
  rewrite length_app, Nat.add_1_r.
  destruct (deliver _ _); reflexivity.
Qed.

Lemma after_adds_waitlist adds q :
  waitlist (after_adds adds q) = waitlist q ++ added adds.
Proof.
  revert q. induction adds as [|[u t] r IH]; intros q; simpl.
  - symmetry. apply app_nil_r.
  - unfold after_adds in *. simpl. rewrite IH, add_state. simpl.
    rewrite <- app_assoc. reflexivity.
Qed.

Lemma after_adds_listeners adds q : listeners (after_adds adds q) = listeners q.
Proof.
  revert q. induction adds as [|[u t] r IH]; intros q; simpl; [reflexivity|].
  unfold after_adds in *. simpl. rewrite IH, add_state. reflexivity.
Qed.

Lemma read_outcome n q :
  read n q
  = (match deliver (listeners q EvRead)
                   (ReadData (at_index (waitlist q) n) (List.length (waitlist q)) n) with
     | Ret _ => Ret (at_index (waitlist q) n)
     | Throw e => Throw e
     | OutOfFuel => OutOfFuel
     end,
     record_emit EvRead
       (ReadData (at_index (waitlist q) n) (List.length (waitlist q)) n) q).
Proof.
  unfold read, bind, gets, emit, ret; simpl.
  destruct (deliver _ _); reflexivity.
Qed.

Lemma deliver_total ls d : deliver ls d <> OutOfFuel.
Proof.
  induction ls as [|l r IH]; simpl; [discriminate|].
  destruct (call l d); [discriminate | exact IH].
Qed.

Lemma at_index_outside (l : list WaitlistItem) n :
  (n < 0 \/ Z.of_nat (List.length l) <= n)%Z -> at_index l n = None.
Proof.
  intros H. unfold at_index. destruct (n <? 0)%Z eqn:E; [reflexivity|].
  apply Z.ltb_ge in E. apply lookup_ge_None. lia.
Qed.

Lemma at_index_inside (l : list WaitlistItem) (i : nat) :
  at_index l (Z.of_nat i) = l !! i.
Proof.
  unfold at_index. destruct (Z.of_nat i <? 0)%Z eqn:E.
  - apply Z.ltb_lt in E. lia.
  - rewrite Nat2Z.id. reflexivity.
Qed.

(** C6, as the code has it.  After any sequence of calls of [add] on an
    empty list, [read(n)] tells the listeners of [read] and then returns the
    n-th added item, or null when [n] is outside the list; the only
    exception it can end in is one thrown by a listener.  So when no
    listener of [read] throws, [read(i)] is the i-th added item and [read]
    outside the bounds is null. *)
Theorem read_after_adds (adds : list (js_string * ProcessType)) (q0 : WaitlistManager) (n : Z) :
  waitlist q0 = [] ->
  let q := after_adds adds q0 in
  let item := at_index (added adds) n in
  fst (read n q)
  = match deliver (listeners q0 EvRead) (ReadData item (List.length adds) n) with
    | Ret _ => Ret item
    | Throw e => Throw e
    | OutOfFuel => OutOfFuel
    end
  /\ (quiet EvRead q0 ->
      fst (read n q) = Ret item
      /\ (forall i : nat, n = Z.of_nat i -> item = added adds !! i)
      /\ ((n < 0 \/ Z.of_nat (List.length adds) <= n)%Z -> fst (read n q) = Ret None)).
Proof.
  intros H0 q item.
  assert (Hw : waitlist q = added adds).
  { unfold q. rewrite after_adds_waitlist, H0. reflexivity. }
  assert (Hl : listeners q = listeners q0) by apply after_adds_listeners.
  assert (Hlen : List.length (added adds) = List.length adds)
    by (unfold added; apply length_map).
  assert (Hread : fst (read n q)
                  = match deliver (listeners q0 EvRead) (ReadData item (List.length adds) n) with
                    | Ret _ => Ret item
                    | Throw e => Throw e
                    | OutOfFuel => OutOfFuel
                    end).
  { rewrite read_outcome. simpl. rewrite Hw, Hl, Hlen. reflexivity. }
  split; [exact Hread|].
  intros Hq. rewrite Hread, (Hq _).
  split; [reflexivity|]. split.
  - intros i ->. apply at_index_inside.
  - intros Hout. f_equal. apply at_index_outside. rewrite Hlen. exact Hout.
Qed.

(** Witness of [read_after_adds]: two additions to the empty list. *)
Lemma read_after_adds_witness :
  fst (read 1 (after_adds two_urls Waitlist.empty))
  = Ret (Some (new_item (lit "https://b.example/") ProcessFull))
  /\ fst (read 2 (after_adds two_urls Waitlist.empty)) = Ret None.
Proof.
  pose proof (read_after_adds two_urls Waitlist.empty 1 eq_refl) as [_ H1].
  pose proof (read_after_adds two_urls Waitlist.empty 2 eq_refl) as [_ H2].
  destruct (H1 (fun d => eq_refl)) as [E1 _].
  destruct (H2 (fun d => eq_refl)) as [_ [_ E2]].
  split; [exact E1 | apply E2; right; simpl; lia].
Defined.

(** C6, as the specification words it, fails: with a listener of [read]
    that throws, a [read] outside the bounds throws too. *)
Lemma read_outside_bounds_throws :
  at_index (waitlist (angry_queue EvRead)) 5 = None
  /\ fst (read 5 (angry_queue EvRead)) = Throw (Error (lit "listener failed"))
  /\ fst (read 5 (angry_queue EvRead)) <> Ret None.
Proof. split; [|split]; vm_compute; [reflexivity | reflexivity | discriminate]. Qed.

Lemma update_noop stepName new n q :
  (at_index (waitlist q) n = None
   \/ exists item, at_index (waitlist q) n = Some item /\ status item !! stepName = None) ->
  update stepName new n q = (Ret tt, q).
Proof.
  unfold update, bind, gets, ret; simpl.
  intros [-> | (item & -> & ->)]; reflexivity.
Qed.

(** What a call of [update] that finds its item and its step does. *)
Lemma update_hit stepName new n q item st :
  at_index (waitlist q) n = Some item ->
  status item !! stepName = Some st ->
  update stepName new n q
  = (deliver (listeners q EvUpdate)
       (UpdateData (url item) stepName (state st) new n (List.length (waitlist q))),
     record_emit EvUpdate
       (UpdateData (url item) stepName (state st) new n (List.length (waitlist q)))
       (set_waitlist
          (<[Z.to_nat n := {| url := url item;
                              status := <[stepName := {| step := step st; state := new |}]>
                                          (status item) |}]> (waitlist q)) q)).
Proof.
  intros Hi Hs. unfold update, bind, gets, modify, emit; simpl.
  rewrite Hi, Hs. reflexivity.
Qed.



(** The scenarios of the specification: two additions, a look at the head
    and a removal; and an update of one step of a fresh item, which leaves
    the four other steps pending. *)
Example add_read_remove_scenario :
  let q := after_adds two_urls Waitlist.empty in
  fst (read 0 q) = Ret (Some (new_item (lit "https://a.example/") ProcessFull))
  /\ fst (remove q) = Ret (Some (new_item (lit "https://a.example/") ProcessFull))
  /\ Waitlist.length (snd (remove q)) = 1%nat
  /\ fst (read 0 (snd (remove q)))
     = Ret (Some (new_item (lit "https://b.example/") ProcessFull)).
Proof. vm_compute. repeat split. Qed.

Example update_one_step_scenario :
  let q := snd (update (lit "get-web-content") processing 0
                  (snd (add (lit "https://a.example/") ProcessFull Waitlist.empty))) in
  map (fun s => match waitlist q !! 0%nat with
                | Some item => state <$> status item !! name s
                | None => None
                end) Steps.full
  = [Some processing; Some pending; Some pending; Some pending; Some pending].
Proof. vm_compute. reflexivity. Qed.

End WaitlistFacts.

(** ** Computations that end, and relations they respect *)

Section Carried.

Context (R : World -> World -> Prop).
Context (R_refl : forall w, R w w).
Context (R_trans : forall a b c, R a b -> R b c -> R a c).

Lemma carries_ret {A} (a : A) : carries R (ret a).
Proof. intros w. split; [discriminate | apply R_refl]. Qed.

Lemma carries_throw {A} e : carries R (@throw World A e).
Proof. intros w. split; [discriminate | apply R_refl]. Qed.

Lemma carries_lift_outcome {A} (o : outcome A) : o <> OutOfFuel -> carries R (lift_outcome o).
Proof. intros H w. split; [exact H | apply R_refl]. Qed.

Lemma carries_gets {A} (f : World -> A) : carries R (gets f).
Proof. intros w. split; [discriminate | apply R_refl]. Qed.

Lemma carries_now {A} (f : nat -> A) : carries R (now f).
Proof. intros w. split; [discriminate | apply R_refl]. Qed.

Lemma carries_modify f : (forall w, R w (f w)) -> carries R (modify f).
Proof. intros H w. split; [discriminate | apply H]. Qed.

Lemma carries_bind {A B} (m : M World A) (k : A -> M World B) :
  carries R m -> (forall a, carries R (k a)) -> carries R (bind m k).
Proof.
  intros Hm Hk w. unfold bind. destruct (Hm w) as [Ht Hr].
  destruct (m w) as [[a|e|] w1]; cbn [fst snd] in *.
  - destruct (Hk a w1) as [Ht' Hr']. split; [exact Ht' | eapply R_trans; eassumption].
  - split; [discriminate | exact Hr].
  - congruence.
Qed.

Lemma carries_try_catch {A} (m : M World A) h :
  carries R m -> (forall e, carries R (h e)) -> carries R (try_catch m h).
Proof.
  intros Hm Hh w. unfold try_catch. destruct (Hm w) as [Ht Hr].
  destruct (m w) as [[a|e|] w1]; cbn [fst snd] in *.
  - split; [discriminate | exact Hr].
  - destruct (Hh e w1) as [Ht' Hr']. split; [exact Ht' | eapply R_trans; eassumption].
  - congruence.
Qed.

Lemma carries_try_finally {A} (m : M World A) f :
  carries R m -> carries R f -> carries R (try_finally m f).
Proof.
  intros Hm Hf w. unfold try_finally. destruct (Hm w) as [Ht Hr].
  destruct (m w) as [[a|e|] w1]; cbn [fst snd] in *; [| |congruence];
    destruct (Hf w1) as [Ht' Hr']; destruct (f w1) as [[[]|e'|] w2];
    cbn [fst snd] in *; try congruence;
    (split; [discriminate | eapply R_trans; eassumption]).
Qed.

End Carried.

(** The pieces of the interpreter of parsed values neither loop nor run
    out of fuel. *)
Lemma settle_total {A} (r : reply A) : settle r <> OutOfFuel.
Proof. destruct r; discriminate. Qed.

Lemma get_total v key : get v key <> OutOfFuel.
Proof. destruct v; discriminate. Qed.

Lemma jina_content_total data : ApiCaller.jina_content data <> OutOfFuel.
Proof.
  unfold ApiCaller.jina_content.
  destruct (get data (lit "data")) as [d| |] eqn:E; [|discriminate|].
  - destruct (truthy (get_opt d (lit "content"))); [discriminate|].
    destruct d; try (destruct (truthy _); [discriminate | apply get_total]).
    destruct (assoc (lit "toString") fields); [discriminate|].
    destruct (truthy _); [discriminate | apply get_total].
  - exfalso. eapply get_total, E.
Qed.

Lemma openai_content_total data : ApiCaller.openai_content data <> OutOfFuel.
Proof. unfold ApiCaller.openai_content. destruct data; discriminate. Qed.

Lemma sanitize_total v : FileManager.sanitize v <> OutOfFuel.
Proof. destruct v; discriminate. Qed.

Create HintDb carried.

#[global] Hint Resolve settle_total get_total jina_content_total openai_content_total
  sanitize_total : carried.

(** A computation is taken apart along its structure, down to the
    primitive effects, which the hint database [carried] knows. *)
Ltac carry :=
  repeat first
    [ progress intros
    | solve [eauto 3 with carried]
    | apply carries_ret | apply carries_throw | apply carries_gets | apply carries_now
    | apply carries_lift_outcome
    | apply carries_bind | apply carries_try_catch | apply carries_try_finally
    | match goal with
      | |- carries _ (match ?x with _ => _ end) => destruct x
      | |- carries _ (let _ := _ in _) => cbv zeta
      | |- (match ?x with _ => _ end) <> OutOfFuel => destruct x
      end ].

Section CarriedByTheCode.

Context (host : Host) (settings : BookmarkCreatorSettings).
Context (R : World -> World -> Prop).
Context (R_refl : forall w, R w w).
Context (R_trans : forall a b c, R a b -> R b c -> R a c).
Context (R_perform : forall e, carries R (perform e)).
Context (R_tick : forall t, carries R (modify (set_tick t))).
Context (R_cancellation : forall b o, carries R (modify (set_cancellation b o))).
Context (R_closures : forall c, carries R (modify (set_closures c))).
Context (R_createdNotes :
           forall f, carries R (modify (fun w => set_createdNotes (f w) w))).
Context (R_update : forall s st n, carries R (on_queue (update s st n))).
Context (R_read : forall n, carries R (on_queue (read n))).
Context (R_subscribe : forall ev l, carries R (on_queue (subscribe ev l))).

#[local] Hint Resolve R_refl R_trans R_perform R_tick R_cancellation R_closures
  R_createdNotes R_update R_read R_subscribe : carried.

Lemma carries_requestCancellation : carries R requestCancellation.
Proof. unfold requestCancellation. carry. Qed.

#[local] Hint Resolve carries_requestCancellation : carried.

Lemma carries_suspend : carries R (suspend host).
Proof. unfold suspend. carry. Qed.

#[local] Hint Resolve carries_suspend : carried.

Lemma carries_await {A} (f : nat -> reply A) : carries R (await host f).
Proof. unfold await. carry. Qed.

#[local] Hint Resolve @carries_await : carried.

Lemma carries_request r : carries R (ApiCaller.request host r).
Proof. unfold ApiCaller.request. carry. Qed.

#[local] Hint Resolve carries_request : carried.

Lemma carries_generateBookmarkYaml u wc si :
  carries R (ApiCaller.generateBookmarkYaml host settings u wc si).
Proof. unfold ApiCaller.generateBookmarkYaml. carry. Qed.

#[local] Hint Resolve carries_generateBookmarkYaml : carried.

Lemma carries_callApi u type info :
  carries R (ApiCaller.callApi host settings u type info).
Proof. unfold ApiCaller.callApi, ApiCaller.validate, ApiCaller.on_success. carry. Qed.

Lemma carries_generated_yaml r : carries R (AiService.generated_yaml host r).
Proof. unfold AiService.generated_yaml. carry. Qed.

Lemma carries_generation_failed e : carries R (AiService.generation_failed e).
Proof. unfold AiService.generation_failed. carry. Qed.

Lemma carries_ensureFolderExists path :
  carries R (FileManager.ensureFolderExists host path).
Proof. unfold FileManager.ensureFolderExists. carry. Qed.

Lemma carries_ensureFileCanBeCreated path :
  carries R (FileManager.ensureFileCanBeCreated host path).
Proof. unfold FileManager.ensureFileCanBeCreated. carry. Qed.

#[local] Hint Resolve carries_callApi carries_ensureFolderExists
  carries_ensureFileCanBeCreated : carried.

Lemma carries_createNoteFile title content :
  carries R (FileManager.createNoteFile host settings title content).
Proof. unfold FileManager.createNoteFile. carry. Qed.

Lemma carries_downloadScreenshot u title :
  carries R (FileManager.downloadScreenshot host settings u title).
Proof. unfold FileManager.downloadScreenshot. carry. Qed.

Lemma carries_buildNoteContent data :
  carries R (FileManager.buildNoteContent host settings data).
Proof. unfold FileManager.buildNoteContent. carry. Qed.

#[local] Hint Resolve carries_createNoteFile carries_downloadScreenshot
  carries_buildNoteContent : carried.

Lemma carries_progressMode full title : carries R (Modal.progressMode full title).
Proof. unfold Modal.progressMode. carry. Qed.

Lemma carries_parseGeneratedYaml y : carries R (Workflow.parseGeneratedYaml host y).
Proof. unfold Workflow.parseGeneratedYaml. carry. Qed.

Lemma carries_createBookmarkNote this data :
  carries R (Workflow.createBookmarkNote host settings this data).
Proof. unfold Workflow.createBookmarkNote. carry. Qed.

Lemma carries_executeStep {A} this stepId (action : M World A) :
  carries R action -> carries R (Workflow.executeStep this stepId action).
Proof. intros H. unfold Workflow.executeStep. carry. Qed.

#[local] Hint Resolve carries_progressMode carries_parseGeneratedYaml
  carries_createBookmarkNote @carries_executeStep : carried.

Lemma carries_URLWorkflow this u currentIndex :
  carries R (Workflow.URLWorkflow host settings this u currentIndex).
Proof. unfold Workflow.URLWorkflow. carry. Qed.

Lemma carries_yaml_run this y : carries R (Workflow.yaml_run host settings this y).
Proof. unfold Workflow.yaml_run. carry. Qed.

End CarriedByTheCode.

(** ** Prompts *)

Section Prompts.

Context (host : Host) (settings : BookmarkCreatorSettings).

Lemma grows_refl w : grows w w.
Proof. exists []. symmetry. apply app_nil_r. Qed.

Lemma grows_trans a b c : grows a b -> grows b c -> grows a c.
Proof. intros [l Hl] [l' Hl']. exists (l ++ l'). rewrite Hl', Hl, app_assoc. reflexivity. Qed.

Lemma grows_perform e : carries grows (perform e).
Proof. intros w. split; [discriminate | exists [e]; reflexivity]. Qed.

Lemma grows_tick t : carries grows (modify (set_tick t)).
Proof. apply carries_modify. intros w. exists []. simpl. symmetry. apply app_nil_r. Qed.

Lemma grows_cancellation b o : carries grows (modify (set_cancellation b o)).
Proof. apply carries_modify. intros w. exists []. simpl. symmetry. apply app_nil_r. Qed.

Lemma truncated_embedded max s : ApiCaller.truncated max s = embedded max s.
Proof.
  unfold ApiCaller.truncated, embedded, substring0.
  destruct (N.ltb_spec max (N.of_nat (List.length s)));
    destruct (N.leb_spec (N.of_nat (List.length s)) max); try reflexivity; lia.
Qed.

Lemma request_first {A} r (k : Response -> M World A) h w :
  carries grows (try_catch (bind (await host (fun t => requestUrl host t r)) k) h) ->
  exists rest,
    effects (snd (try_catch (bind (ApiCaller.request host r) k) h w))
    = effects w ++ Requested r :: rest.
Proof.
  intros H. destruct (H (snd (perform (Requested r) w))) as [_ [l Hl]].
  exists l. simpl in Hl. rewrite <- app_assoc in Hl. exact Hl.
Qed.

(** C8.  Both versions of [generateBookmarkYaml] send, as the first thing
    they do to the outside, the chat request whose prompt embeds the page
    content and the search text cut to the maximum of the call site (2000
    and 8000 in [ApiCaller.ts], 8000 and 2000 in [aiService.ts]): a text no
    longer than the maximum is embedded as it is, a longer one as its first
    maximum-length characters followed by three dots. *)
Theorem prompt_embeds_truncated (u webContent searchInfo : js_string) (w : World) :
  (forall max s,
     (N.of_nat (List.length s) <= max -> ApiCaller.truncated max s = s)
     /\ (max < N.of_nat (List.length s) ->
         ApiCaller.truncated max s = firstn (N.to_nat max) s ++ lit "..."
         /\ List.length (firstn (N.to_nat max) s) = N.to_nat max))
  /\ (exists rest,
        effects (snd (ApiCaller.generateBookmarkYaml host settings u webContent searchInfo w))
        = effects w
          ++ Requested
               (POST (aiApiBaseUrl settings ++ lit "/chat/completions")
                     (ApiCaller.ai_headers settings)
                     (chat_body host (aiApiModel settings)
                        (aiPromptTemplate settings ++ ApiCaller.nl ++ ApiCaller.nl
                         ++ lit "## 网页内容：" ++ ApiCaller.nl
                         ++ embedded 2000 webContent ++ ApiCaller.nl ++ ApiCaller.nl
                         ++ lit "## 搜索信息：" ++ ApiCaller.nl
                         ++ embedded 8000 searchInfo ++ ApiCaller.nl ++ ApiCaller.nl
                         ++ lit "## 目标网址：" ++ ApiCaller.nl ++ u ++ ApiCaller.nl)))
          :: rest)
  /\ (is_empty (aiApiKey settings) = false ->
      url_hostname host (aiApiBaseUrl settings) <> None ->
      exists rest,
        effects (snd (AiService.generateBookmarkYaml host settings u webContent searchInfo w))
        = effects w
          ++ Requested
               (POST (aiApiBaseUrl settings ++ lit "/chat/completions")
                     (ApiCaller.ai_headers settings)
                     (chat_body host (aiApiModel settings)
                        (aiPromptTemplate settings ++ ApiCaller.nl ++ ApiCaller.nl
                         ++ lit "## 网页内容：" ++ ApiCaller.nl
                         ++ embedded 8000 webContent ++ ApiCaller.nl ++ ApiCaller.nl
                         ++ lit "## 搜索信息：" ++ ApiCaller.nl
                         ++ embedded 2000 searchInfo ++ ApiCaller.nl ++ ApiCaller.nl
                         ++ lit "## 目标网址：" ++ ApiCaller.nl ++ u
                         ++ ApiCaller.nl ++ ApiCaller.nl
                         ++ lit "请根据以上信息生成完整的书签YAML信息。")))
          :: rest).
Proof.
  split; [|split].
  - intros max s. rewrite truncated_embedded. unfold embedded. split.
    + intros H. destruct (N.leb_spec (N.of_nat (List.length s)) max); [reflexivity | lia].
    + intros H. destruct (N.leb_spec (N.of_nat (List.length s)) max); [lia|].
      split; [reflexivity|]. rewrite List.length_firstn. lia.
  - unfold ApiCaller.generateBookmarkYaml, ApiCaller.prompt. cbv zeta.
    rewrite !truncated_embedded.
    match goal with
    | |- context [ApiCaller.request host ?r] =>
      destruct (carries_await host grows grows_refl grows_trans grows_perform grows_tick
                  grows_cancellation (fun t => requestUrl host t r)
                  (snd (perform (Requested r) w))) as [_ [l Hl]]
    end.
    exists l. simpl in Hl. rewrite <- app_assoc in Hl. exact Hl.
  - intros Hkey Hbase.
    unfold AiService.generateBookmarkYaml, AiService.prompt. rewrite Hkey.
    destruct (url_hostname host (aiApiBaseUrl settings)); [|congruence]. cbv zeta.
    rewrite !truncated_embedded.
    apply request_first.
    apply (carries_try_catch grows grows_trans);
      [apply (carries_bind grows grows_trans)|].
    + apply (carries_await host grows grows_refl grows_trans grows_perform grows_tick
               grows_cancellation).
    + intros r. apply (carries_generated_yaml host grows grows_refl grows_trans).
    + intros e. apply (carries_generation_failed grows grows_refl grows_trans grows_perform).
Qed.

End Prompts.

(** Witness of [prompt_embeds_truncated]: a text of six characters cut to
    three, and the request of the older service class. *)
Lemma prompt_embeds_truncated_witness :
  (ApiCaller.truncated 3 (lit "abcdef") = firstn (N.to_nat 3) (lit "abcdef") ++ lit "..."
   /\ List.length (firstn (N.to_nat 3) (lit "abcdef")) = N.to_nat 3)
  /\ exists rest,
       effects (snd (AiService.generateBookmarkYaml demo_host demo_settings
                       (lit "https://b.example/") (lit "content") (lit "search")
                       (idle Waitlist.empty)))
       = effects (idle Waitlist.empty)
         ++ Requested
              (POST (aiApiBaseUrl demo_settings ++ lit "/chat/completions")
                    (ApiCaller.ai_headers demo_settings)
                    (chat_body demo_host (aiApiModel demo_settings)
                       (aiPromptTemplate demo_settings ++ ApiCaller.nl ++ ApiCaller.nl
                        ++ lit "## 网页内容：" ++ ApiCaller.nl
                        ++ embedded 8000 (lit "content") ++ ApiCaller.nl ++ ApiCaller.nl
                        ++ lit "## 搜索信息：" ++ ApiCaller.nl
                        ++ embedded 2000 (lit "search") ++ ApiCaller.nl ++ ApiCaller.nl
                        ++ lit "## 目标网址：" ++ ApiCaller.nl ++ lit "https://b.example/"
                        ++ ApiCaller.nl ++ ApiCaller.nl
                        ++ lit "请根据以上信息生成完整的书签YAML信息。")))
         :: rest.
Proof.
  split.
  - apply (proj1 (prompt_embeds_truncated demo_host demo_settings (lit "https://b.example/")
                    (lit "content") (lit "search") (idle Waitlist.empty)) 3 (lit "abcdef")).
    vm_compute. reflexivity.
  - apply (proj2 (proj2 (prompt_embeds_truncated demo_host demo_settings
                           (lit "https://b.example/") (lit "content") (lit "search")
                           (idle Waitlist.empty)))).
    + reflexivity.
    + vm_compute. discriminate.
Defined.


(** ** The search step *)

Section Search.

Context (host : Host) (settings : BookmarkCreatorSettings).

Lemma fst_bind {S A B} (m : M S A) (k : A -> M S B) s :
  fst (bind m k s)
  = match fst (m s) with
    | Ret a => fst (k a (snd (m s)))
    | Throw e => Throw e
    | OutOfFuel => OutOfFuel
    end.
Proof. unfold bind. destruct (m s) as [[a|e|] s']; reflexivity. Qed.

Lemma fst_try_catch {S A} (m : M S A) h s :
  fst (try_catch m h s)
  = match fst (m s) with
    | Throw e => fst (h e (snd (m s)))
    | other => other
    end.
Proof. unfold try_catch. destruct (m s) as [[a|e|] s']; reflexivity. Qed.

Lemma requestCancellation_returns w : fst (requestCancellation w) = Ret tt.
Proof.
  unfold requestCancellation. rewrite fst_bind. unfold gets at 1. cbn [fst snd].
  destruct (isWorkflowRunning w); [|reflexivity].
  destruct (runningInstanceId w) as [id|]; [|reflexivity].
  destruct (is_empty id); [reflexivity|].
  rewrite fst_bind. reflexivity.
Qed.

Lemma suspend_returns w : fst (suspend host w) = Ret tt.
Proof.
  unfold suspend. rewrite fst_bind. unfold gets at 1. cbn [fst snd].
  rewrite fst_bind. unfold modify at 1. cbn [fst snd].
  destruct (cancel_pressed host (tick w)); [apply requestCancellation_returns | reflexivity].
Qed.

Lemma await_outcome {A} (f : nat -> reply A) w :
  fst (await host f w) = settle (f (tick w)).
Proof.
  unfold await. rewrite fst_bind. unfold gets at 1. cbn [fst snd].
  rewrite fst_bind, suspend_returns. reflexivity.
Qed.

Lemma request_outcome r w :
  fst (ApiCaller.request host r w) = settle (requestUrl host (tick w) r).
Proof.
  unfold ApiCaller.request. rewrite fst_bind. unfold perform at 1, modify at 1.
  cbn [fst snd]. rewrite (await_outcome (fun t => requestUrl host t r)). reflexivity.
Qed.

(** C2, as the code has it.  Past the checks of the key and of the
    address, the older [searchWebInfo] answers every failure of the search
    request (a rejection, status 401, status 429, any status other than
    200) with the empty string; [callApi] with type [jinaSearch], which is
    the search step of the workflow, throws an [Error] for each of them. *)
Theorem search_failure_modes (u domain : js_string) (w : World) :
  is_empty (jinaApiKey settings) = false ->
  url_hostname host u = Some domain ->
  (forall target,
     encodeURIComponent host (domain ++ lit " 网站评价 介绍") = Resolved target ->
     request_fails host (tick w)
       (GET (lit "https://s.jina.ai/" ++ target) (ApiCaller.jina_headers settings)) ->
     fst (AiService.searchWebInfo host settings u w) = Ret (VStr []))
  /\ (forall target,
        encodeURIComponent host domain = Resolved target ->
        request_fails host (tick w)
          (GET (lit "https://s.jina.ai/" ++ target) (ApiCaller.jina_headers settings)) ->
        exists message,
          fst (ApiCaller.callApi host settings u ApiCaller.jinaSearch None w)
          = Throw (Error (lit "AI书签生成失败: " ++ message))).
Proof.
  intros Hkey Hurl. split; intros target Henc Hfail; unfold request_fails in Hfail.
  - unfold AiService.searchWebInfo. rewrite Hkey, Hurl.
    rewrite fst_try_catch, fst_bind. simpl.
    rewrite fst_bind. unfold lift_outcome at 1. simpl. rewrite Henc. simpl.
    rewrite fst_bind, request_outcome.
    destruct (requestUrl host (tick w) _) as [response|e]; simpl; [|reflexivity].
    destruct (resp_status response =? 200)%Z eqn:E200;
      [apply Z.eqb_eq in E200; contradiction|].
    destruct (resp_status response =? 401)%Z; [reflexivity|].
    destruct (resp_status response =? 429)%Z; reflexivity.
  - unfold ApiCaller.callApi, ApiCaller.validate. rewrite fst_bind. simpl.
    rewrite Hkey, Hurl. simpl.
    rewrite fst_try_catch, fst_bind, fst_bind. unfold lift_outcome at 1. simpl.
    rewrite Henc. simpl. rewrite request_outcome.
    destruct (requestUrl host (tick w) _) as [response|e]; simpl.
    + destruct (resp_status response =? 200)%Z eqn:E200;
        [apply Z.eqb_eq in E200; contradiction|].
      destruct (resp_status response =? 401)%Z; [simpl; eauto|].
      destruct (resp_status response =? 429)%Z; [simpl; eauto|].
      destruct (500 <=? resp_status response)%Z; simpl; eauto.
    + destruct e; simpl; eauto.
Qed.

End Search.

(** Witness of [search_failure_modes]: a service that answers 401. *)
Lemma search_failure_modes_witness :
  fst (AiService.searchWebInfo unauthorized_host demo_settings (lit "https://a.example/")
         (idle Waitlist.empty))
  = Ret (VStr [])
  /\ exists message,
       fst (ApiCaller.callApi unauthorized_host demo_settings (lit "https://a.example/")
              ApiCaller.jinaSearch None (idle Waitlist.empty))
       = Throw (Error (lit "AI书签生成失败: " ++ message)).
Proof.
  destruct (search_failure_modes unauthorized_host demo_settings
              (lit "https://a.example/") (lit "a.example") (idle Waitlist.empty))
    as [H1 H2]; [reflexivity | vm_compute; reflexivity |].
  split.
  - apply (H1 (lit "a.example" ++ lit " 网站评价 介绍")); [reflexivity|].
    vm_compute. discriminate.
  - apply (H2 (lit "a.example")); [reflexivity|]. vm_compute. discriminate.
Defined.

(** C2, as the specification words it, fails where the workflow searches:
    on status 401 [callApi] with type [jinaSearch] throws and does not
    return the empty string. *)
Lemma callApi_search_401_throws :
  fst (ApiCaller.callApi unauthorized_host demo_settings (lit "https://a.example/")
         ApiCaller.jinaSearch None (idle Waitlist.empty))
  = Throw (Error (lit "AI书签生成失败: Jina AI 搜索器: API密钥无效或已过期"))
  /\ fst (ApiCaller.callApi unauthorized_host demo_settings (lit "https://a.example/")
            ApiCaller.jinaSearch None (idle Waitlist.empty))
     <> Ret [].
Proof. split; vm_compute; [reflexivity | discriminate]. Qed.

(** ** Parsing a generated document *)

Section ParseGeneratedYaml.

Context (host : Host).


End ParseGeneratedYaml.



(** ** The waiting list under the workflow *)

Section QueueUnderWorkflow.

Lemma update_total s st n q : fst (update s st n q) <> OutOfFuel.
Proof.
  destruct (at_index (waitlist q) n) as [item|] eqn:Hi.
  - destruct (status item !! s) as [x|] eqn:Hs.
    + rewrite (update_hit _ _ _ _ _ _ Hi Hs). apply deliver_total.
    + rewrite update_noop by eauto. discriminate.
  - rewrite update_noop by eauto. discriminate.
Qed.

Lemma update_length s st n q :
  List.length (waitlist (snd (update s st n q))) = List.length (waitlist q).
Proof.
  destruct (at_index (waitlist q) n) as [item|] eqn:Hi.
  - destruct (status item !! s) as [x|] eqn:Hs.
    + rewrite (update_hit _ _ _ _ _ _ Hi Hs). apply length_insert.
    + rewrite update_noop by eauto. reflexivity.
  - rewrite update_noop by eauto. reflexivity.
Qed.

Lemma update_quiet s st n q : quiet EvUpdate q -> fst (update s st n q) = Ret tt.
Proof.
  intros Hq. destruct (at_index (waitlist q) n) as [item|] eqn:Hi.
  - destruct (status item !! s) as [x|] eqn:Hs.
    + rewrite (update_hit _ _ _ _ _ _ Hi Hs). apply Hq.
    + rewrite update_noop by eauto. reflexivity.
  - rewrite update_noop by eauto. reflexivity.
Qed.

Lemma read_total n q : fst (read n q) <> OutOfFuel.
Proof.
  rewrite read_outcome. cbn [fst].
  pose proof (deliver_total (listeners q EvRead)
                (ReadData (at_index (waitlist q) n) (List.length (waitlist q)) n)) as H.
  destruct (deliver _ _); [discriminate | discriminate | congruence].
Qed.

Lemma read_waitlist n q : waitlist (snd (read n q)) = waitlist q.
Proof. rewrite read_outcome. reflexivity. Qed.

Lemma subscribe_waitlist ev l q : waitlist (snd (subscribe ev l q)) = waitlist q.
Proof. unfold subscribe, modify. cbn [snd]. destruct (existsb _ _); reflexivity. Qed.

Lemma clear_total q : fst (clear q) <> OutOfFuel.
Proof. unfold clear, bind, modify, emit. cbn [fst]. apply deliver_total. Qed.

Lemma clear_waitlist q : waitlist (snd (clear q)) = [].
Proof. reflexivity. Qed.

Lemma on_queue_fst {A} (m : M WaitlistManager A) w : fst (on_queue m w) = fst (m (queue w)).
Proof. unfold on_queue. destruct (m (queue w)); reflexivity. Qed.

Lemma on_queue_snd {A} (m : M WaitlistManager A) w :
  snd (on_queue m w) = set_queue (snd (m (queue w))) w.
Proof. unfold on_queue. destruct (m (queue w)); reflexivity. Qed.

(** The status of the step at the head of the list after [update] without
    an index: the new status, if the step was there. *)
Lemma update_step_state s new w :
  step_state s (snd (on_queue (update s new 0) w)) = (fun _ => new) <$> step_state s w.
Proof.
  rewrite on_queue_snd. unfold step_state. cbn [queue set_queue].
  destruct (at_index (waitlist (queue w)) 0) as [item|] eqn:Hi.
  - assert (Hi' : waitlist (queue w) !! 0%nat = Some item) by exact Hi. rewrite Hi'.
    destruct (status item !! s) as [x|] eqn:Hs.
    + rewrite (update_hit _ _ _ _ _ _ Hi Hs). cbn [snd waitlist record_emit set_waitlist].
      cbn [Z.to_nat]. rewrite list_lookup_insert_eq by (eapply lookup_lt_Some, Hi').
      cbn [status]. rewrite lookup_insert_eq. reflexivity.
    + rewrite update_noop by eauto. cbn [snd]. rewrite Hi', Hs. reflexivity.
  - assert (Hi' : waitlist (queue w) !! 0%nat = None) by exact Hi.
    rewrite update_noop by eauto. cbn [snd]. rewrite Hi'. reflexivity.
Qed.

End QueueUnderWorkflow.


(** ** One step *)

Section ExecuteStep.

Context (this : Workflow.BookmarkWorkflow).

Lemma on_queue_update_quiet s st w :
  quiet EvUpdate (queue w) -> fst (on_queue (update s st 0) w) = Ret tt.
Proof. intros H. rewrite on_queue_fst. apply update_quiet, H. Qed.

(** C4, as the code has it.  With a pending cancellation of this very
    instance [executeStep] throws the cancellation error and touches
    nothing.  Otherwise, as long as no listener of [update] throws, it marks
    the step [processing] in the item at the head of the waiting list, runs
    the action from there, and then either marks the step [completed] and
    returns the result of the action, or marks it [failed] and throws what
    the action threw. *)
Theorem executeStep_contract {A} (stepId : js_string) (action : M World A) (w : World) :
  (Workflow.shouldCancel this w = true ->
   Workflow.executeStep this stepId action w = (Throw Workflow.WorkflowCancellationError, w))
  /\ (Workflow.shouldCancel this w = false ->
      quiet EvUpdate (queue w) ->
      let w1 := snd (on_queue (update stepId processing 0) w) in
      step_state stepId w1 = (fun _ => processing) <$> step_state stepId w
      /\ (forall r w2,
            action w1 = (Ret r, w2) ->
            quiet EvUpdate (queue w2) ->
            let w3 := snd (on_queue (update stepId completed 0) w2) in
            Workflow.executeStep this stepId action w = (Ret r, w3)
            /\ step_state stepId w3 = (fun _ => completed) <$> step_state stepId w2)
      /\ (forall e w2,
            action w1 = (Throw e, w2) ->
            quiet EvUpdate (queue w2) ->
            let w3 := snd (on_queue (update stepId failed 0) w2) in
            Workflow.executeStep this stepId action w = (Throw e, w3)
            /\ step_state stepId w3 = (fun _ => failed) <$> step_state stepId w2)).
Proof.
  split.
  - intros Hc. unfold Workflow.executeStep, bind, gets. rewrite Hc. reflexivity.
  - intros Hc Hq w1. split; [apply update_step_state|].
    pose proof (on_queue_update_quiet stepId processing w Hq) as H1.
    assert (Hrun : forall o w2 st,
              action w1 = (o, w2) ->
              fst (on_queue (update stepId st 0) w2) = Ret tt ->
              (forall r, o = Ret r -> st = completed) ->
              (forall e, o = Throw e -> st = failed) ->
              o <> OutOfFuel ->
              Workflow.executeStep this stepId action w
              = (o, snd (on_queue (update stepId st 0) w2))).
    { intros o w2 st Ea H2 Hr He Hf.
      unfold Workflow.executeStep, bind, gets, try_catch, throw, ret. rewrite Hc.
      subst w1. destruct (on_queue (update stepId processing 0) w) as [o1 w1'].
      cbn [fst snd] in *. subst o1. rewrite Ea.
      destruct o as [r|e|]; [| |congruence].
      - rewrite (Hr r eq_refl) in *.
        destruct (on_queue (update stepId completed 0) w2) as [o2 w3].
        cbn [fst snd] in *. subst o2. reflexivity.
      - rewrite (He e eq_refl) in *.
        destruct (on_queue (update stepId failed 0) w2) as [o2 w3].
        cbn [fst snd] in *. subst o2. reflexivity. }
    split.
    + intros r w2 Ea Hq2 w3. split; [|apply update_step_state].
      apply Hrun; [exact Ea | apply on_queue_update_quiet, Hq2 | | |]; congruence.
    + intros e w2 Ea Hq2 w3. split; [|apply update_step_state].
      apply Hrun; [exact Ea | apply on_queue_update_quiet, Hq2 | | |]; congruence.
Qed.

End ExecuteStep.

(** Witness of [executeStep_contract]: a pending cancellation of [me], and
    a step of the first of two fresh items that succeeds. *)
Lemma executeStep_contract_witness :
  Workflow.executeStep me (lit "get-web-content") noisy_action
    (set_cancellation true (Some (Workflow.instanceId me))
       (idle (after_adds two_urls Waitlist.empty)))
  = (Throw Workflow.WorkflowCancellationError,
     set_cancellation true (Some (Workflow.instanceId me))
       (idle (after_adds two_urls Waitlist.empty)))
  /\ (let w1 := snd (on_queue (update (lit "get-web-content") processing 0)
                       (idle (after_adds two_urls Waitlist.empty))) in
      let w3 := snd (on_queue (update (lit "get-web-content") completed 0)
                       (snd (noisy_action w1))) in
      Workflow.executeStep me (lit "get-web-content") noisy_action
        (idle (after_adds two_urls Waitlist.empty))
      = (Ret (lit "done"), w3)
      /\ step_state (lit "get-web-content") w3
         = (fun _ => completed) <$> step_state (lit "get-web-content") (snd (noisy_action w1))).
Proof.
  split.
  - apply (proj1 (executeStep_contract me (lit "get-web-content") noisy_action
                    (set_cancellation true (Some (Workflow.instanceId me))
                       (idle (after_adds two_urls Waitlist.empty))))).
    vm_compute. reflexivity.
  - intros w1.
    apply (proj1 (proj2 (proj2 (executeStep_contract me (lit "get-web-content") noisy_action
                                  (idle (after_adds two_urls Waitlist.empty)))
                               ltac:(vm_compute; reflexivity) (fun d => eq_refl)))
                 (lit "done") (snd (noisy_action w1))).
    + vm_compute. reflexivity.
    + intros d. reflexivity.
Defined.

(** C4, as the specification words it, fails: no cancellation is pending
    and the action would succeed, but a listener of [update] throws, so the
    action is not run, the step ends [failed] and the call throws. *)
Lemma executeStep_listener_throws :
  Workflow.shouldCancel me angry_world = false
  /\ fst (noisy_action (snd (on_queue (update (lit "get-web-content") processing 0)
                               angry_world)))
     = Ret (lit "done")
  /\ fst (Workflow.executeStep me (lit "get-web-content") noisy_action angry_world)
     = Throw (Error (lit "listener failed"))
  /\ step_state (lit "get-web-content")
       (snd (Workflow.executeStep me (lit "get-web-content") noisy_action angry_world))
     = Some failed
  /\ notices (snd (Workflow.executeStep me (lit "get-web-content") noisy_action angry_world))
     = [].
Proof. repeat split; vm_compute; reflexivity. Qed.

(** ** A whole run *)

Section PointWise.

Context (R : World -> World -> Prop).
Context (R_trans : forall a b c, R a b -> R b c -> R a c).

Lemma ends_at_bind {A B} (m : M World A) (k : A -> M World B) w :
  ends_at R m w -> (forall a, fst (m w) = Ret a -> ends_at R (k a) (snd (m w))) ->
  ends_at R (bind m k) w.
Proof.
  intros [Ht Hr] Hk. unfold ends_at, bind in *.
  destruct (m w) as [[a|e|] w1]; cbn [fst snd] in *.
  - destruct (Hk a eq_refl) as [Ht' Hr']. split; [exact Ht' | eapply R_trans; eassumption].
  - split; [discriminate | exact Hr].
  - congruence.
Qed.

Lemma ends_at_try_catch {A} (m : M World A) h w :
  ends_at R m w -> (forall e, fst (m w) = Throw e -> ends_at R (h e) (snd (m w))) ->
  ends_at R (try_catch m h) w.
Proof.
  intros [Ht Hr] Hh. unfold ends_at, try_catch in *.
  destruct (m w) as [[a|e|] w1]; cbn [fst snd] in *.
  - split; [discriminate | exact Hr].
  - destruct (Hh e eq_refl) as [Ht' Hr']. split; [exact Ht' | eapply R_trans; eassumption].
  - congruence.
Qed.

Lemma carries_ends_at {A} (m : M World A) w : carries R m -> ends_at R m w.
Proof. intros H. apply H. Qed.

Lemma carries_weaken (R' : World -> World -> Prop) {A} (m : M World A) :
  (forall a b, R' a b -> R a b) -> carries R' m -> carries R m.
Proof. intros H Hm w. destruct (Hm w). split; auto. Qed.

End PointWise.


Lemma steady_refl w : steady w w.
Proof. repeat split. Qed.

Lemma steady_trans a b c : steady a b -> steady b c -> steady a c.
Proof.
  unfold steady, same_lock, same_length. intros [[H1 H2] H3] [[H4 H5] H6].
  repeat split; congruence.
Qed.

Lemma same_lock_trans a b c : same_lock a b -> same_lock b c -> same_lock a c.
Proof. unfold same_lock. intros [H1 H2] [H4 H5]. split; congruence. Qed.

Lemma steady_perform e : carries steady (perform e).
Proof. apply carries_modify. intros w. repeat split. Qed.

Lemma steady_tick t : carries steady (modify (set_tick t)).
Proof. apply carries_modify. intros w. repeat split. Qed.

Lemma steady_cancellation b o : carries steady (modify (set_cancellation b o)).
Proof. apply carries_modify. intros w. repeat split. Qed.

Lemma steady_closures c : carries steady (modify (set_closures c)).
Proof. apply carries_modify. intros w. repeat split. Qed.

Lemma steady_createdNotes f : carries steady (modify (fun w => set_createdNotes (f w) w)).
Proof. apply carries_modify. intros w. repeat split. Qed.

Lemma steady_update s st n : carries steady (on_queue (update s st n)).
Proof.
  intros w. rewrite on_queue_fst, on_queue_snd. split; [apply update_total|].
  repeat split. unfold same_length. cbn [queue set_queue]. apply update_length.
Qed.

Lemma steady_read n : carries steady (on_queue (read n)).
Proof.
  intros w. rewrite on_queue_fst, on_queue_snd. split; [apply read_total|].
  repeat split. unfold same_length. cbn [queue set_queue]. rewrite read_waitlist. reflexivity.
Qed.

Lemma steady_subscribe ev l : carries steady (on_queue (subscribe ev l)).
Proof.
  intros w. rewrite on_queue_fst, on_queue_snd. split; [discriminate|].
  repeat split. unfold same_length. cbn [queue set_queue].
  rewrite subscribe_waitlist. reflexivity.
Qed.

Lemma same_lock_clear : carries same_lock (on_queue clear).
Proof.
  intros w. rewrite on_queue_fst, on_queue_snd. split; [apply clear_total|]. split; reflexivity.
Qed.

Ltac steady_primitives :=
  first [ exact steady_refl | exact steady_trans | exact steady_perform | exact steady_tick
        | exact steady_cancellation | exact steady_closures | exact steady_createdNotes
        | exact steady_update | exact steady_read | exact steady_subscribe ].

Section Steady.

Context (host : Host) (settings : BookmarkCreatorSettings) (this : Workflow.BookmarkWorkflow).

Lemma steady_URLWorkflow u i :
  carries steady (Workflow.URLWorkflow host settings this u i).
Proof.
  apply carries_URLWorkflow; steady_primitives.
Qed.

Lemma steady_progressMode full title : carries steady (Modal.progressMode full title).
Proof.
  apply carries_progressMode; steady_primitives.
Qed.

Lemma gets_snd {A} (f : World -> A) w : snd (gets f w) = w.
Proof. reflexivity. Qed.

Lemma gets_fst {A} (f : World -> A) w : fst (gets f w) = Ret (f w).
Proof. reflexivity. Qed.

(** With a unit of fuel for every item from [currentIndex] on, the loop
    ends. *)
Lemma url_loop_ends fuel : forall currentIndex hasError w,
  (List.length (waitlist (queue w)) - currentIndex <= fuel)%nat ->
  ends_at steady (Workflow.url_loop host settings this fuel currentIndex hasError) w.
Proof.
  induction fuel as [|fuel IH]; intros i h w Hfuel.
  - unfold ends_at, Workflow.url_loop, bind, gets, Waitlist.length. cbn [fst snd].
    destruct (Nat.ltb_spec i (List.length (waitlist (queue w)))); [lia|].
    split; [discriminate | apply steady_refl].
  - cbn [Workflow.url_loop].
    apply (ends_at_bind steady steady_trans); [apply carries_gets, steady_refl|].
    intros len [= <-]. rewrite !gets_snd. unfold Waitlist.length.
    destruct (Nat.ltb_spec i (List.length (waitlist (queue w)))) as [Hlt|Hge];
      [|apply carries_ret, steady_refl].
    apply (ends_at_bind steady steady_trans); [apply carries_gets, steady_refl|].
    intros cancel _. rewrite !gets_snd.
    destruct cancel; [apply carries_throw, steady_refl|].
    apply (ends_at_bind steady steady_trans); [apply steady_read|].
    intros item _.
    destruct (steady_read (Z.of_nat i) w) as [_ [_ Hlen]]. unfold same_length in Hlen.
    destruct item as [it|]; [|apply IH; lia].
    match goal with
    | |- ends_at _ (bind ?m _) ?w1 =>
      assert (Hm : carries steady m)
        by (apply (carries_try_catch steady steady_trans);
            [apply (carries_bind steady steady_trans);
             [apply steady_URLWorkflow | intros; apply carries_ret, steady_refl]
            |intros; apply (carries_bind steady steady_trans);
             [apply steady_perform | intros; apply carries_ret, steady_refl]]);
      apply (ends_at_bind steady steady_trans); [apply Hm|];
      intros thrown _; destruct (Hm w1) as [_ [_ Hlen']]
    end.
    unfold same_length in Hlen'. apply IH. lia.
Qed.

(** [URLWorkflow] catches whatever its steps throw. *)
Lemma URLWorkflow_never_throws u i w e :
  fst (Workflow.URLWorkflow host settings this u i w) <> Throw e.
Proof.
  unfold Workflow.URLWorkflow, try_catch.
  match goal with |- context [let (_, _) := ?m w in _] => destruct (m w) as [[b|e'|] w'] end;
    cbn [fst]; discriminate.
Qed.

(** The loop hands back the [hasError] it was started with: no turn of the
    loop changes it. *)
Lemma url_loop_hasError fuel : forall currentIndex hasError w b,
  fst (Workflow.url_loop host settings this fuel currentIndex hasError w) = Ret b ->
  b = hasError.
Proof.
  induction fuel as [|fuel IH]; intros i h w b.
  - unfold Workflow.url_loop, bind, gets. cbn [fst snd].
    destruct (Nat.ltb _ _); cbn; congruence.
  - cbn [Workflow.url_loop]. rewrite fst_bind, gets_fst, gets_snd.
    destruct (Nat.ltb _ _); [|cbn; congruence].
    rewrite fst_bind, gets_fst, gets_snd.
    destruct (Workflow.shouldCancel this w); [discriminate|].
    rewrite fst_bind.
    destruct (fst (on_queue (read (Z.of_nat i)) w)) as [[it|]| |]; try discriminate.
    + rewrite fst_bind, fst_try_catch, fst_bind.
      pose proof (URLWorkflow_never_throws (Waitlist.url it) i
                    (snd (on_queue (read (Z.of_nat i)) w))) as Hnt.
      destruct (fst (Workflow.URLWorkflow host settings this (Waitlist.url it) i _))
        as [ok|e|]; [| exfalso; eapply Hnt; reflexivity | discriminate].
      cbn [fst ret]. intros H. apply IH in H. rewrite orb_false_r in H. exact H.
    + apply IH.
Qed.

End Steady.

Section Release.

Context (host : Host) (settings : BookmarkCreatorSettings) (this : Workflow.BookmarkWorkflow).

Lemma steady_same_lock a b : steady a b -> same_lock a b.
Proof. intros [H _]. exact H. Qed.

Lemma same_lock_refl w : same_lock w w.
Proof. split; reflexivity. Qed.

Lemma same_lock_perform e : carries same_lock (perform e).
Proof. apply (carries_weaken same_lock steady), steady_perform. apply steady_same_lock. Qed.

(** With a unit of fuel for every waiting item, the [try] and [catch]
    blocks of [startURLWorkflow] end, and the lock is in the same hands
    when they do. *)
Lemma url_run_ends fuel w :
  (List.length (waitlist (queue w)) <= fuel)%nat ->
  ends_at same_lock (Workflow.url_run host settings this fuel) w.
Proof.
  intros Hfuel. unfold Workflow.url_run.
  apply (ends_at_try_catch same_lock same_lock_trans).
  2: { intros e _. apply carries_ends_at.
       repeat (apply (carries_bind same_lock same_lock_trans);
               [apply same_lock_perform | intros _]).
       apply carries_ret, same_lock_refl. }
  apply (ends_at_bind same_lock same_lock_trans); [apply same_lock_perform|].
  intros _ _.
  destruct (steady_perform ModalOpen w) as [_ [_ L1]]. fold Modal.open in L1.
  apply (ends_at_bind same_lock same_lock_trans).
  { apply (carries_weaken same_lock steady), steady_progressMode. apply steady_same_lock. }
  intros _ _.
  destruct (steady_progressMode true Modal.default_title (snd (Modal.open w))) as [_ [_ L2]].
  unfold same_length in L1, L2.
  apply (ends_at_bind same_lock same_lock_trans).
  { destruct (url_loop_ends host settings this fuel 0 false
                (snd (Modal.progressMode true Modal.default_title (snd (Modal.open w)))))
      as [Ht Hs]; [lia|].
    split; [exact Ht | apply steady_same_lock, Hs]. }
  intros hasError _.
  apply carries_ends_at.
  apply (carries_bind same_lock same_lock_trans); [apply same_lock_clear | intros _].
  apply (carries_bind same_lock same_lock_trans);
    [apply carries_gets, same_lock_refl | intros notes].
  repeat (apply (carries_bind same_lock same_lock_trans);
          [apply same_lock_perform | intros _]).
  apply carries_ret, same_lock_refl.
Qed.

Lemma url_run_never_throws fuel w e :
  fst (Workflow.url_run host settings this fuel w) <> Throw e.
Proof.
  unfold Workflow.url_run, try_catch.
  match goal with |- context [let (_, _) := ?m w in _] => destruct (m w) as [[b|e'|] w'] end;
    cbn [fst]; discriminate.
Qed.

Lemma steady_yaml_run y : carries steady (Workflow.yaml_run host settings this y).
Proof. apply carries_yaml_run; steady_primitives. Qed.

Lemma yaml_run_never_throws y w e :
  fst (Workflow.yaml_run host settings this y w) <> Throw e.
Proof.
  unfold Workflow.yaml_run, try_catch at 1.
  match goal with |- context [let (_, _) := ?m w in _] => destruct (m w) as [[b|e'|] w'] end;
    cbn [fst]; discriminate.
Qed.

(** What [try { body } finally { release }] comes to when [body] returns. *)
Lemma released_after (body : M World bool) w b :
  fst (body w) = Ret b ->
  exists w', try_finally body Workflow.release w = (Ret b, w') /\ released w'.
Proof.
  intros H. unfold try_finally. destruct (body w) as [o w1]. cbn [fst] in H. subst o.
  eexists. split; [reflexivity|]. repeat split.
Qed.

Lemma returns_bool (body : M World bool) w :
  fst (body w) <> OutOfFuel -> (forall e, fst (body w) <> Throw e) ->
  exists b, fst (body w) = Ret b.
Proof.
  destruct (fst (body w)) as [b|e|]; intros Ht Hn.
  - eauto.
  - exfalso. eapply Hn. reflexivity.
  - congruence.
Qed.

(** C5.  A call of [startURLWorkflow] or [startYAMLWorkflow] that finds
    the lock free returns (given a unit of fuel for every waiting item),
    and when it has returned, whatever happened on the way, the lock is
    free and without owner, and the request for cancellation and its
    instance are reset. *)
Theorem lock_released_after_run (fuel : nat) (yamlContent : js_string) (w : World) :
  isWorkflowRunning w = false ->
  ((List.length (waitlist (queue w)) <= fuel)%nat ->
   exists b w',
     Workflow.startURLWorkflow host settings this fuel w = (Ret b, w') /\ released w')
  /\ (exists b w',
        Workflow.startYAMLWorkflow host settings this yamlContent w = (Ret b, w')
        /\ released w').
Proof.
  intros Hfree. split.
  - intros Hfuel.
    set (w1 := set_lock true (Some (Workflow.instanceId this)) w).
    destruct (url_run_ends fuel w1 Hfuel) as [Ht _].
    destruct (returns_bool _ _ Ht (url_run_never_throws fuel w1)) as [b Hb].
    destruct (released_after _ _ _ Hb) as (w' & Hw' & Hrel).
    exists b, w'. split; [|exact Hrel].
    unfold Workflow.startURLWorkflow, bind, gets, modify. rewrite Hfree. exact Hw'.
  - set (w1 := set_lock true (Some (Workflow.instanceId this)) w).
    destruct (steady_yaml_run yamlContent w1) as [Ht _].
    destruct (returns_bool _ _ Ht (yaml_run_never_throws yamlContent w1)) as [b Hb].
    destruct (released_after _ _ _ Hb) as (w' & Hw' & Hrel).
    exists b, w'. split; [|exact Hrel].
    unfold Workflow.startYAMLWorkflow, bind, gets, modify. rewrite Hfree. exact Hw'.
Qed.

End Release.

(** Witness of [lock_released_after_run]: a batch of two with one failing
    item, and a YAML document. *)
Lemma lock_released_after_run_witness :
  (exists b w',
     Workflow.startURLWorkflow reader_fails_for_a demo_settings me 2
       (idle (after_adds two_urls Waitlist.empty)) = (Ret b, w')
     /\ released w')
  /\ (exists b w',
        Workflow.startYAMLWorkflow reader_fails_for_a demo_settings me (lit "title: Site B")
          (idle (after_adds two_urls Waitlist.empty)) = (Ret b, w')
        /\ released w').
Proof.
  destruct (lock_released_after_run reader_fails_for_a demo_settings me 2
              (lit "title: Site B") (idle (after_adds two_urls Waitlist.empty)) eq_refl)
    as [H1 H2].
  split; [apply H1; vm_compute; lia | exact H2].
Defined.

(** ** The result of a batch *)

(** C1, at the input where the code departs from it.  Two addresses wait;
    the reader answers 401 for the first.  The failure is caught and the
    second address is processed, and the list is empty afterwards; but the
    call returns true and announces that every bookmark was created. *)
Theorem batch_returns_true_despite_failure :
  let r := Workflow.startURLWorkflow reader_fails_for_a demo_settings me 2
             (idle (after_adds two_urls Waitlist.empty)) in
  fst r = Ret true
  /\ waitlist (queue (snd r)) = []
  /\ notices (snd r)
     = [ lit "书签创建失败: AI书签生成失败: Jina AI 读取器: API密钥无效或已过期";
         lit "书签创建成功！";
         lit "所有书签创建完成！" ]
  /\ createdNotes (snd r) !! Workflow.instanceId me = Some [lit "Bookmarks/Site B.md"].
Proof. vm_compute. repeat split. Qed.

(** ** The lock *)

Section Lock.

Context (host : Host) (settings : BookmarkCreatorSettings).

(** C3.  While the lock is held, [startURLWorkflow] and [startYAMLWorkflow]
    return false at once; all they do is show the notice: the holder of the
    lock, the cancellation flags and the waiting list with every step
    status stay as they were.  And nothing that a run does between taking
    the lock and its [finally] block changes the lock or its holder, so
    that every start attempted in the meantime is refused. *)
Theorem start_refused_while_running
        (this : Workflow.BookmarkWorkflow) (fuel : nat) (yamlContent : js_string) (w : World) :
  (isWorkflowRunning w = true ->
   let w' := set_effects (effects w ++ [Workflow.busy_notice (runningInstanceId w)]) w in
   Workflow.startURLWorkflow host settings this fuel w = (Ret false, w')
   /\ Workflow.startYAMLWorkflow host settings this yamlContent w = (Ret false, w')
   /\ isWorkflowRunning w' = true
   /\ runningInstanceId w' = runningInstanceId w
   /\ isCancellationRequested w' = isCancellationRequested w
   /\ cancellingInstanceId w' = cancellingInstanceId w
   /\ queue w' = queue w)
  /\ ((List.length (waitlist (queue w)) <= fuel)%nat ->
      same_lock w (snd (Workflow.url_run host settings this fuel w)))
  /\ same_lock w (snd (Workflow.yaml_run host settings this yamlContent w)).
Proof.
  split; [|split].
  - intros Hrun w'.
    unfold Workflow.startURLWorkflow, Workflow.startYAMLWorkflow, bind, gets, perform,
      modify, ret.
    cbn [fst snd]. rewrite Hrun. repeat split. exact Hrun.
  - intros Hfuel. apply (url_run_ends host settings this fuel w Hfuel).
  - apply steady_same_lock, (steady_yaml_run host settings this yamlContent w).
Qed.

End Lock.

(** Witness of [start_refused_while_running]: a second instance tries to
    start while [me] holds the lock. *)
Lemma start_refused_while_running_witness :
  let w := set_lock true (Some (Workflow.instanceId me))
             (idle (after_adds two_urls Waitlist.empty)) in
  let w' := set_effects (effects w ++ [Workflow.busy_notice (runningInstanceId w)]) w in
  Workflow.startURLWorkflow demo_host demo_settings
    {| Workflow.instanceId := lit "other" |} 2 w = (Ret false, w')
  /\ Workflow.startYAMLWorkflow demo_host demo_settings
       {| Workflow.instanceId := lit "other" |} (lit "title: Site B") w = (Ret false, w')
  /\ isWorkflowRunning w' = true
  /\ runningInstanceId w' = runningInstanceId w
  /\ isCancellationRequested w' = isCancellationRequested w
  /\ cancellingInstanceId w' = cancellingInstanceId w
  /\ queue w' = queue w.
Proof.
  exact (proj1 (start_refused_while_running demo_host demo_settings
                  {| Workflow.instanceId := lit "other" |} 2 (lit "title: Site B")
                  (set_lock true (Some (Workflow.instanceId me))
                     (idle (after_adds two_urls Waitlist.empty))))
               eq_refl).
Defined.

(** * Further properties *)

(** ** The waiting list, operation by operation *)

Section WaitlistMore.

Lemma quiet_listeners ev q q' : listeners q' = listeners q -> quiet ev q -> quiet ev q'.
Proof. unfold quiet. intros -> H. exact H. Qed.

Lemma remove_outcome q :
  remove q
  = match waitlist q with
    | [] => (Ret None, q)
    | item :: rest =>
      (match deliver (listeners q EvRemove) (RemoveData item (List.length rest)) with
       | Ret _ => Ret (Some item)
       | Throw e => Throw e
       | OutOfFuel => OutOfFuel
       end,
       record_emit EvRemove (RemoveData item (List.length rest)) (set_waitlist rest q))
    end.
Proof.
  unfold remove, bind, gets, modify, emit, ret. cbn [fst snd].
  destruct (waitlist q) as [|item rest]; [reflexivity|].
  cbn [listeners set_waitlist]. destruct (deliver _ _); reflexivity.
Qed.

Lemma remove_listeners q : listeners (snd (remove q)) = listeners q.
Proof. rewrite remove_outcome. destruct (waitlist q); reflexivity. Qed.

Lemma remove_waitlist q : waitlist (snd (remove q)) = List.tl (waitlist q).
Proof.
  rewrite remove_outcome. destruct (waitlist q) eqn:E; cbn [snd]; [exact E | reflexivity].
Qed.

Lemma removes_quiet k : forall q,
  quiet EvRemove q ->
  fst (removes k q)
  = map (fun i => Ret (Some i)) (firstn k (waitlist q))
    ++ repeat (Ret None) (k - List.length (waitlist q))
  /\ waitlist (snd (removes k q)) = skipn k (waitlist q)
  /\ listeners (snd (removes k q)) = listeners q.
Proof.
  induction k as [|k IH]; intros q Hq; [repeat split|].
  cbn [removes].
  pose proof (remove_listeners q) as Hl. pose proof (remove_waitlist q) as Hw.
  assert (Hr : fst (remove q) = match waitlist q with
                                | [] => Ret None
                                | item :: _ => Ret (Some item)
                                end).
  { rewrite remove_outcome. destruct (waitlist q) as [|item rest]; [reflexivity|].
    cbn [fst]. rewrite (Hq _). reflexivity. }
  destruct (remove q) as [r q1]. cbn [fst snd] in *.
  destruct (IH q1 (quiet_listeners _ _ _ Hl Hq)) as (H1 & H2 & H3).
  destruct (removes k q1) as [rs q2]. cbn [fst snd] in *.
  subst r rs. rewrite H2, H3, Hl, Hw.
  destruct (waitlist q) as [|item rest]; cbn [List.tl firstn skipn map List.length app].
  - rewrite firstn_nil, skipn_nil, Nat.sub_0_r. repeat split.
  - repeat split.
Qed.

(** X1.  First in, first out.  After any sequence of calls of [add] on an
    empty list, as many calls of [remove] return the added items in the
    order of their addition and leave the list empty; one more [remove]
    returns null and changes nothing (no listener of [remove] throwing). *)
Theorem items_leave_in_order (adds : list (js_string * ProcessType)) (q0 : WaitlistManager) :
  waitlist q0 = [] ->
  quiet EvRemove q0 ->
  let q := after_adds adds q0 in
  let q' := snd (removes (List.length adds) q) in
  fst (removes (List.length adds) q) = map (fun i => Ret (Some i)) (added adds)
  /\ waitlist q' = []
  /\ remove q' = (Ret None, q').
Proof.
  intros H0 Hq q q'.
  assert (Hw : waitlist q = added adds).
  { unfold q. rewrite after_adds_waitlist, H0. reflexivity. }
  assert (Hlen : List.length (added adds) = List.length adds)
    by (unfold added; apply length_map).
  destruct (removes_quiet (List.length adds) q) as (H1 & H2 & _).
  { eapply quiet_listeners; [apply after_adds_listeners | exact Hq]. }
  assert (Hq' : waitlist q' = []).
  { unfold q'. rewrite H2, Hw, <- Hlen. apply skipn_all. }
  split; [|split].
  - rewrite H1, Hw, <- Hlen, firstn_all, Nat.sub_diag. apply app_nil_r.
  - exact Hq'.
  - rewrite remove_outcome, Hq'. reflexivity.
Qed.

Lemma initial_status_from (steps : list Step) (k : js_string) :
  forall acc : gmap js_string StepStatus,
    fold_left (fun st s => <[name s := {| step := name s; state := pending |}]> st) steps acc
    !! k
    = if bool_decide (k ∈ map name steps)
      then Some {| step := k; state := pending |}
      else acc !! k.
Proof.
  induction steps as [|s r IH]; intros acc; [reflexivity|].
  cbn [fold_left map]. rewrite IH.
  destruct (bool_decide (k ∈ map name r)) eqn:Er.
  - apply bool_decide_eq_true in Er.
    rewrite bool_decide_eq_true_2 by (right; exact Er). reflexivity.
  - apply bool_decide_eq_false in Er.
    destruct (decide (name s = k)) as [E|E].
    + rewrite bool_decide_eq_true_2 by (subst k; left).
      subst k. apply lookup_insert_eq.
    + rewrite bool_decide_eq_false_2
        by (intros Hin; apply elem_of_cons in Hin; destruct Hin; [congruence | contradiction]).
      apply lookup_insert_ne, E.
Qed.

(** What [add] comes to when no listener of [add] throws. *)
Lemma add_enqueues_first u (q : WaitlistManager) :
  quiet EvAdd q ->
  fst (add u ProcessFull q) = Ret (S (List.length (waitlist q)))
  /\ waitlist (snd (add u ProcessFull q)) = waitlist q ++ [new_item u ProcessFull]
  /\ listeners (snd (add u ProcessFull q)) = listeners q.
Proof.
  intros Hq. rewrite add_state. split; [|split; reflexivity].
  unfold add, bind, modify, gets, emit, ret. cbn [fst snd waitlist set_waitlist listeners].
  rewrite (Hq _). cbn [fst snd waitlist record_emit set_waitlist].
  rewrite length_app, Nat.add_1_r. reflexivity.
Qed.

(** X2.  [add] puts a new item at the end of the list, whether or not a
    listener of [add] throws; what it returns is the new length, and the
    only exception it can end in is one of a listener.  The status of the
    new item has an entry for each step of the processing type and for
    nothing else, and every entry is pending. *)
Theorem add_enqueues_pending (u : js_string) (type : ProcessType) (q : WaitlistManager) :
  waitlist (snd (add u type q)) = waitlist q ++ [new_item u type]
  /\ fst (add u type q)
     = match deliver (listeners q EvAdd)
               (AddData u type (new_item u type) (S (List.length (waitlist q)))) with
       | Ret _ => Ret (S (List.length (waitlist q)))
       | Throw e => Throw e
       | OutOfFuel => OutOfFuel
       end
  /\ url (new_item u type) = u
  /\ forall k,
       status (new_item u type) !! k
       = if bool_decide (k ∈ map name (steps_of type))
         then Some {| step := k; state := pending |}
         else None.
Proof.
  split; [|split; [|split]].
  - rewrite add_state. reflexivity.
  - unfold add, bind, modify, gets, emit, ret. cbn [fst snd waitlist set_waitlist listeners].
    rewrite length_app, Nat.add_1_r.
    destruct (deliver _ _); cbn [fst snd waitlist record_emit set_waitlist];
      rewrite ?length_app, ?Nat.add_1_r; reflexivity.
  - reflexivity.
  - intros k. unfold new_item, initial_status, steps_of. cbn [status].
    destruct type; rewrite initial_status_from; rewrite lookup_empty; reflexivity.
Qed.

Lemma update_waitlist_congr s st n q1 q2 :
  waitlist q1 = waitlist q2 ->
  waitlist (snd (update s st n q1)) = waitlist (snd (update s st n q2)).
Proof.
  intros H.
  destruct (at_index (waitlist q1) n) as [item|] eqn:Hi.
  - destruct (status item !! s) as [x|] eqn:Hs.
    + rewrite (update_hit _ _ _ q1 _ _ Hi Hs).
      rewrite H in Hi. rewrite (update_hit _ _ _ q2 _ _ Hi Hs).
      cbn [snd waitlist record_emit set_waitlist]. rewrite H. reflexivity.
    + rewrite (update_noop s st n q1) by eauto.
      rewrite H in Hi. rewrite (update_noop s st n q2) by eauto. exact H.
  - rewrite (update_noop s st n q1) by eauto.
    rewrite H in Hi. rewrite (update_noop s st n q2) by eauto. exact H.
Qed.

Lemma update_listeners s st n q : listeners (snd (update s st n q)) = listeners q.
Proof.
  destruct (at_index (waitlist q) n) as [item|] eqn:Hi.
  - destruct (status item !! s) as [x|] eqn:Hs.
    + rewrite (update_hit _ _ _ _ _ _ Hi Hs). reflexivity.
    + rewrite update_noop by eauto. reflexivity.
  - rewrite update_noop by eauto. reflexivity.
Qed.

(** X3.  What the five operations do to the list does not depend on who
    listens: on two managers that hold the same items, [add], [remove],
    [update] and [clear] leave the same items behind, whether their
    listeners return or throw; [read] leaves the items as they are; and
    none of the five changes the subscriptions. *)
Theorem list_changes_ignore_listeners (q1 q2 : WaitlistManager) :
  waitlist q1 = waitlist q2 ->
  (forall u type, waitlist (snd (add u type q1)) = waitlist (snd (add u type q2)))
  /\ waitlist (snd (remove q1)) = waitlist (snd (remove q2))
  /\ (forall s st n, waitlist (snd (update s st n q1)) = waitlist (snd (update s st n q2)))
  /\ waitlist (snd (clear q1)) = waitlist (snd (clear q2))
  /\ (forall n, waitlist (snd (read n q1)) = waitlist q1)
  /\ (forall u type, listeners (snd (add u type q1)) = listeners q1)
  /\ listeners (snd (remove q1)) = listeners q1
  /\ (forall s st n, listeners (snd (update s st n q1)) = listeners q1)
  /\ listeners (snd (clear q1)) = listeners q1
  /\ (forall n, listeners (snd (read n q1)) = listeners q1).
Proof.
  intros H. repeat split.
  - intros u type. rewrite !add_state. cbn [waitlist record_emit set_waitlist].
    rewrite H. reflexivity.
  - rewrite !remove_waitlist, H. reflexivity.
  - intros s st n. apply update_waitlist_congr, H.
  - intros n. apply read_waitlist.
  - intros u type. rewrite add_state. reflexivity.
  - apply remove_listeners.
  - intros s st n. apply update_listeners.
  - intros n. rewrite read_outcome. reflexivity.
Qed.

Lemma existsb_identity (l : EventListener) ls :
  existsb (fun l' => Nat.eqb (identity l') (identity l)) ls = true
  <-> exists l', In l' ls /\ identity l' = identity l.
Proof.
  rewrite existsb_exists. split; intros (l' & Hin & E); exists l'; split; auto.
  - apply Nat.eqb_eq, E.
  - apply Nat.eqb_eq, E.
Qed.

Lemma filter_other_identities (l : EventListener) ls :
  (forall l', In l' ls -> identity l' <> identity l) ->
  filter (fun l' => identity l' ≠ identity l) ls = ls.
Proof.
  induction ls as [|x r IH]; intros H; [reflexivity|].
  rewrite filter_cons. destruct (decide (identity x ≠ identity l)) as [E|E].
  - f_equal. apply IH. intros l' Hin. apply H. right. exact Hin.
  - exfalso. apply E, H. left. reflexivity.
Qed.

(** X4.  Subscriptions.  A listener is held once per event type, so that
    subscribing it again changes nothing; subscribing and unsubscribing
    leave the other event types, the items and the record of events alone;
    after [unsubscribe] the listener is no longer subscribed; and
    unsubscribing a listener that was subscribed just before, and not
    earlier, gives back the subscriptions there were. *)
Theorem subscribe_unsubscribe_laws (ev : EventType) (l : EventListener) (q : WaitlistManager) :
  snd (subscribe ev l (snd (subscribe ev l q))) = snd (subscribe ev l q)
  /\ (exists l', In l' (listeners (snd (subscribe ev l q)) ev) /\ identity l' = identity l)
  /\ (forall l', In l' (listeners (snd (unsubscribe ev l q)) ev) -> identity l' <> identity l)
  /\ (forall ev', ev' <> ev ->
        listeners (snd (subscribe ev l q)) ev' = listeners q ev'
        /\ listeners (snd (unsubscribe ev l q)) ev' = listeners q ev')
  /\ waitlist (snd (subscribe ev l q)) = waitlist q
  /\ waitlist (snd (unsubscribe ev l q)) = waitlist q
  /\ emitted (snd (subscribe ev l q)) = emitted q
  /\ emitted (snd (unsubscribe ev l q)) = emitted q
  /\ ((forall l', In l' (listeners q ev) -> identity l' <> identity l) ->
      forall ev',
        listeners (snd (unsubscribe ev l (snd (subscribe ev l q)))) ev' = listeners q ev').
Proof.
  assert (Hsub : forall q0,
            listeners (snd (subscribe ev l q0)) ev
            = if existsb (fun l' => Nat.eqb (identity l') (identity l)) (listeners q0 ev)
              then listeners q0 ev else listeners q0 ev ++ [l]).
  { intros q0. unfold subscribe, modify. cbn [snd].
    destruct (existsb _ _); [reflexivity|].
    cbn [listeners set_listeners]. rewrite decide_True by reflexivity. reflexivity. }
  assert (Hin : exists l', In l' (listeners (snd (subscribe ev l q)) ev)
                           /\ identity l' = identity l).
  { rewrite Hsub. destruct (existsb _ _) eqn:E.
    - apply existsb_identity, E.
    - exists l. split; [apply in_or_app; right; left|]; reflexivity. }
  repeat split.
  - unfold subscribe at 1, modify. cbn [snd].
    rewrite (proj2 (existsb_identity l _) Hin). reflexivity.
  - exact Hin.
  - intros l'. unfold unsubscribe, modify. cbn [snd listeners set_listeners].
    rewrite decide_True by reflexivity.
    intros Hl'. apply list_elem_of_In, list_elem_of_filter in Hl'. apply Hl'.
  - unfold subscribe, modify. cbn [snd]. destruct (existsb _ _); [reflexivity|].
    cbn [listeners set_listeners]. rewrite decide_False by assumption. reflexivity.
  - unfold unsubscribe, modify. cbn [snd listeners set_listeners].
    rewrite decide_False by assumption. reflexivity.
  - apply subscribe_waitlist.
  - unfold subscribe, modify. cbn [snd]. destruct (existsb _ _); reflexivity.
  - intros Hfresh ev'.
    unfold unsubscribe, modify. cbn [snd listeners set_listeners].
    destruct (decide (ev' = ev)) as [->|Hne].
    + rewrite Hsub.
      destruct (existsb _ _) eqn:E.
      * apply existsb_identity in E. destruct E as (l' & Hl' & E).
        exfalso. eapply Hfresh; eassumption.
      * rewrite filter_app, (filter_other_identities l _ Hfresh).
        rewrite filter_cons, decide_False by (intros Hc; apply Hc; reflexivity).
        rewrite filter_nil. apply app_nil_r.
    + unfold subscribe, modify. cbn [snd]. destruct (existsb _ _); [reflexivity|].
      cbn [listeners set_listeners]. rewrite decide_False by assumption. reflexivity.
Qed.

End WaitlistMore.

(** Witness of [items_leave_in_order]: two additions, two removals. *)
Lemma items_leave_in_order_witness :
  let q := after_adds two_urls Waitlist.empty in
  let q' := snd (removes (List.length two_urls) q) in
  fst (removes (List.length two_urls) q) = map (fun i => Ret (Some i)) (added two_urls)
  /\ waitlist q' = []
  /\ remove q' = (Ret None, q').
Proof.
  exact (items_leave_in_order two_urls Waitlist.empty eq_refl (fun d => eq_refl)).
Defined.

(** Witness of [list_changes_ignore_listeners]: the same two items, once
    with a listener of [remove] that throws and once without listeners. *)
Lemma list_changes_ignore_listeners_witness :
  waitlist (snd (remove (snd (subscribe EvRemove angry (after_adds two_urls Waitlist.empty)))))
  = waitlist (snd (remove (after_adds two_urls Waitlist.empty))).
Proof.
  apply (list_changes_ignore_listeners
           (snd (subscribe EvRemove angry (after_adds two_urls Waitlist.empty)))
           (after_adds two_urls Waitlist.empty)).
  vm_compute. reflexivity.
Defined.

(** Witness of [subscribe_unsubscribe_laws]: a first subscription to an
    empty manager, taken back. *)
Lemma subscribe_unsubscribe_laws_witness :
  listeners (snd (unsubscribe EvUpdate angry (snd (subscribe EvUpdate angry Waitlist.empty))))
            EvUpdate
  = listeners Waitlist.empty EvUpdate
  /\ listeners (snd (unsubscribe EvUpdate angry (snd (subscribe EvUpdate angry Waitlist.empty))))
               EvRead
     = listeners Waitlist.empty EvRead.
Proof.
  split;
    apply (proj2 (proj2 (proj2 (proj2 (proj2 (proj2 (proj2 (proj2
             (subscribe_unsubscribe_laws EvUpdate angry Waitlist.empty)))))))));
    intros l' [].
Defined.

(** ** Outcomes, by the structure of the computation *)

Section Ensures.

Context {A B : Type}.

Lemma returns_ret (P : A -> World -> Prop) a :
  (forall w, P a w) -> ensures (on_return P) (ret a).
Proof. intros H w. apply H. Qed.

Lemma returns_throw (P : A -> World -> Prop) e : ensures (on_return P) (throw e).
Proof. intros w. exact I. Qed.


(** What the last computation of a sequence returns is what the sequence
    returns. *)
Lemma returns_bind_tail (P : B -> World -> Prop) (m : M World A) (k : A -> M World B) :
  (forall a, ensures (on_return P) (k a)) -> ensures (on_return P) (bind m k).
Proof.
  intros Hk w. unfold bind. destruct (m w) as [[a|e|] w1]; [apply Hk | exact I | exact I].
Qed.

Lemma returns_bind (R : A -> World -> Prop) (P : B -> World -> Prop)
      (m : M World A) (k : A -> M World B) :
  ensures (on_return R) m ->
  (forall a w, R a w -> on_return P (fst (k a w)) (snd (k a w))) ->
  ensures (on_return P) (bind m k).
Proof.
  intros Hm Hk w. unfold bind. specialize (Hm w).
  destruct (m w) as [[a|e|] w1]; [apply Hk, Hm | exact I | exact I].
Qed.

Lemma returns_bind_pure (R : A -> Prop) (P : B -> World -> Prop)
      (m : M World A) (k : A -> M World B) :
  ensures (on_return (fun a _ => R a)) m ->
  (forall a, R a -> ensures (on_return P) (k a)) ->
  ensures (on_return P) (bind m k).
Proof.
  intros Hm Hk. apply (returns_bind (fun a _ => R a)); [exact Hm|].
  intros a w Ha. apply (Hk a Ha w).
Qed.

Lemma returns_try_catch (P : A -> World -> Prop) (m : M World A) h :
  ensures (on_return P) m -> (forall e, ensures (on_return P) (h e)) ->
  ensures (on_return P) (try_catch m h).
Proof.
  intros Hm Hh w. unfold try_catch. specialize (Hm w).
  destruct (m w) as [[a|e|] w1]; [exact Hm | apply Hh | exact I].
Qed.

Lemma throws_ret (P : exn -> World -> Prop) (a : A) : ensures (on_throw P) (ret a).
Proof. intros w. exact I. Qed.

Lemma throws_throw (P : exn -> World -> Prop) e :
  (forall w, P e w) -> ensures (@on_throw A P) (throw e).
Proof. intros H w. apply H. Qed.

Lemma throws_bind (P : exn -> World -> Prop) (m : M World A) (k : A -> M World B) :
  ensures (on_throw P) m -> (forall a, ensures (on_throw P) (k a)) ->
  ensures (on_throw P) (bind m k).
Proof.
  intros Hm Hk w. unfold bind. specialize (Hm w).
  destruct (m w) as [[a|e|] w1]; [apply Hk | exact Hm | exact I].
Qed.

(** What a guarded block throws is what its handler throws. *)
Lemma throws_try_catch (P : exn -> World -> Prop) (m : M World A) h :
  (forall e, ensures (on_throw P) (h e)) -> ensures (on_throw P) (try_catch m h).
Proof.
  intros Hh w. unfold try_catch.
  destruct (m w) as [[a|e|] w1]; [exact I | apply Hh | exact I].
Qed.

Lemma throws_perform (P : exn -> World -> Prop) e : ensures (on_throw P) (perform e).
Proof. intros w. exact I. Qed.

Lemma ensures_returned (P : A -> World -> Prop) (m : M World A) w a :
  ensures (on_return P) m -> fst (m w) = Ret a -> P a (snd (m w)).
Proof. intros H E. specialize (H w). rewrite E in H. exact H. Qed.

Lemma ensures_thrown (P : exn -> World -> Prop) (m : M World A) w e :
  ensures (on_throw P) m -> fst (m w) = Throw e -> P e (snd (m w)).
Proof. intros H E. specialize (H w). rewrite E in H. exact H. Qed.

End Ensures.

(** A computation is taken apart down to the places where it returns. *)
Ltac returning :=
  repeat first
    [ progress intros
    | apply returns_throw
    | apply returns_bind_tail
    | apply returns_try_catch
    | match goal with
      | |- ensures (on_return _) (match ?x with _ => _ end) => destruct x eqn:?
      | |- ensures (on_return _) (let _ := _ in _) => cbv zeta
      end ].

(** A handler is taken apart down to the places where it throws. *)
Ltac throwing :=
  repeat first
    [ progress intros
    | apply throws_ret
    | apply throws_perform
    | apply throws_bind
    | match goal with
      | |- ensures (on_throw _) (match ?x with _ => _ end) => destruct x eqn:?
      | |- ensures (on_throw _) (let _ := _ in _) => cbv zeta
      end ].

(** ** The service caller and the older service class *)

Section Services.

Context (host : Host) (settings : BookmarkCreatorSettings).

Lemma validate_state u type w :
  snd (ApiCaller.validate host settings u type w) = w.
Proof.
  unfold ApiCaller.validate.
  destruct type; destruct (is_empty _); try reflexivity;
    destruct (url_hostname host _); reflexivity.
Qed.

(** X5.  The exceptions of [callApi].  Either a check that precedes the
    request failed (the key is missing or an address does not parse): then
    nothing has happened, no request and no output; or the exception is an
    [Error] whose message begins with the words that announce a failed
    generation, whatever was thrown in between, be it not an error object
    at all. *)
Theorem callApi_failures (u : js_string) (type : ApiCaller.AiServiceType)
        (siteInfo : option ApiCaller.siteInfoObj) (w : World) (e : exn) :
  fst (ApiCaller.callApi host settings u type siteInfo w) = Throw e ->
  (In e [ Error (lit "Jina AI API密钥未设置"); Error (lit "无效的网址格式");
          Error (lit "AI API密钥未设置"); Error (lit "AI API基础URL格式无效") ]
   /\ snd (ApiCaller.callApi host settings u type siteInfo w) = w)
  \/ (exists message, e = Error (lit "AI书签生成失败: " ++ message)).
Proof.
  unfold ApiCaller.callApi. intros H.
  pose proof (validate_state u type w) as Hs.
  unfold bind at 1 in H. unfold bind at 1.
  destruct (ApiCaller.validate host settings u type w) as [[[]|e0|] w0] eqn:Ev;
    cbn [fst snd] in *; subst w0.
  - right. cbv zeta in H. rewrite fst_try_catch in H.
    match type of H with
    | match fst ?b with _ => _ end = _ => destruct b as [[c|e1|] w1]
    end; cbn [fst snd] in H; try discriminate.
    rewrite fst_bind in H. cbn [fst snd perform modify] in H.
    destruct e1; cbn in H; injection H as <-; eauto.
  - left. injection H as ->. split; [|reflexivity].
    unfold ApiCaller.validate in Ev. cbn [In].
    destruct type.
    + destruct (is_empty (jinaApiKey settings)); [injection Ev as <-; left; reflexivity|].
      destruct (url_hostname host u); [discriminate|].
      injection Ev as <-. right; left. reflexivity.
    + destruct (is_empty (jinaApiKey settings)); [injection Ev as <-; left; reflexivity|].
      destruct (url_hostname host u); [discriminate|].
      injection Ev as <-. right; left. reflexivity.
    + destruct (is_empty (aiApiKey settings));
        [injection Ev as <-; right; right; left; reflexivity|].
      destruct (url_hostname host (aiApiBaseUrl settings)); [discriminate|].
      injection Ev as <-. right; right; right; left. reflexivity.
  - discriminate.
Qed.

(** X6.  [extractWebContent] returns only text that is not blank: empty
    content and content of white space alone end in an exception, as does
    content that is not a string.  And whatever goes wrong, what it throws
    is an [Error]. *)
Theorem extractWebContent_contract (u : js_string) (w : World) :
  (forall c, fst (AiServiceReader.extractWebContent host settings u w) = Ret c ->
             is_empty (trim c) = false)
  /\ (forall e, fst (AiServiceReader.extractWebContent host settings u w) = Throw e ->
                exists message, e = Error message).
Proof.
  split.
  - assert (H : ensures (on_return (fun c _ => is_empty (trim c) = false))
                        (AiServiceReader.extractWebContent host settings u)).
    { unfold AiServiceReader.extractWebContent, AiServiceReader.extracted_content,
        AiServiceReader.extraction_failed.
      returning. apply returns_ret. intros _.
      match goal with
      | E : _ || _ = false |- _ => apply orb_false_iff in E; apply E
      end. }
    intros c Hc. exact (ensures_returned _ _ _ _ H Hc).
  - assert (H : ensures (on_throw (fun e _ => exists message, e = Error message))
                        (AiServiceReader.extractWebContent host settings u)).
    { unfold AiServiceReader.extractWebContent, AiServiceReader.extraction_failed.
      destruct (is_empty _); [apply throws_throw; eauto|].
      destruct (url_hostname host u); [|apply throws_throw; eauto].
      apply throws_try_catch. throwing; apply throws_throw; eauto. }
    intros e He. exact (ensures_thrown _ _ _ _ H He).
Qed.

(** X7.  The older [generateBookmarkYaml] returns only text that holds
    both markers, [title:] and [url:]; and whatever goes wrong, what it
    throws is an [Error]. *)
Theorem generated_yaml_has_both_fields (u webContent searchInfo : js_string) (w : World) :
  (forall y, fst (AiService.generateBookmarkYaml host settings u webContent searchInfo w) = Ret y ->
             includes (lit "title:") y = true /\ includes (lit "url:") y = true)
  /\ (forall e, fst (AiService.generateBookmarkYaml host settings u webContent searchInfo w)
                = Throw e ->
                exists message, e = Error message).
Proof.
  split.
  - assert (H : ensures (on_return (fun y _ => includes (lit "title:") y = true
                                               /\ includes (lit "url:") y = true))
                        (AiService.generateBookmarkYaml host settings u webContent searchInfo)).
    { unfold AiService.generateBookmarkYaml, AiService.generated_yaml,
        AiService.generation_failed.
      returning. apply returns_ret. intros _.
      match goal with
      | E : negb _ || negb _ = false |- _ =>
        apply orb_false_iff in E; destruct E as [E1 E2];
        apply negb_false_iff in E1; apply negb_false_iff in E2; split; assumption
      end. }
    intros y Hy. exact (ensures_returned _ _ _ _ H Hy).
  - assert (H : ensures (on_throw (fun e _ => exists message, e = Error message))
                        (AiService.generateBookmarkYaml host settings u webContent searchInfo)).
    { unfold AiService.generateBookmarkYaml, AiService.generation_failed.
      destruct (is_empty _); [apply throws_throw; eauto|].
      destruct (url_hostname host _); [|apply throws_throw; eauto].
      cbv zeta. apply throws_try_catch. throwing; apply throws_throw; eauto. }
    intros e He. exact (ensures_thrown _ _ _ _ H He).
Qed.

End Services.

(** ** Paths *)

(** A code unit is a number and a string is a list of numbers; rewriting
    with an equation wants both sides to say so in the same words. *)
Ltac rew E :=
  let H := fresh in
  pose proof E as H; cbv zeta in H;
  unfold js_string in H |- *; unfold char in H |- *; rewrite H; clear H.

Section Paths.

Import FileManager.

Lemma split_on_nonempty (c : N) (s : list N) : split_on c s <> [].
Proof.
  destruct s as [|x r]; cbn [split_on]; [discriminate|].
  destruct (x =? c); [discriminate|]. destruct (split_on c r); discriminate.
Qed.

(** A string without the separator is one part. *)
Lemma split_on_without (c : N) (s : list N) :
  Forall (fun x => x <> c) s -> split_on c s = [s].
Proof.
  induction 1 as [|x r Hx _ IH]; [reflexivity|].
  cbn [split_on]. rewrite (proj2 (N.eqb_neq x c) Hx), IH. reflexivity.
Qed.

Lemma join_cons (sep x : list N) (l : list (list N)) :
  l <> [] -> join sep (x :: l) = x ++ sep ++ join sep l.
Proof. destruct l; [congruence | reflexivity]. Qed.

(** Cutting at the separators and joining with the separator gives the
    string back. *)
Lemma join_split_on (c : N) (s : list N) : join [c] (split_on c s) = s.
Proof.
  induction s as [|x r IH]; [reflexivity|].
  cbn [split_on]. pose proof (split_on_nonempty c r) as Hn.
  destruct (N.eqb_spec x c) as [->|Hne].
  - rewrite join_cons by exact Hn. rewrite IH. reflexivity.
  - destruct (split_on c r) as [|seg segs] eqn:E; [congruence|].
    destruct segs as [|seg' segs']; [cbn [join] in *; rewrite IH; reflexivity|].
    rewrite join_cons by discriminate. rewrite join_cons in IH by discriminate.
    rewrite <- IH. reflexivity.
Qed.

(** The part after the last separator. *)
Lemma split_on_snoc (c : N) (a b : list N) :
  Forall (fun x => x <> c) b -> split_on c (a ++ c :: b) = split_on c a ++ [b].
Proof.
  intros Hb. induction a as [|x r IH]; cbn [app split_on].
  - rewrite N.eqb_refl, (split_on_without c b Hb). reflexivity.
  - rewrite IH. destruct (x =? c); [reflexivity|].
    pose proof (split_on_nonempty c r) as Hn.
    destruct (split_on c r) as [|seg segs] eqn:E; [congruence | reflexivity].
Qed.

Lemma last_snoc {T} (l : list T) x d : List.last (l ++ [x]) d = x.
Proof. apply last_last. Qed.

Lemma snoc_longer {T} (l : list T) x : l <> [] -> Nat.ltb 1 (List.length (l ++ [x])) = true.
Proof.
  intros H. apply Nat.ltb_lt. rewrite length_app. cbn.
  destruct l; [congruence | cbn; lia].
Qed.

Lemma lit_slash : lit "/" = [47].
Proof. reflexivity. Qed.

Lemma lit_dot : lit "." = [46].
Proof. reflexivity. Qed.

Lemma is_empty_app_false (a b : list N) : is_empty a = false -> is_empty (a ++ b) = false.
Proof. destruct a; [discriminate | reflexivity]. Qed.

(** The new name [ensureFileCanBeCreated] computes for a path, a part
    after the last slash and a time stamp. *)
Lemma renamed_path (dir fileName : list N) :
  Forall (fun x => x <> 47) fileName ->
  let pathParts := split_on 47 (dir ++ 47 :: fileName) in
  List.last pathParts [] = fileName
  /\ join (lit "/") (removelast pathParts) = dir.
Proof.
  intros Hf pathParts. unfold pathParts. rew (split_on_snoc 47 dir fileName Hf).
  split; [apply last_snoc|].
  rewrite removelast_last, lit_slash. apply join_split_on.
Qed.

End Paths.

(** ** Files *)

Section Files.

Import FileManager.

Context (host : Host) (settings : BookmarkCreatorSettings).

Lemma ensureFileCanBeCreated_free filePath w :
  getAbstractFileByPath host (tick w) filePath = false ->
  ensureFileCanBeCreated host filePath w = (Ret filePath, w).
Proof.
  intros Hfree. unfold ensureFileCanBeCreated, bind, now, gets, ret. cbn [fst snd].
  rewrite Hfree. reflexivity.
Qed.

Lemma ensureFileCanBeCreated_taken (dir fileName : list N) w :
  getAbstractFileByPath host (tick w) (dir ++ lit "/" ++ fileName) = true ->
  is_empty dir = false ->
  Forall (fun x => x <> 47) fileName ->
  ensureFileCanBeCreated host (dir ++ lit "/" ++ fileName) w
  = (Ret (dir ++ lit "/"
          ++ stamped fileName (slice_last 6 (decimal (getTime host (tick w))))), w).
Proof.
  intros Hex Hdir Hf.
  unfold ensureFileCanBeCreated, stamped, bind, now, gets, ret. cbn [fst snd]. rewrite Hex.
  cbn [negb]. cbv zeta. rewrite lit_slash. cbn [app].
  destruct (renamed_path dir fileName Hf) as [Hl Hj]. rewrite lit_slash in Hj.
  rew Hl. rew Hj. rewrite Hdir. reflexivity.
Qed.

Lemma stamped_extension (base ext stamp : list N) :
  Forall (fun x => x <> 46) ext ->
  stamped (base ++ lit "." ++ ext) stamp = base ++ lit "_" ++ stamp ++ lit "." ++ ext.
Proof.
  intros Hd. unfold stamped. cbv zeta. rewrite lit_dot. cbn [app].
  rew (split_on_snoc 46 base ext Hd).
  rew (snoc_longer (split_on 46 base) ext (split_on_nonempty 46 base)).
  rew (removelast_last (split_on 46 base) ext). rew (last_snoc (split_on 46 base) ext []).
  rew (join_split_on 46 base). reflexivity.
Qed.

Lemma stamped_plain (fileName stamp : list N) :
  Forall (fun x => x <> 46) fileName ->
  stamped fileName stamp = fileName ++ lit "_" ++ stamp ++ lit ".".
Proof.
  intros Hd. unfold stamped. cbv zeta.
  rew (split_on_without 46 fileName Hd). cbn [List.length Nat.ltb Nat.leb join].
  rewrite app_nil_r. reflexivity.
Qed.

(** X8.  [ensureFileCanBeCreated] reads the vault and the clock and
    changes nothing.  A free path is returned as it is.  A taken path
    [dir/base.ext] becomes [dir/base_stamp.ext], where the stamp is the last
    six digits of the clock in milliseconds: the path is cut at its last
    slash and the name at its last dot.  A taken name without a dot gets the
    stamp and a dot at its very end. *)
Theorem ensureFileCanBeCreated_renames (filePath : js_string) (w : World) :
  let stamp := slice_last 6 (decimal (getTime host (tick w))) in
  (getAbstractFileByPath host (tick w) filePath = false ->
   ensureFileCanBeCreated host filePath w = (Ret filePath, w))
  /\ (getAbstractFileByPath host (tick w) filePath = true ->
      forall dir base ext,
        filePath = dir ++ lit "/" ++ base ++ lit "." ++ ext ->
        is_empty dir = false ->
        Forall (fun x => x <> 47) base ->
        Forall (fun x => x <> 47) ext ->
        Forall (fun x => x <> 46) ext ->
        ensureFileCanBeCreated host filePath w
        = (Ret (dir ++ lit "/" ++ base ++ lit "_" ++ stamp ++ lit "." ++ ext), w))
  /\ (getAbstractFileByPath host (tick w) filePath = true ->
      forall dir fileName,
        filePath = dir ++ lit "/" ++ fileName ->
        is_empty dir = false ->
        Forall (fun x => x <> 47) fileName ->
        Forall (fun x => x <> 46) fileName ->
        ensureFileCanBeCreated host filePath w
        = (Ret (dir ++ lit "/" ++ fileName ++ lit "_" ++ stamp ++ lit "."), w)).
Proof.
  intros stamp. split; [|split].
  - apply ensureFileCanBeCreated_free.
  - intros Hex dir base ext -> Hdir Hb He Hd.
    rewrite ensureFileCanBeCreated_taken; [|exact Hex | exact Hdir |].
    + rewrite stamped_extension by exact Hd. reflexivity.
    + rewrite lit_dot. apply Forall_app. split; [exact Hb|].
      constructor; [discriminate | exact He].
  - intros Hex dir fileName -> Hdir Hf Hd.
    rewrite ensureFileCanBeCreated_taken; [|exact Hex | exact Hdir | exact Hf].
    rewrite stamped_plain by exact Hd. reflexivity.
Qed.

End Files.

(** ** Files written *)

Section FilesWritten.

Import FileManager FileName.

Context (host : Host) (settings : BookmarkCreatorSettings).

Lemma requestCancellation_tick w : tick (snd (requestCancellation w)) = tick w.
Proof.
  unfold requestCancellation, bind, gets, modify, perform, ret. cbn [fst snd].
  destruct (isWorkflowRunning w); [|reflexivity].
  destruct (runningInstanceId w) as [id|]; [|reflexivity].
  destruct (is_empty id); reflexivity.
Qed.

Lemma suspend_tick w : tick (snd (suspend host w)) = S (tick w).
Proof.
  unfold suspend, bind, gets, modify. cbn [fst snd].
  destruct (cancel_pressed host (tick w)); [|reflexivity].
  rewrite requestCancellation_tick. reflexivity.
Qed.

(** [await]: the host is asked at the present moment, and the plug-in
    goes on from the state the suspension left. *)
Lemma await_run {A} (f : nat -> reply A) w :
  await host f w = (settle (f (tick w)), snd (suspend host w)).
Proof.
  unfold await, bind, gets, lift_outcome. cbn [fst snd].
  pose proof (suspend_returns host w) as H.
  destruct (suspend host w) as [[[]|e|] w1]; cbn [fst snd] in *; congruence.
Qed.

Lemma await_grows {A} (f : nat -> reply A) w : grows w (snd (await host f w)).
Proof.
  apply (carries_await host grows grows_refl grows_trans grows_perform grows_tick
           grows_cancellation).
Qed.

Lemma await_tick {A} (f : nat -> reply A) w : tick (snd (await host f w)) = S (tick w).
Proof. rewrite await_run. apply suspend_tick. Qed.

Lemma notices_perform_notice m w :
  notices (snd (perform (Notice m) w)) = notices w ++ [m].
Proof.
  unfold notices, perform, modify. cbn [snd effects set_effects]. rewrite omap_app. reflexivity.
Qed.

Lemma last_notice_perform m w : last_notice (snd (perform (Notice m) w)) = Some m.
Proof.
  unfold last_notice. rewrite notices_perform_notice, map_app. apply last_last.
Qed.

(** X9.  [ensureFolderExists] throws only what the existence check throws.
    Once the check has answered, it returns: true exactly when the folder
    was missing and has been created, false when the folder was there, and
    false again, with a notice, when the creation failed. *)
Theorem ensureFolderExists_contract (folderPath : js_string) (w : World) :
  match adapter_exists host (tick w) folderPath with
  | Rejected e => fst (ensureFolderExists host folderPath w) = Throw e
  | Resolved true => fst (ensureFolderExists host folderPath w) = Ret false
  | Resolved false =>
    match createFolder host (S (tick w)) folderPath with
    | Resolved _ => fst (ensureFolderExists host folderPath w) = Ret true
    | Rejected _ =>
      fst (ensureFolderExists host folderPath w) = Ret false
      /\ last_notice (snd (ensureFolderExists host folderPath w))
         = Some (lit "创建文件夹 " ++ folderPath ++ lit " 失败")
    end
  end.
Proof.
  unfold ensureFolderExists, bind, try_catch, ret, perform, modify.
  rewrite (await_run (fun t => adapter_exists host t folderPath)).
  destruct (adapter_exists host (tick w) folderPath) as [[|]|e]; cbn [settle negb fst snd].
  - reflexivity.
  - rewrite (await_run (fun t => createFolder host t folderPath)).
    cbn [tick set_effects]. rewrite suspend_tick.
    destruct (createFolder host (S (tick w)) folderPath) as [[]|e]; cbn [settle fst snd].
    + reflexivity.
    + split; [reflexivity|]. apply (last_notice_perform _ _).
  - reflexivity.
Qed.



End FilesWritten.

Section NoteFile.

Import FileManager FileName.

Context (host : Host) (settings : BookmarkCreatorSettings).

Lemma lit_md : lit ".md" = lit "." ++ lit "md".
Proof. reflexivity. Qed.

Lemma legal_no_slash (s : list N) :
  Forall (fun c => illegal c = false) s -> Forall (fun c => c <> 47 /\ c <> 92) s.
Proof.
  intros H. apply (Forall_impl _ _ _ H). intros c Hc. split; intros ->; discriminate.
Qed.

(** X11.  Where a note goes.  For a title that is a string,
    [createNoteFile] asks the vault to create the file named by the
    sanitized title and [.md] in the bookmark folder, or, when that name is
    taken, by the sanitized title, an underscore, the time stamp and [.md];
    that request is the first thing it does to the outside, and what the
    vault answers is what it returns or throws.  The sanitized title holds
    neither slash nor backslash, so the title cannot choose another
    folder. *)
Theorem note_file_path (s content : js_string) (w : World) :
  is_empty (bookmarkFolder settings) = false ->
  let safe := sanitizeFileName s in
  let free := bookmarkFolder settings ++ lit "/" ++ safe ++ lit ".md" in
  let path :=
      if getAbstractFileByPath host (tick w) free
      then bookmarkFolder settings ++ lit "/" ++ safe ++ lit "_"
           ++ slice_last 6 (decimal (getTime host (tick w))) ++ lit ".md"
      else free in
  fst (createNoteFile host settings (VStr s) content w)
  = settle (vault_create host (tick w) path content)
  /\ (exists rest,
        effects (snd (createNoteFile host settings (VStr s) content w))
        = effects w ++ CreateFile path content :: rest)
  /\ Forall (fun c => c <> 47 /\ c <> 92) safe.
Proof.
  intros Hdir safe free path.
  assert (Hsafe : Forall (fun c => c <> 47 /\ c <> 92) safe)
    by apply legal_no_slash, sanitizeFileName_legal.
  assert (Hfile : ensureFileCanBeCreated host free w = (Ret path, w)).
  { unfold path. destruct (getAbstractFileByPath host (tick w) free) eqn:Hex.
    - unfold free in *. rewrite ensureFileCanBeCreated_taken; [|exact Hex | exact Hdir |].
      + rewrite lit_md, stamped_extension; [reflexivity|].
        repeat constructor; discriminate.
      + apply Forall_app. split.
        * apply (Forall_impl _ _ _ Hsafe). tauto.
        * repeat constructor; discriminate.
    - apply ensureFileCanBeCreated_free, Hex. }
  assert (Hrun : createNoteFile host settings (VStr s) content w
                 = await host (fun t => vault_create host t path content)
                     (snd (perform (CreateFile path content) w))).
  { unfold createNoteFile, bind at 1, lift_outcome. cbn [sanitize fst snd]. cbv zeta.
    fold safe. fold free. unfold bind at 1. rewrite Hfile. reflexivity. }
  rewrite Hrun. split; [|split; [|exact Hsafe]].
  - rewrite await_run. reflexivity.
  - destruct (await_grows host (fun t => vault_create host t path content)
                (snd (perform (CreateFile path content) w))) as [l Hl].
    exists l. rewrite Hl. cbn [perform modify snd effects set_effects].
    rewrite <- app_assoc. reflexivity.
Qed.

End NoteFile.

(** ** What the services leave alone *)

Section Untouched.

Lemma plugin_untouched_refl w : plugin_untouched w w.
Proof. repeat split. Qed.

Lemma plugin_untouched_trans a b c :
  plugin_untouched a b -> plugin_untouched b c -> plugin_untouched a c.
Proof.
  unfold plugin_untouched, same_lock. intros ([H1 H2] & H3 & H4) ([H5 H6] & H7 & H8).
  repeat split; congruence.
Qed.

Lemma plugin_untouched_perform e : carries plugin_untouched (perform e).
Proof. apply carries_modify. intros w. repeat split. Qed.

Lemma plugin_untouched_tick t : carries plugin_untouched (modify (set_tick t)).
Proof. apply carries_modify. intros w. repeat split. Qed.

Lemma plugin_untouched_cancellation b o :
  carries plugin_untouched (modify (set_cancellation b o)).
Proof. apply carries_modify. intros w. repeat split. Qed.

End Untouched.

Section CarriedByTheServices.

Context (host : Host) (settings : BookmarkCreatorSettings).
Context (R : World -> World -> Prop).
Context (R_refl : forall w, R w w).
Context (R_trans : forall a b c, R a b -> R b c -> R a c).
Context (R_perform : forall e, carries R (perform e)).
Context (R_tick : forall t, carries R (modify (set_tick t))).
Context (R_cancellation : forall b o, carries R (modify (set_cancellation b o))).

#[local] Hint Resolve R_refl R_trans R_perform R_tick R_cancellation : carried.

Lemma carries_request' r : carries R (ApiCaller.request host r).
Proof. apply carries_request; assumption. Qed.

#[local] Hint Resolve carries_request' : carried.

Lemma carries_extractWebContent u :
  carries R (AiServiceReader.extractWebContent host settings u).
Proof.
  unfold AiServiceReader.extractWebContent, AiServiceReader.extracted_content,
    AiServiceReader.extraction_failed.
  carry.
Qed.

Lemma carries_searchWebInfo u : carries R (AiService.searchWebInfo host settings u).
Proof. unfold AiService.searchWebInfo. carry. Qed.

Lemma carries_older_generateBookmarkYaml u wc si :
  carries R (AiService.generateBookmarkYaml host settings u wc si).
Proof.
  unfold AiService.generateBookmarkYaml, AiService.generated_yaml,
    AiService.generation_failed.
  carry.
Qed.

End CarriedByTheServices.

Section ServicesLeaveAlone.

Context (host : Host) (settings : BookmarkCreatorSettings).

(** X12.  The service classes and the file manager return or throw, and
    none of their methods touches the lock, the waiting list or the lists of
    created notes: whatever such a call does, the same instance holds the
    lock afterwards and the same items wait in the same states. *)
Theorem services_leave_the_plugin_alone (w : World) :
  (forall u type siteInfo,
     ends_at plugin_untouched (ApiCaller.callApi host settings u type siteInfo) w)
  /\ (forall u wc si,
        ends_at plugin_untouched (ApiCaller.generateBookmarkYaml host settings u wc si) w)
  /\ (forall u, ends_at plugin_untouched (AiServiceReader.extractWebContent host settings u) w)
  /\ (forall u, ends_at plugin_untouched (AiService.searchWebInfo host settings u) w)
  /\ (forall u wc si,
        ends_at plugin_untouched (AiService.generateBookmarkYaml host settings u wc si) w)
  /\ (forall path, ends_at plugin_untouched (FileManager.ensureFolderExists host path) w)
  /\ (forall title content,
        ends_at plugin_untouched (FileManager.createNoteFile host settings title content) w)
  /\ (forall u title,
        ends_at plugin_untouched (FileManager.downloadScreenshot host settings u title) w)
  /\ (forall data,
        ends_at plugin_untouched (FileManager.buildNoteContent host settings data) w).
Proof.
  refine (conj _ (conj _ (conj _ (conj _ (conj _ (conj _ (conj _ (conj _ _))))))));
    intros; apply carries_ends_at.
  all: first
    [ apply carries_callApi | apply carries_generateBookmarkYaml
    | apply carries_extractWebContent | apply carries_searchWebInfo
    | apply carries_older_generateBookmarkYaml | apply carries_ensureFolderExists
    | apply carries_createNoteFile | apply carries_downloadScreenshot
    | apply carries_buildNoteContent ].
  all: first
    [ exact plugin_untouched_refl | exact plugin_untouched_trans
    | exact plugin_untouched_perform | exact plugin_untouched_tick
    | exact plugin_untouched_cancellation ].
Qed.

End ServicesLeaveAlone.

(** ** Cancellation *)

Section Cancellation.

Context (this : Workflow.BookmarkWorkflow).

(** X13.  Whom a request for cancellation reaches.  While a run holds the
    lock under a non-empty identifier, [requestCancellation], on whatever
    instance it is called, marks that run and no other: afterwards
    [shouldCancel] holds for the instance that runs and for it alone, and
    the lock and the waiting list are as they were.  With the lock free, or
    held without an identifier, the call does nothing at all.  And once a
    run has released the lock, [shouldCancel] holds for no instance. *)
Theorem cancellation_reaches_the_runner (w : World) :
  (forall id,
     isWorkflowRunning w = true -> runningInstanceId w = Some id -> is_empty id = false ->
     Workflow.shouldCancel this (snd (requestCancellation w))
     = bool_decide (Workflow.instanceId this = id)
     /\ same_lock w (snd (requestCancellation w))
     /\ queue (snd (requestCancellation w)) = queue w)
  /\ (isWorkflowRunning w = false \/ runningInstanceId w = None
      \/ runningInstanceId w = Some [] ->
      requestCancellation w = (Ret tt, w))
  /\ (released w -> Workflow.shouldCancel this w = false).
Proof.
  split; [|split].
  - intros id Hrun Hid Hne.
    unfold requestCancellation, bind, gets, modify, perform. cbn [fst snd].
    rewrite Hrun, Hid, Hne. cbn [fst snd].
    split; [|split; [split; reflexivity | reflexivity]].
    unfold Workflow.shouldCancel. cbn [isCancellationRequested cancellingInstanceId
                                       set_effects set_cancellation andb snd modify].
    destruct (decide (Workflow.instanceId this = id)) as [E|E].
    + rewrite (bool_decide_eq_true_2 _ E). apply bool_decide_eq_true_2.
      f_equal. symmetry. exact E.
    + rewrite (bool_decide_eq_false_2 _ E). apply bool_decide_eq_false_2.
      intros [= H]. apply E. symmetry. exact H.
  - unfold requestCancellation, bind, gets, ret. cbn [fst snd].
    intros [H | [H | H]]; rewrite H; try reflexivity.
    + destruct (isWorkflowRunning w); reflexivity.
    + destruct (isWorkflowRunning w); reflexivity.
  - intros (_ & _ & H & _). unfold Workflow.shouldCancel. rewrite H. reflexivity.
Qed.

End Cancellation.

(** Witness of [cancellation_reaches_the_runner]: [me] runs, and the
    request is judged by [me] and by another instance. *)
Lemma cancellation_reaches_the_runner_witness :
  let w := set_lock true (Some (Workflow.instanceId me)) (idle Waitlist.empty) in
  (Workflow.shouldCancel me (snd (requestCancellation w))
   = bool_decide (Workflow.instanceId me = Workflow.instanceId me)
   /\ same_lock w (snd (requestCancellation w))
   /\ queue (snd (requestCancellation w)) = queue w)
  /\ requestCancellation (idle Waitlist.empty) = (Ret tt, idle Waitlist.empty)
  /\ Workflow.shouldCancel me (idle Waitlist.empty) = false.
Proof.
  intros w. split; [|split].
  - apply (proj1 (cancellation_reaches_the_runner me w) (Workflow.instanceId me));
      vm_compute; reflexivity.
  - apply (proj1 (proj2 (cancellation_reaches_the_runner me (idle Waitlist.empty)))).
    left. reflexivity.
  - apply (proj2 (proj2 (cancellation_reaches_the_runner me (idle Waitlist.empty)))).
    repeat split.
Defined.

(** ** A pasted document and the progress of its steps *)

Section DocumentRun.

Context (host : Host) (settings : BookmarkCreatorSettings) (this : Workflow.BookmarkWorkflow).

Lemma unreported_refl w : unreported w w.
Proof. intros H. split; [exact H | reflexivity]. Qed.

Lemma unreported_trans a b c : unreported a b -> unreported b c -> unreported a c.
Proof.
  unfold unreported. intros H1 H2 Ha. destruct (H1 Ha) as [Hb Eb].
  destruct (H2 Hb) as [Hc Ec]. split; [exact Hc | congruence].
Qed.

Lemma unreported_modify f :
  (forall w, queue (f w) = queue w) -> carries unreported (modify f).
Proof.
  intros H. apply carries_modify. intros w Hw. rewrite H. split; [exact Hw | reflexivity].
Qed.

Lemma unreported_update s st n : carries unreported (on_queue (update s st n)).
Proof.
  intros w. rewrite on_queue_fst, on_queue_snd. split; [apply update_total|].
  intros Hw. cbn [queue set_queue].
  rewrite update_noop by (left; rewrite Hw; unfold at_index; destruct (n <? 0)%Z; reflexivity).
  split; [exact Hw | reflexivity].
Qed.

Lemma unreported_subscribe ev l : carries unreported (on_queue (subscribe ev l)).
Proof.
  intros w. rewrite on_queue_fst, on_queue_snd. split; [discriminate|].
  intros Hw. cbn [queue set_queue]. rewrite subscribe_waitlist.
  split; [exact Hw|]. unfold subscribe, modify. cbn [snd]. destruct (existsb _ _); reflexivity.
Qed.

(** X14.  A pasted document is processed without the waiting list: when
    the list is empty, as it is unless addresses were left in it, the steps
    of [startYAMLWorkflow] find no item to mark, so that no event is emitted
    from the start of the call to its end and the list is still empty. *)
Theorem document_run_reports_no_step (yamlContent : js_string) (w : World) :
  waitlist (queue w) = [] ->
  emitted (queue (snd (Workflow.startYAMLWorkflow host settings this yamlContent w)))
  = emitted (queue w)
  /\ waitlist (queue (snd (Workflow.startYAMLWorkflow host settings this yamlContent w))) = [].
Proof.
  intros Hw.
  assert (H : carries unreported (Workflow.startYAMLWorkflow host settings this yamlContent)).
  { unfold Workflow.startYAMLWorkflow, Workflow.release, Workflow.resetCancellationState.
    apply (carries_bind unreported unreported_trans);
      [apply carries_gets, unreported_refl | intros running].
    destruct running.
    - apply (carries_bind unreported unreported_trans);
        [apply carries_gets, unreported_refl | intros owner].
      apply (carries_bind unreported unreported_trans);
        [apply unreported_modify; reflexivity | intros _].
      apply carries_ret, unreported_refl.
    - apply (carries_bind unreported unreported_trans);
        [apply unreported_modify; reflexivity | intros _].
      apply (carries_try_finally unreported unreported_trans).
      + apply carries_yaml_run;
          first [ exact unreported_refl | exact unreported_trans
                | exact unreported_update | exact unreported_subscribe
                | intros; apply unreported_modify; reflexivity ].
      + apply (carries_bind unreported unreported_trans);
          [apply unreported_modify; reflexivity | intros _].
        apply unreported_modify; reflexivity. }
  destruct (H w) as [_ Hr]. destruct (Hr Hw) as [H1 H2]. split; assumption.
Qed.

End DocumentRun.

(** Witness of [document_run_reports_no_step]: a document that is
    processed to the end. *)
Lemma document_run_reports_no_step_witness :
  emitted (queue (snd (Workflow.startYAMLWorkflow demo_host demo_settings me
                         (lit "title: Site B") (idle Waitlist.empty))))
  = emitted (queue (idle Waitlist.empty))
  /\ waitlist (queue (snd (Workflow.startYAMLWorkflow demo_host demo_settings me
                             (lit "title: Site B") (idle Waitlist.empty)))) = [].
Proof.
  apply (document_run_reports_no_step demo_host demo_settings me (lit "title: Site B")
           (idle Waitlist.empty)).
  reflexivity.
Defined.

(** ** What a run reports *)

Section Reports.

Context (host : Host) (settings : BookmarkCreatorSettings) (this : Workflow.BookmarkWorkflow).

(** A notice followed by a return. *)
Lemma returns_notice_ret {A} (P : A -> World -> Prop) m (a : A) :
  (forall w, last_notice w = Some m -> P a w) ->
  ensures (on_return P) (run perform (Notice m) then ret a).
Proof. intros H w. apply H. apply last_notice_perform. Qed.

Ltac reporting :=
  repeat first
    [ progress intros
    | apply returns_throw
    | apply returns_notice_ret
    | apply returns_bind_tail
    | apply returns_try_catch
    | match goal with
      | |- ensures (on_return _) (match ?x with _ => _ end) => destruct x eqn:?
      | |- ensures (on_return _) (let _ := _ in _) => cbv zeta
      end ].

(** X15.  [URLWorkflow] never throws: it returns true or false, and what
    it returns is what it has just told the user.  True comes right after
    the notice of success, false right after a notice of failure that names
    the reason. *)
Theorem URLWorkflow_reports (u : js_string) (currentIndex : nat) (w : World) :
  exists b m,
    fst (Workflow.URLWorkflow host settings this u currentIndex w) = Ret b
    /\ last_notice (snd (Workflow.URLWorkflow host settings this u currentIndex w)) = Some m
    /\ if b : bool then m = lit "书签创建成功！"
       else exists reason, m = lit "书签创建失败: " ++ reason.
Proof.
  assert (H : ensures (on_return (fun (b : bool) w' =>
                         exists m, last_notice w' = Some m
                                   /\ if b then m = lit "书签创建成功！"
                                      else exists reason, m = lit "书签创建失败: " ++ reason))
                      (Workflow.URLWorkflow host settings this u currentIndex)).
  { unfold Workflow.URLWorkflow. reporting.
    - eexists. split; [eassumption | reflexivity].
    - eexists. split; [eassumption|].
      match goal with
      | |- exists reason, match ?e with _ => _ end = _ => destruct e; eauto
      end. }
  destruct (steady_URLWorkflow host settings this u currentIndex w) as [Ht _].
  pose proof (URLWorkflow_never_throws host settings this u currentIndex w) as Hn.
  destruct (fst (Workflow.URLWorkflow host settings this u currentIndex w)) as [b|e|] eqn:E.
  - destruct (ensures_returned _ _ _ _ H E) as (m & Hm & Hb). exists b, m. auto.
  - exfalso. eapply Hn. reflexivity.
  - congruence.
Qed.

Lemma url_loop_returns_false fuel :
  ensures (on_return (fun (b : bool) _ => b = false))
          (Workflow.url_loop host settings this fuel 0 false).
Proof.
  intros w. unfold on_return.
  destruct (fst (Workflow.url_loop host settings this fuel 0 false w)) as [b|e|] eqn:E;
    [|exact I..].
  eapply url_loop_hasError, E.
Qed.

(** X16.  What the result of a batch means.  A call of [startURLWorkflow]
    that finds the lock free returns (given a unit of fuel for every waiting
    item).  When it returns true, the waiting list is empty and the last
    notice says that every bookmark was created.  When it returns false,
    the last notice says that the workflow was cancelled, or that the batch
    failed and why: false is never the answer of a batch that went through
    to its end. *)
Theorem batch_result_means (fuel : nat) (w : World) :
  isWorkflowRunning w = false ->
  (List.length (waitlist (queue w)) <= fuel)%nat ->
  exists b m,
    fst (Workflow.startURLWorkflow host settings this fuel w) = Ret b
    /\ last_notice (snd (Workflow.startURLWorkflow host settings this fuel w)) = Some m
    /\ if b : bool
       then m = lit "所有书签创建完成！"
            /\ waitlist (queue (snd (Workflow.startURLWorkflow host settings this fuel w))) = []
       else m = lit "工作流已取消" \/ exists reason, m = lit "批量处理失败: " ++ reason.
Proof.
  intros Hfree Hfuel.
  set (w1 := set_lock true (Some (Workflow.instanceId this)) w).
  assert (H : ensures (on_return (fun (b : bool) w' =>
                         exists m, last_notice w' = Some m
                                   /\ if b then m = lit "所有书签创建完成！"
                                                /\ waitlist (queue w') = []
                                      else m = lit "工作流已取消"
                                           \/ exists reason, m = lit "批量处理失败: " ++ reason))
                      (Workflow.url_run host settings this fuel)).
  { unfold Workflow.url_run. apply returns_try_catch.
    - apply returns_bind_tail. intros _. apply returns_bind_tail. intros _.
      apply (returns_bind_pure (fun b => b = false)); [apply url_loop_returns_false|].
      intros hasError ->.
      apply (returns_bind (fun _ w' => waitlist (queue w') = [])).
      { intros w0. unfold on_return. rewrite on_queue_snd.
        destruct (fst (on_queue clear w0)); [|exact I..]. reflexivity. }
      intros _ w0 Hw0.
      unfold bind, gets, Modal.setCreatedNotes, Modal.setTitle, ret.
      cbn [perform modify fst snd negb on_return].
      eexists. split; [|split; [reflexivity | exact Hw0]].
      apply (last_notice_perform (lit "所有书签创建完成！")
               (set_effects
                  (effects (set_effects (effects w0
                                         ++ [ModalSetCreatedNotes
                                               (Workflow.my_createdNotes this w0)]) w0)
                   ++ [ModalSetTitle (lit "处理完成！")])
                  (set_effects (effects w0
                                ++ [ModalSetCreatedNotes (Workflow.my_createdNotes this w0)])
                               w0))).
    - intros e. apply returns_bind_tail. intros _. apply returns_notice_ret.
      intros w0 Hm. eexists. split; [exact Hm|].
      destruct (Workflow.is_cancellation e); [left; reflexivity | right; eauto]. }
  destruct (url_run_ends host settings this fuel w1 Hfuel) as [Ht _].
  destruct (returns_bool _ _ Ht (url_run_never_throws host settings this fuel w1)) as [b Hb].
  destruct (ensures_returned _ _ _ _ H Hb) as (m & Hm & Hres).
  assert (Hrun : Workflow.startURLWorkflow host settings this fuel w
                 = (Ret b, snd (Workflow.release
                                  (snd (Workflow.url_run host settings this fuel w1))))).
  { unfold Workflow.startURLWorkflow, bind at 1, gets. cbn [fst snd]. rewrite Hfree.
    unfold bind, modify, try_finally. cbn [fst snd]. fold w1.
    destruct (Workflow.url_run host settings this fuel w1) as [o w2]. cbn [fst snd] in *.
    subst o. reflexivity. }
  exists b, m. rewrite Hrun. cbn [fst snd]. split; [reflexivity|].
  split; [exact Hm|]. exact Hres.
Qed.

End Reports.

(** Witness of [batch_result_means]: the batch of two with one failing
    item. *)
Lemma batch_result_means_witness :
  exists b m,
    fst (Workflow.startURLWorkflow reader_fails_for_a demo_settings me 2
           (idle (after_adds two_urls Waitlist.empty))) = Ret b
    /\ last_notice (snd (Workflow.startURLWorkflow reader_fails_for_a demo_settings me 2
                           (idle (after_adds two_urls Waitlist.empty)))) = Some m
    /\ if b : bool
       then m = lit "所有书签创建完成！"
            /\ waitlist (queue (snd (Workflow.startURLWorkflow reader_fails_for_a
                                       demo_settings me 2
                                       (idle (after_adds two_urls Waitlist.empty))))) = []
       else m = lit "工作流已取消" \/ exists reason, m = lit "批量处理失败: " ++ reason.
Proof.
  apply (batch_result_means reader_fails_for_a demo_settings me 2
           (idle (after_adds two_urls Waitlist.empty))).
  - reflexivity.
  - vm_compute. lia.
Defined.

(** ** A document that cannot be used *)

Section Unparsable.

Context (host : Host) (settings : BookmarkCreatorSettings) (this : Workflow.BookmarkWorkflow).

(** Whether [parseGeneratedYaml] throws does not depend on the state, and
    when it throws, all it has done is to write to the console. *)
Lemma parseGeneratedYaml_throws y w e :
  fst (Workflow.parseGeneratedYaml host y w) = Throw e ->
  forall w',
    Workflow.parseGeneratedYaml host y w'
    = (Throw (Error (lit "解析生成的书签信息失败")),
       snd (perform (Console ErrorLevel (lit "解析YAML内容失败:")) w')).
Proof.
  intros H w'. revert H.
  unfold Workflow.parseGeneratedYaml, try_catch, bind, lift_outcome, now, gets, ret, throw.
  cbv zeta.
  destruct (settle (parseYaml host (Workflow.cleanYaml host y))) as [p|e0|];
    cbn [fst snd]; [| reflexivity | discriminate].
  destruct (get p (lit "title")) as [t|e0|]; cbn [fst snd]; [| reflexivity | discriminate].
  destruct (truthy t); cbn [fst snd negb orb].
  - destruct (get p (lit "url")) as [x|e0|]; cbn [fst snd]; [| reflexivity | discriminate].
    destruct (truthy x); cbn [fst snd negb]; [discriminate | reflexivity].
  - reflexivity.
Qed.

(** X17.  A document that [parseGeneratedYaml] refuses.  [startYAMLWorkflow]
    then returns false, and from taking the lock to releasing it all it
    does is to write two lines to the console and to show one notice: no
    request is sent, no folder or file is made, the dialog is not switched
    to its progress view, the waiting list and the created notes are as they
    were, and no time has passed. *)
Theorem unusable_document_is_refused (yamlContent : js_string) (w : World) (e : exn) :
  isWorkflowRunning w = false ->
  fst (Workflow.parseGeneratedYaml host yamlContent w) = Throw e ->
  exists w',
    Workflow.startYAMLWorkflow host settings this yamlContent w = (Ret false, w')
    /\ effects w'
       = effects w ++ [ Console ErrorLevel (lit "解析YAML内容失败:");
                        Console ErrorLevel (lit "解析YAML内容失败:");
                        Notice (lit "解析书签信息失败: 未知错误") ]
    /\ queue w' = queue w
    /\ createdNotes w' = createdNotes w
    /\ tick w' = tick w
    /\ closures w' = closures w
    /\ released w'.
Proof.
  intros Hfree Hthrow. eexists. split.
  - unfold Workflow.startYAMLWorkflow, bind at 1, gets. cbn [fst snd]. rewrite Hfree.
    unfold bind at 1, modify. cbn [fst snd].
    unfold try_finally, Workflow.yaml_run.
    unfold try_catch at 1, bind at 1, try_catch at 1, bind at 1.
    rewrite (parseGeneratedYaml_throws _ _ _ Hthrow). cbn [fst snd].
    unfold bind, perform, modify, ret, Workflow.release, Workflow.resetCancellationState.
    cbn [fst snd]. reflexivity.
  - cbn [effects queue createdNotes tick closures set_cancellation set_lock set_effects].
    rewrite <- !app_assoc. repeat split.
Qed.

End Unparsable.

(** Witness of [unusable_document_is_refused]: a document without an
    address. *)
Lemma unusable_document_is_refused_witness :
  exists w',
    Workflow.startYAMLWorkflow
      (with_parseYaml (fun _ => Resolved (VObj [(lit "title", VStr (lit "Site B"))])) demo_host)
      demo_settings me (lit "title: Site B") (idle Waitlist.empty)
    = (Ret false, w')
    /\ effects w'
       = effects (idle Waitlist.empty)
         ++ [ Console ErrorLevel (lit "解析YAML内容失败:");
              Console ErrorLevel (lit "解析YAML内容失败:");
              Notice (lit "解析书签信息失败: 未知错误") ]
    /\ queue w' = queue (idle Waitlist.empty)
    /\ createdNotes w' = createdNotes (idle Waitlist.empty)
    /\ tick w' = tick (idle Waitlist.empty)
    /\ closures w' = closures (idle Waitlist.empty)
    /\ released w'.
Proof.
  apply (unusable_document_is_refused
           (with_parseYaml (fun _ => Resolved (VObj [(lit "title", VStr (lit "Site B"))]))
                           demo_host)
           demo_settings me (lit "title: Site B") (idle Waitlist.empty)
           (Error (lit "解析生成的书签信息失败"))).
  - reflexivity.
  - vm_compute. reflexivity.
Defined.

(** ** The notes a workflow has created *)

Section CreatedNotes.

Context (host : Host) (settings : BookmarkCreatorSettings) (this : Workflow.BookmarkWorkflow).

Lemma buildNoteContent_untouched data w :
  plugin_untouched w (snd (FileManager.buildNoteContent host settings data w)).
Proof.
  apply (carries_buildNoteContent host settings plugin_untouched plugin_untouched_refl
           plugin_untouched_trans plugin_untouched_perform).
Qed.

Lemma createNoteFile_untouched title content w :
  plugin_untouched w (snd (FileManager.createNoteFile host settings title content w)).
Proof.
  apply (carries_createNoteFile host settings plugin_untouched plugin_untouched_refl
           plugin_untouched_trans plugin_untouched_perform plugin_untouched_tick
           plugin_untouched_cancellation).
Qed.

(** X18.  [createBookmarkNote] keeps the books of its instance.  When it
    returns, the list of created notes of this instance is the former list
    followed by one path, the one the vault gave back for the new file, and
    the lists of the other instances are as they were.  When it throws, no
    list has changed, and what it throws is an [Error] whose message begins
    with the words that announce a failed creation. *)
Theorem createBookmarkNote_records (noteData : FileManager.NoteContentData) (w : World) :
  (forall w',
     Workflow.createBookmarkNote host settings this noteData w = (Ret tt, w') ->
     (exists content path,
        fst (FileManager.createNoteFile host settings (FileManager.title noteData) content
               (snd (FileManager.buildNoteContent host settings noteData w)))
        = Ret path
        /\ Workflow.my_createdNotes this w' = Workflow.my_createdNotes this w ++ [path])
     /\ forall other,
          Workflow.instanceId other <> Workflow.instanceId this ->
          Workflow.my_createdNotes other w' = Workflow.my_createdNotes other w)
  /\ (forall e w',
        Workflow.createBookmarkNote host settings this noteData w = (Throw e, w') ->
        createdNotes w' = createdNotes w
        /\ exists reason, e = Error (lit "创建书签笔记失败: " ++ reason)).
Proof.
  unfold Workflow.createBookmarkNote, try_catch, bind.
  pose proof (buildNoteContent_untouched noteData w) as (_ & _ & Hb).
  destruct (FileManager.buildNoteContent host settings noteData w) as [[content|e0|] w1];
    cbn [fst snd] in *.
  - pose proof (createNoteFile_untouched (FileManager.title noteData) content w1)
      as (_ & _ & Hc).
    destruct (FileManager.createNoteFile host settings (FileManager.title noteData) content w1)
      as [[path|e1|] w2] eqn:Ec; cbn [fst snd] in *.
    + split; [|intros e w' H; discriminate].
      unfold modify. intros w' [= <-].
      unfold Workflow.my_createdNotes. cbn [createdNotes set_createdNotes].
      split.
      * exists content, path. rewrite Ec. split; [reflexivity|].
        rewrite lookup_insert_eq. cbn [default]. rewrite Hc, Hb. reflexivity.
      * intros other Hother. rewrite lookup_insert_ne by congruence.
        rewrite Hc, Hb. reflexivity.
    + split; [intros w' H; discriminate|].
      unfold perform, modify, throw. cbn [fst snd]. intros e w' [= <- <-].
      cbn [createdNotes set_effects]. split; [congruence | eauto].
    + split; [intros w' H | intros e w' H]; discriminate.
  - split; [intros w' H; discriminate|].
    unfold perform, modify, throw. cbn [fst snd]. intros e w' [= <- <-].
    cbn [createdNotes set_effects]. split; [congruence | eauto].
  - split; [intros w' H | intros e w' H]; discriminate.
Qed.

End CreatedNotes.

(** ** The listeners of the dialog *)

Section DialogListeners.

(** X19.  Every call of [progressMode] subscribes one more listener of
    [update], a closure made at that call, after the listeners that are
    there already, and removes none: the listeners of the dialog add up from
    call to call.  The listeners of the other events are as they were. *)
Theorem progressMode_adds_a_listener (full : bool) (title : js_string) (w : World) :
  closures_counted w ->
  let w' := snd (Modal.progressMode full title w) in
  listeners (queue w') EvUpdate
  = listeners (queue w) EvUpdate ++ [Modal.waitlistUpdateListener (closures w)]
  /\ (forall ev, ev <> EvUpdate -> listeners (queue w') ev = listeners (queue w) ev)
  /\ closures_counted w'.
Proof.
  intros Hc w'.
  assert (Hnew : existsb (fun l' => Nat.eqb (identity l')
                                      (identity (Modal.waitlistUpdateListener (closures w))))
                         (listeners (queue w) EvUpdate) = false).
  { apply not_true_is_false. intros H. apply existsb_identity in H.
    destruct H as (l' & Hin & E). apply Hc in Hin. cbn in E. lia. }
  assert (Hw' : listeners (queue w')
                = fun ev => if decide (ev = EvUpdate)
                            then listeners (queue w) EvUpdate
                                 ++ [Modal.waitlistUpdateListener (closures w)]
                            else listeners (queue w) ev).
  { unfold w', Modal.progressMode, bind, perform, gets, on_queue, subscribe, modify.
    cbn [fst snd queue closures set_effects set_closures set_queue].
    rewrite Hnew. reflexivity. }
  rewrite Hw'. split; [|split].
  - rewrite decide_True by reflexivity. reflexivity.
  - intros ev Hev. rewrite decide_False by exact Hev. reflexivity.
  - unfold closures_counted. rewrite Hw'. rewrite decide_True by reflexivity.
    assert (Hcl : closures w' = S (closures w)).
    { unfold w', Modal.progressMode, bind, perform, gets, on_queue, subscribe, modify.
      cbn [fst snd queue closures set_effects set_closures set_queue]. reflexivity. }
    rewrite Hcl. intros l Hl. apply in_app_or in Hl. destruct Hl as [Hl | [<- | []]].
    + apply Hc in Hl. lia.
    + cbn. lia.
Qed.

End DialogListeners.

(** Witness of [progressMode_adds_a_listener]: the dialog switched to its
    progress view a second time. *)
Lemma progressMode_adds_a_listener_witness :
  let w := snd (Modal.progressMode true Modal.default_title (idle Waitlist.empty)) in
  let w' := snd (Modal.progressMode true Modal.default_title w) in
  listeners (queue w') EvUpdate
  = listeners (queue w) EvUpdate ++ [Modal.waitlistUpdateListener (closures w)]
  /\ (forall ev, ev <> EvUpdate -> listeners (queue w') ev = listeners (queue w) ev)
  /\ closures_counted w'.
Proof.
  intros w.
  apply (progressMode_adds_a_listener true Modal.default_title w).
  intros l [<- | []]. vm_compute. lia.
Defined.

(** Witness of [createBookmarkNote_records]: a note that is created. *)
Lemma createBookmarkNote_records_witness :
  let w' := snd (Workflow.createBookmarkNote demo_host demo_settings me demo_record
                   (idle Waitlist.empty)) in
  (exists content path,
     fst (FileManager.createNoteFile demo_host demo_settings (FileManager.title demo_record)
            content
            (snd (FileManager.buildNoteContent demo_host demo_settings demo_record
                    (idle Waitlist.empty))))
     = Ret path
     /\ Workflow.my_createdNotes me w'
        = Workflow.my_createdNotes me (idle Waitlist.empty) ++ [path])
  /\ forall other,
       Workflow.instanceId other <> Workflow.instanceId me ->
       Workflow.my_createdNotes other w'
       = Workflow.my_createdNotes other (idle Waitlist.empty).
Proof.
  intros w'.
  apply (proj1 (createBookmarkNote_records demo_host demo_settings me demo_record
                  (idle Waitlist.empty)) w').
  vm_compute. reflexivity.
Defined.

(** ** The input dialog *)

Section InputDialog.

Import BookmarkModal.

Context (host : Host) (settings : BookmarkCreatorSettings) (this : Workflow.BookmarkWorkflow).

Lemma find_first_invalid (lines : list js_string) bad :
  In bad lines -> is_address host bad = false ->
  exists line,
    List.find (fun l => negb (is_address host l)) lines = Some line
    /\ In line lines /\ is_address host line = false.
Proof.
  intros Hin Hbad.
  destruct (List.find (fun l => negb (is_address host l)) lines) as [line|] eqn:E.
  - apply find_some in E. destruct E as [H1 H2]. apply negb_true_iff in H2. eauto.
  - exfalso. apply (find_none _ _ E) in Hin. rewrite Hbad in Hin. discriminate.
Qed.

Lemma find_all_valid (lines : list js_string) :
  Forall (fun l => is_address host l = true) lines ->
  List.find (fun l => negb (is_address host l)) lines = None.
Proof.
  induction 1 as [|l r Hl _ IH]; [reflexivity|]. cbn [List.find]. rewrite Hl. exact IH.
Qed.

(** What [add_all] comes to when no listener of [add] throws. *)
Lemma add_all_quiet (lines : list js_string) : forall w,
  quiet EvAdd (queue w) ->
  exists q,
    add_all lines w = (Ret tt, set_queue q w)
    /\ waitlist q = waitlist (queue w) ++ map (fun l => new_item l ProcessFull) lines
    /\ listeners q = listeners (queue w).
Proof.
  induction lines as [|l r IH]; intros w Hq.
  - exists (queue w). cbn [add_all map]. rewrite app_nil_r. destruct w; repeat split.
  - cbn [add_all]. unfold bind.
    pose proof (on_queue_fst (add l ProcessFull) w) as Hf.
    pose proof (on_queue_snd (add l ProcessFull) w) as Hs.
    destruct (add_enqueues_first l (queue w) Hq) as (Hr & Hw & Hl).
    destruct (on_queue (add l ProcessFull) w) as [o w1]. cbn [fst snd] in *.
    rewrite Hr in Hf. subst o w1.
    destruct (IH (set_queue (snd (add l ProcessFull (queue w))) w)) as (q & Hrun & Hwq & Hlq).
    { cbn [queue set_queue]. eapply quiet_listeners; [exact Hl | exact Hq]. }
    exists q. rewrite Hrun. cbn [queue set_queue] in *. split; [reflexivity|].
    split; [|congruence].
    rewrite Hwq, Hw, <- app_assoc. reflexivity.
Qed.

(** X20.  All addresses or none.  When the text of the input area is not
    taken for a document and one of its lines, blank lines apart, is not an
    address, [startWorkflow] shows the notice that names the first such
    line and does nothing else: no address joins the waiting list, not even
    those before the offending line, and no workflow is started. *)
Theorem one_bad_line_stops_all (fuel : nat) (value bad : js_string) (w : World) :
  is_empty (trim value) = false ->
  is_document (trim value) = false ->
  In bad (address_lines (trim value)) ->
  is_address host bad = false ->
  exists line,
    In line (address_lines (trim value))
    /\ is_address host line = false
    /\ startWorkflow host settings this fuel value w
       = (Ret tt, set_effects (effects w ++ [Notice (lit "无效网址：" ++ line)]) w).
Proof.
  intros Hne Hdoc Hin Hbad.
  destruct (find_first_invalid _ _ Hin Hbad) as (line & Hfind & Hl & Hline).
  exists line. split; [exact Hl|]. split; [exact Hline|].
  unfold startWorkflow. cbv zeta. rewrite Hne, Hdoc, Hfind. reflexivity.
Qed.

(** X21.  Addresses entered while another run holds the lock.  When
    every line is an address and no listener of [add] throws, the addresses
    join the waiting list, in the order of the lines and behind the items
    that wait there; only then is the start attempted, so that with the lock
    held the start is refused with the notice of a running workflow while
    the addresses stay in the list. *)
Theorem addresses_join_a_running_batch (fuel : nat) (value : js_string) (w : World) :
  is_empty (trim value) = false ->
  is_document (trim value) = false ->
  Forall (fun l => is_address host l = true) (address_lines (trim value)) ->
  quiet EvAdd (queue w) ->
  isWorkflowRunning w = true ->
  exists w',
    startWorkflow host settings this fuel value w = (Ret tt, w')
    /\ waitlist (queue w')
       = waitlist (queue w)
         ++ map (fun l => new_item l ProcessFull) (address_lines (trim value))
    /\ effects w' = effects w ++ [Workflow.busy_notice (runningInstanceId w)]
    /\ same_lock w w'.
Proof.
  intros Hne Hdoc Hall Hq Hrun.
  destruct (add_all_quiet (address_lines (trim value)) w Hq) as (q & Hadd & Hwq & _).
  eexists. split.
  - unfold startWorkflow. cbv zeta. rewrite Hne, Hdoc, (find_all_valid _ Hall).
    unfold bind at 1. rewrite Hadd.
    unfold detached, Workflow.startURLWorkflow, bind, gets, perform, modify, ret.
    cbn [fst snd]. cbn [isWorkflowRunning set_queue]. rewrite Hrun. reflexivity.
  - cbn [queue effects set_effects set_queue runningInstanceId]. split; [exact Hwq|].
    split; [reflexivity|]. split; reflexivity.
Qed.

End InputDialog.

(** ** The documents of the first dialog *)

Section FirstDialog.

Import FileManager FirstModal.





























Section WithPattern.

Context (match_frontmatter : js_string -> option js_string).


End WithPattern.

End FirstDialog.

(** ** The batch, item by item *)

Section HeadOnly.

Lemma head_only_refl w : head_only w w.
Proof. repeat split. Qed.

Lemma head_only_trans a b c : head_only a b -> head_only b c -> head_only a c.
Proof.
  intros (H1 & H2 & H3 & H4) (H5 & H6 & H7 & H8). repeat split.
  - congruence.
  - intros j Hj. rewrite H6, H2 by exact Hj. reflexivity.
  - congruence.
  - intros ev Hev. rewrite H8, H4 by exact Hev. reflexivity.
Qed.

Lemma head_only_modify f :
  (forall w, queue (f w) = queue w) -> carries head_only (modify f).
Proof. intros H. apply carries_modify. intros w. unfold head_only. rewrite H. repeat split. Qed.

Lemma head_only_same_length a b : head_only a b -> same_length a b.
Proof.
  intros (H & _). unfold same_length.
  rewrite <- (length_map url (waitlist (queue b))), H. apply length_map.
Qed.

Lemma read_events_record ev d q :
  read_events (record_emit ev d q)
  = read_events q ++ match ev with EvRead => [d] | _ => [] end.
Proof.
  unfold read_events, record_emit. cbn [emitted]. rewrite omap_app. cbn [omap fst snd].
  destruct ev; reflexivity.
Qed.

Lemma head_only_update s st : carries head_only (on_queue (update s st 0)).
Proof.
  intros w. rewrite on_queue_fst, on_queue_snd. split; [apply update_total|].
  unfold head_only. cbn [queue set_queue].
  destruct (at_index (waitlist (queue w)) 0) as [item|] eqn:Hi.
  - destruct (status item !! s) as [x|] eqn:Hs.
    + rewrite (update_hit _ _ _ _ _ _ Hi Hs).
      cbn [snd waitlist listeners record_emit set_waitlist Z.to_nat].
      assert (Hi' : waitlist (queue w) !! 0%nat = Some item) by exact Hi.
      repeat split.
      * destruct (waitlist (queue w)) as [|i0 r]; [discriminate|].
        injection Hi' as ->. reflexivity.
      * intros j Hj. apply list_lookup_insert_ne. lia.
      * rewrite read_events_record. apply app_nil_r.
    + rewrite update_noop by eauto. repeat split.
  - rewrite update_noop by eauto. repeat split.
Qed.

Lemma head_only_subscribe l : carries head_only (on_queue (subscribe EvUpdate l)).
Proof.
  intros w. rewrite on_queue_fst, on_queue_snd. split; [discriminate|].
  unfold head_only. cbn [queue set_queue]. rewrite subscribe_waitlist.
  unfold subscribe, modify. cbn [snd]. destruct (existsb _ _); repeat split.
  intros ev Hev. cbn [listeners set_listeners]. rewrite decide_False by exact Hev. reflexivity.
Qed.

End HeadOnly.

Section CarriedAtTheHead.

Context (host : Host) (settings : BookmarkCreatorSettings).
Context (R : World -> World -> Prop).
Context (R_refl : forall w, R w w).
Context (R_trans : forall a b c, R a b -> R b c -> R a c).
Context (R_perform : forall e, carries R (perform e)).
Context (R_tick : forall t, carries R (modify (set_tick t))).
Context (R_cancellation : forall b o, carries R (modify (set_cancellation b o))).
Context (R_closures : forall c, carries R (modify (set_closures c))).
Context (R_createdNotes :
           forall f, carries R (modify (fun w => set_createdNotes (f w) w))).
Context (R_update : forall s st, carries R (on_queue (update s st 0))).
Context (R_subscribe : forall l, carries R (on_queue (subscribe EvUpdate l))).

#[local] Hint Resolve R_refl R_trans R_perform R_tick R_cancellation R_closures
  R_createdNotes R_update R_subscribe : carried.

Lemma carries_callApi_here u type info :
  carries R (ApiCaller.callApi host settings u type info).
Proof. apply carries_callApi; assumption. Qed.

Lemma carries_downloadScreenshot_here u title :
  carries R (FileManager.downloadScreenshot host settings u title).
Proof. apply carries_downloadScreenshot; assumption. Qed.

Lemma carries_parseGeneratedYaml_here y : carries R (Workflow.parseGeneratedYaml host y).
Proof. apply carries_parseGeneratedYaml; assumption. Qed.

Lemma carries_createBookmarkNote_here this data :
  carries R (Workflow.createBookmarkNote host settings this data).
Proof. apply carries_createBookmarkNote; assumption. Qed.

Lemma carries_progressMode_here full title : carries R (Modal.progressMode full title).
Proof. unfold Modal.progressMode. carry. Qed.

#[local] Hint Resolve carries_callApi_here carries_downloadScreenshot_here
  carries_parseGeneratedYaml_here carries_createBookmarkNote_here
  carries_progressMode_here : carried.

(** The steps of the workflow mark the first item of the list and no
    other. *)
Lemma carries_executeStep_at_head {A} this stepId (action : M World A) :
  carries R action -> carries R (Workflow.executeStep this stepId action).
Proof. intros H. unfold Workflow.executeStep. carry. Qed.

#[local] Hint Resolve @carries_executeStep_at_head : carried.

Lemma carries_URLWorkflow_at_head this u currentIndex :
  carries R (Workflow.URLWorkflow host settings this u currentIndex).
Proof. unfold Workflow.URLWorkflow. carry. Qed.

End CarriedAtTheHead.

Section BatchInOrder.

Context (host : Host) (settings : BookmarkCreatorSettings) (this : Workflow.BookmarkWorkflow).

Lemma head_only_perform e : carries head_only (perform e).
Proof. apply head_only_modify. reflexivity. Qed.

Lemma head_only_URLWorkflow u i :
  carries head_only (Workflow.URLWorkflow host settings this u i).
Proof.
  apply carries_URLWorkflow_at_head;
    first [ exact head_only_refl | exact head_only_trans | exact head_only_update
          | exact head_only_subscribe | intros; apply head_only_modify; reflexivity ].
Qed.

Lemma head_only_progressMode full title : carries head_only (Modal.progressMode full title).
Proof.
  apply carries_progressMode_here;
    first [ exact head_only_refl | exact head_only_trans | exact head_only_subscribe
          | intros; apply head_only_modify; reflexivity ].
Qed.

(** One turn of the loop body after the item has been read. *)
Lemma head_only_item u i :
  carries head_only
    (try_catch (run Workflow.URLWorkflow host settings this u i then ret false)
               (fun error =>
                  run perform (Console ErrorLevel (lit "处理URL失败: " ++ u)) then ret true)).
Proof.
  apply (carries_try_catch head_only head_only_trans).
  - apply (carries_bind head_only head_only_trans);
      [apply head_only_URLWorkflow | intros; apply carries_ret, head_only_refl].
  - intros e. apply (carries_bind head_only head_only_trans);
      [apply head_only_perform | intros; apply carries_ret, head_only_refl].
Qed.

(** What [read] does to the state of the plug-in. *)
Lemma on_queue_read i w :
  waitlist (queue (snd (on_queue (read (Z.of_nat i)) w))) = waitlist (queue w)
  /\ listeners (queue (snd (on_queue (read (Z.of_nat i)) w))) = listeners (queue w)
  /\ read_events (queue (snd (on_queue (read (Z.of_nat i)) w)))
     = read_events (queue w) ++ [read_of w i]
  /\ forall item, fst (on_queue (read (Z.of_nat i)) w) = Ret item ->
                  item = waitlist (queue w) !! i.
Proof.
  rewrite on_queue_fst, on_queue_snd. cbn [queue set_queue].
  rewrite read_outcome. cbn [fst snd waitlist listeners record_emit].
  rewrite read_events_record, at_index_inside. repeat split.
  intros item. destruct (deliver _ _); intros [= <-]. reflexivity.
Qed.

(** The loop, turn by turn. *)
Lemma url_loop_done fuel i hasError w :
  (List.length (waitlist (queue w)) <= i)%nat ->
  Workflow.url_loop host settings this fuel i hasError w = (Ret hasError, w).
Proof.
  intros H. destruct fuel; cbn [Workflow.url_loop]; unfold bind, gets, Waitlist.length;
    cbn [fst snd];
    destruct (Nat.ltb_spec i (List.length (waitlist (queue w)))); (lia || reflexivity).
Qed.

Lemma url_loop_turn fuel i hasError w :
  (i < List.length (waitlist (queue w)))%nat ->
  Workflow.url_loop host settings this (S fuel) i hasError w
  = if Workflow.shouldCancel this w then (Throw Workflow.WorkflowCancellationError, w)
    else
      match on_queue (read (Z.of_nat i)) w with
      | (Ret (Some it), w1) =>
        match try_catch
                (run Workflow.URLWorkflow host settings this (Waitlist.url it) i
                 then ret false)
                (fun error =>
                   run perform (Console ErrorLevel (lit "处理URL失败: " ++ Waitlist.url it))
                   then ret true) w1 with
        | (Ret thrown, w2) =>
          Workflow.url_loop host settings this fuel (S i) (hasError || thrown) w2
        | (Throw e, w2) => (Throw e, w2)
        | (OutOfFuel, w2) => (OutOfFuel, w2)
        end
      | (Ret None, w1) => Workflow.url_loop host settings this fuel (S i) hasError w1
      | (Throw e, w1) => (Throw e, w1)
      | (OutOfFuel, w1) => (OutOfFuel, w1)
      end.
Proof.
  intros H. cbn [Workflow.url_loop]. unfold bind at 1, gets at 1, Waitlist.length.
  cbn [fst snd].
  destruct (Nat.ltb_spec i (List.length (waitlist (queue w)))); [|lia].
  unfold bind at 1, gets at 1. cbn [fst snd].
  destruct (Workflow.shouldCancel this w); [reflexivity|].
  unfold bind at 1. destruct (on_queue (read (Z.of_nat i)) w) as [[[it|]|e|] w1];
    try reflexivity.
Qed.

(** The loop, from any index: it ends; all it has done to the list it has
    done to the statuses of the first item; it has read the items from the
    index on, one after the other, each as it was when the loop began; and
    when it returns it has read them all. *)
Lemma url_loop_in_order fuel : forall i hasError w,
  (List.length (waitlist (queue w)) - i <= fuel)%nat ->
  fst (Workflow.url_loop host settings this fuel i hasError w) <> OutOfFuel
  /\ exists k,
       (k <= List.length (waitlist (queue w)) - i)%nat
       /\ head_only_but_reads w (snd (Workflow.url_loop host settings this fuel i hasError w))
       /\ read_events (queue (snd (Workflow.url_loop host settings this fuel i hasError w)))
          = read_events (queue w) ++ map (read_of w) (seq i k)
       /\ (forall b, fst (Workflow.url_loop host settings this fuel i hasError w) = Ret b ->
                     k = (List.length (waitlist (queue w)) - i)%nat).
Proof.
  induction fuel as [|fuel IH]; intros i h w Hfuel.
  - rewrite url_loop_done by lia. cbn [fst snd]. split; [discriminate|]. exists 0%nat.
    repeat split; [lia | symmetry; apply app_nil_r | intros; lia].
  - destruct (Nat.ltb_spec i (List.length (waitlist (queue w)))) as [Hlt|Hge].
    2: { rewrite url_loop_done by lia. cbn [fst snd]. split; [discriminate|]. exists 0%nat.
         repeat split; [lia | symmetry; apply app_nil_r | intros; lia]. }
    rewrite url_loop_turn by exact Hlt.
    destruct (Workflow.shouldCancel this w).
    { cbn [fst snd]. split; [discriminate|]. exists 0%nat.
      repeat split; [lia | symmetry; apply app_nil_r | intros; discriminate]. }
    destruct (on_queue_read i w) as (Hw1 & Hl1 & He1 & Hitem).
    destruct (steady_read (Z.of_nat i) w) as [Ht1 _].
    destruct (on_queue (read (Z.of_nat i)) w) as [[item|e|] w1]; cbn [fst snd] in *;
      [| |congruence].
    2: { split; [discriminate|]. exists 1%nat.
         split; [lia|]. split; [|split; [rewrite He1; reflexivity | intros; discriminate]].
         unfold head_only_but_reads. rewrite Hw1, Hl1. repeat split. }
    assert (Hstep : forall w2 h',
              head_only w1 w2 ->
              fst (Workflow.url_loop host settings this fuel (S i) h' w2) <> OutOfFuel
              /\ exists k,
                   (k <= List.length (waitlist (queue w)) - i)%nat
                   /\ head_only_but_reads w
                        (snd (Workflow.url_loop host settings this fuel (S i) h' w2))
                   /\ read_events
                        (queue (snd (Workflow.url_loop host settings this fuel (S i) h' w2)))
                      = read_events (queue w) ++ map (read_of w) (seq i k)
                   /\ (forall b,
                         fst (Workflow.url_loop host settings this fuel (S i) h' w2) = Ret b ->
                         k = (List.length (waitlist (queue w)) - i)%nat)).
    { intros w2 h' (H1 & H2 & H3 & H4).
      assert (Hlen : List.length (waitlist (queue w2)) = List.length (waitlist (queue w))).
      { rewrite <- (length_map url (waitlist (queue w2))), H1, Hw1. apply length_map. }
      destruct (IH (S i) h' w2) as (Ht & k & Hk & (K1 & K2 & K3) & K4 & K5); [lia|].
      split; [exact Ht|]. exists (S k). rewrite Hlen in *.
      split; [lia|]. split; [|split].
      - split; [congruence|]. split.
        + intros j Hj. rewrite K2, H2, Hw1 by exact Hj. reflexivity.
        + intros ev Hev. rewrite K3, H4, Hl1 by exact Hev. reflexivity.
      - rewrite K4, H3, He1, <- app_assoc. cbn [seq map app]. f_equal. f_equal.
        apply map_ext_in. intros j Hj. apply in_seq in Hj. unfold read_of.
        rewrite Hlen, H2, Hw1 by lia. reflexivity.
      - intros b Hb. rewrite (K5 b Hb). lia. }
    destruct item as [it|].
    + pose proof (head_only_item (Waitlist.url it) i w1) as [Ht2 Hh2].
      destruct (try_catch _ _ w1) as [[thrown|e|] w2]; cbn [fst snd] in *; [| |congruence].
      * apply Hstep, Hh2.
      * split; [discriminate|]. exists 1%nat. destruct Hh2 as (H1 & H2 & H3 & H4).
        split; [lia|]. split; [|split; [rewrite H3, He1; reflexivity | intros; discriminate]].
        split; [congruence|]. split.
        -- intros j Hj. rewrite H2, Hw1 by exact Hj. reflexivity.
        -- intros ev Hev. rewrite H4, Hl1 by exact Hev. reflexivity.
    + apply Hstep, head_only_refl.
Qed.

(** The start of a run, up to the loop: the dialog is opened and switched
    to its progress view. *)
Lemma before_the_loop w :
  let w2 := snd (Modal.progressMode true Modal.default_title (snd (Modal.open w))) in
  Modal.progressMode true Modal.default_title (snd (Modal.open w)) = (Ret tt, w2)
  /\ waitlist (queue w2) = waitlist (queue w)
  /\ emitted (queue w2) = emitted (queue w)
  /\ (forall ev, ev <> EvUpdate -> listeners (queue w2) ev = listeners (queue w) ev).
Proof.
  unfold Modal.progressMode, Modal.open, bind, perform, gets, on_queue, subscribe, modify.
  cbn [fst snd queue closures set_effects set_closures set_queue].
  destruct (existsb _ _); cbn [fst snd queue set_queue waitlist emitted listeners set_listeners];
    repeat split.
  intros ev Hev. rewrite decide_False by exact Hev. reflexivity.
Qed.

(** How the [try] and [catch] blocks of [startURLWorkflow] end, by how the
    loop ends. *)
Lemma url_run_cases fuel w :
  let w2 := snd (Modal.progressMode true Modal.default_title (snd (Modal.open w))) in
  let r3 := Workflow.url_loop host settings this fuel 0 false w2 in
  let r := Workflow.url_run host settings this fuel w in
  match fst r3 with
  | Throw e => fst r = Ret false /\ queue (snd r) = queue (snd r3)
  | Ret hasError =>
    queue (snd r) = queue (snd (on_queue clear (snd r3)))
    /\ match fst (on_queue clear (snd r3)) with
       | Ret _ => fst r = Ret (negb hasError)
       | _ => fst r = Ret false
       end
  | OutOfFuel => fst r = OutOfFuel
  end.
Proof.
  intros w2 r3 r. destruct (before_the_loop w) as (E2 & _). fold w2 in E2.
  unfold r, Workflow.url_run.
  match goal with
  | |- context [try_catch ?b ?h w] => set (body := b); set (handler := h)
  end.
  assert (Eb : body w
               = match r3 with
                 | (Ret hasError, w3) =>
                   (run on_queue clear then
                    let* notes := gets (Workflow.my_createdNotes this) in
                    run Modal.setCreatedNotes notes then
                    run Modal.setTitle (lit "处理完成！") then
                    run perform (Notice (if negb hasError
                                         then lit "所有书签创建完成！"
                                         else lit "批量处理完成，部分书签创建失败")) then
                    ret (negb hasError)) w3
                 | (Throw e, w3) => (Throw e, w3)
                 | (OutOfFuel, w3) => (OutOfFuel, w3)
                 end).
  { unfold body, bind at 1, Modal.open, perform at 1, modify at 1. cbn [fst snd].
    unfold Modal.open, perform, modify in E2. cbn [fst snd] in E2.
    unfold bind at 1. rewrite E2. unfold bind at 1. fold r3.
    destruct r3 as [[hasError|e|] w3]; reflexivity. }
  unfold try_catch. rewrite Eb. clear Eb.
  destruct r3 as [[hasError|e|] w3]; cbn [fst snd].
  - unfold handler, bind, gets, Modal.setCreatedNotes, Modal.setTitle, perform, modify, ret.
    cbn [fst snd].
    pose proof (clear_total (queue w3)) as Hc. rewrite <- on_queue_fst in Hc.
    destruct (on_queue clear w3) as [[[]|e|] w4]; cbn [fst snd] in *; [| |congruence];
      split; reflexivity.
  - unfold handler, bind, perform, modify, ret. cbn [fst snd]. split; reflexivity.
  - reflexivity.
Qed.

(** A start that finds the lock free: the run, then the release. *)
Lemma startURLWorkflow_run fuel w :
  isWorkflowRunning w = false ->
  let w0 := set_lock true (Some (Workflow.instanceId this)) w in
  fst (Workflow.url_run host settings this fuel w0) <> OutOfFuel ->
  Workflow.startURLWorkflow host settings this fuel w
  = (fst (Workflow.url_run host settings this fuel w0),
     snd (Workflow.release (snd (Workflow.url_run host settings this fuel w0)))).
Proof.
  intros Hfree w0 Ht.
  unfold Workflow.startURLWorkflow, bind at 1, gets. cbn [fst snd]. rewrite Hfree.
  unfold bind at 1, modify at 1, try_finally. cbn [fst snd]. fold w0.
  destruct (Workflow.url_run host settings this fuel w0) as [[b|e|] w2]; cbn [fst snd] in *;
    [reflexivity | reflexivity | congruence].
Qed.

Lemma release_queue w : queue (snd (Workflow.release w)) = queue w.
Proof. reflexivity. Qed.

(** X23.  The batch takes the items in turn.  In a run of
    [startURLWorkflow] the items are read one after the other from the
    first on, each once and each as it was before the run began: whatever
    the steps of an item do to the list, they do to the statuses of the
    first item, so that every later item is still untouched when its turn
    comes.  A run that returns true has read every item; a run that is
    broken off has read the items up to some point and none after it. *)
Theorem batch_reads_items_in_turn (fuel : nat) (w : World) :
  isWorkflowRunning w = false ->
  (List.length (waitlist (queue w)) <= fuel)%nat ->
  exists k,
    (k <= List.length (waitlist (queue w)))%nat
    /\ read_events (queue (snd (Workflow.startURLWorkflow host settings this fuel w)))
       = read_events (queue w) ++ map (read_of w) (seq 0 k)
    /\ (fst (Workflow.startURLWorkflow host settings this fuel w) = Ret true ->
        k = List.length (waitlist (queue w))).
Proof.
  intros Hfree Hfuel.
  set (w0 := set_lock true (Some (Workflow.instanceId this)) w).
  destruct (url_run_ends host settings this fuel w0 Hfuel) as [Ht _].
  rewrite (startURLWorkflow_run fuel w Hfree Ht). fold w0. cbn [fst snd].
  rewrite release_queue.
  destruct (before_the_loop w0) as (_ & Hw2 & He2 & _).
  pose proof (url_run_cases fuel w0) as Hcases. cbv zeta in Hcases.
  set (w2 := snd (Modal.progressMode true Modal.default_title (snd (Modal.open w0)))) in *.
  destruct (url_loop_in_order fuel 0 false w2) as (_ & k & Hk & _ & Hev & Hall).
  { rewrite Hw2. cbn [queue w0 set_lock]. lia. }
  assert (Hreads : read_events (queue w2) ++ map (read_of w2) (seq 0 k)
                   = read_events (queue w) ++ map (read_of w) (seq 0 k)).
  { unfold read_events, read_of. rewrite He2, Hw2. reflexivity. }
  rewrite Hw2, Nat.sub_0_r in Hk, Hall. cbn [queue w0 set_lock] in Hk, Hall.
  exists k. split; [exact Hk|].
  destruct (fst (Workflow.url_loop host settings this fuel 0 false w2)) as [h|e|] eqn:E3.
  - destruct Hcases as (Hq & _). rewrite Hq, on_queue_snd. cbn [queue set_queue].
    unfold clear, bind, modify, emit. cbn [fst snd].
    rewrite read_events_record. unfold read_events at 1. cbn [emitted set_waitlist].
    fold (read_events (queue (snd (Workflow.url_loop host settings this fuel 0 false w2)))).
    rewrite Hev, Hreads, app_nil_r. split; [reflexivity|]. intros _. apply (Hall h eq_refl).
  - destruct Hcases as (Hr & Hq). rewrite Hq, Hev, Hreads.
    split; [reflexivity|]. rewrite Hr. discriminate.
  - congruence.
Qed.

(** X24.  A batch that is broken off leaves the addresses where they are.
    When no listener of [clear] throws and [startURLWorkflow] returns false,
    the waiting list holds the same addresses in the same order as before
    the call, those already processed among them; the list is emptied only
    by a run that goes through to its end. *)
Theorem broken_off_batch_keeps_addresses (fuel : nat) (w : World) :
  isWorkflowRunning w = false ->
  (List.length (waitlist (queue w)) <= fuel)%nat ->
  quiet EvClear (queue w) ->
  fst (Workflow.startURLWorkflow host settings this fuel w) = Ret false ->
  map url (waitlist (queue (snd (Workflow.startURLWorkflow host settings this fuel w))))
  = map url (waitlist (queue w)).
Proof.
  intros Hfree Hfuel Hquiet.
  set (w0 := set_lock true (Some (Workflow.instanceId this)) w).
  destruct (url_run_ends host settings this fuel w0 Hfuel) as [Ht _].
  rewrite (startURLWorkflow_run fuel w Hfree Ht). fold w0. cbn [fst snd].
  rewrite release_queue. intros Hfalse.
  destruct (before_the_loop w0) as (_ & Hw2 & _ & Hl2).
  pose proof (url_run_cases fuel w0) as Hcases. cbv zeta in Hcases.
  set (w2 := snd (Modal.progressMode true Modal.default_title (snd (Modal.open w0)))) in *.
  destruct (url_loop_in_order fuel 0 false w2) as (_ & k & _ & (Hu & _ & Hl3) & _).
  { rewrite Hw2. cbn [queue w0 set_lock]. lia. }
  pose proof (url_loop_hasError host settings this fuel 0 false w2) as Hh.
  destruct (fst (Workflow.url_loop host settings this fuel 0 false w2)) as [h|e|] eqn:E3.
  - exfalso. rewrite (Hh h eq_refl) in Hcases. destruct Hcases as (_ & Hr).
    assert (Hc : fst (on_queue clear
                        (snd (Workflow.url_loop host settings this fuel 0 false w2)))
                 = Ret tt).
    { rewrite on_queue_fst. unfold clear, bind, modify, emit. cbn [fst snd listeners set_waitlist].
      rewrite Hl3, Hl2 by discriminate. apply Hquiet. }
    rewrite Hc in Hr. rewrite Hr in Hfalse. discriminate.
  - destruct Hcases as (_ & Hq). rewrite Hq, Hu, Hw2. reflexivity.
  - congruence.
Qed.

End BatchInOrder.

(** ** Instances *)

(** Witness of [callApi_failures]: a missing key, and a service that
    answers 401. *)
Lemma callApi_failures_witness :
  ((In (Error (lit "Jina AI API密钥未设置"))
       [ Error (lit "Jina AI API密钥未设置"); Error (lit "无效的网址格式");
         Error (lit "AI API密钥未设置"); Error (lit "AI API基础URL格式无效") ]
    /\ snd (ApiCaller.callApi demo_host keyless_settings (lit "https://a.example/")
              ApiCaller.jinaReader None (idle Waitlist.empty))
       = idle Waitlist.empty)
   \/ exists message,
        Error (lit "Jina AI API密钥未设置") = Error (lit "AI书签生成失败: " ++ message))
  /\ ((In (Error (lit "AI书签生成失败: Jina AI 搜索器: API密钥无效或已过期"))
          [ Error (lit "Jina AI API密钥未设置"); Error (lit "无效的网址格式");
            Error (lit "AI API密钥未设置"); Error (lit "AI API基础URL格式无效") ]
       /\ snd (ApiCaller.callApi unauthorized_host demo_settings (lit "https://a.example/")
                 ApiCaller.jinaSearch None (idle Waitlist.empty))
          = idle Waitlist.empty)
      \/ exists message,
           Error (lit "AI书签生成失败: Jina AI 搜索器: API密钥无效或已过期")
           = Error (lit "AI书签生成失败: " ++ message)).
Proof.
  split.
  - apply (callApi_failures demo_host keyless_settings (lit "https://a.example/")
             ApiCaller.jinaReader None (idle Waitlist.empty)).
    vm_compute. reflexivity.
  - apply (callApi_failures unauthorized_host demo_settings (lit "https://a.example/")
             ApiCaller.jinaSearch None (idle Waitlist.empty)).
    vm_compute. reflexivity.
Defined.

(** Witness of [extractWebContent_contract]: a page with text, and a
    service that answers 401. *)
Lemma extractWebContent_contract_witness :
  is_empty (trim (lit "text")) = false
  /\ exists message, Error (lit "网页内容提取失败: Jina AI API密钥无效或已过期") = Error message.
Proof.
  split.
  - apply (proj1 (extractWebContent_contract demo_host demo_settings (lit "https://a.example/")
                    (idle Waitlist.empty)) (lit "text")).
    vm_compute. reflexivity.
  - apply (proj2 (extractWebContent_contract unauthorized_host demo_settings
                    (lit "https://a.example/") (idle Waitlist.empty))
                 (Error (lit "网页内容提取失败: Jina AI API密钥无效或已过期"))).
    vm_compute. reflexivity.
Defined.

(** Witness of [generated_yaml_has_both_fields]: an answer with both
    markers, and an answer without. *)
Lemma generated_yaml_has_both_fields_witness :
  (includes (lit "title:") (lit "title: Site B url: https://b.example/") = true
   /\ includes (lit "url:") (lit "title: Site B url: https://b.example/") = true)
  /\ exists message,
       Error (lit "AI生成书签信息失败: 生成的YAML内容缺少必需字段（title或url）") = Error message.
Proof.
  split.
  - apply (proj1 (generated_yaml_has_both_fields document_host demo_settings
                    (lit "https://b.example/") (lit "content") (lit "search")
                    (idle Waitlist.empty))
                 (lit "title: Site B url: https://b.example/")).
    vm_compute. reflexivity.
  - apply (proj2 (generated_yaml_has_both_fields demo_host demo_settings
                    (lit "https://b.example/") (lit "content") (lit "search")
                    (idle Waitlist.empty))
                 (Error (lit "AI生成书签信息失败: 生成的YAML内容缺少必需字段（title或url）"))).
    vm_compute. reflexivity.
Defined.

(** Witness of [ensureFileCanBeCreated_renames]: a free path, and a taken
    path with folder, name and extension. *)
Lemma ensureFileCanBeCreated_renames_witness :
  FileManager.ensureFileCanBeCreated demo_host (lit "Bookmarks/Site B.md") (idle Waitlist.empty)
  = (Ret (lit "Bookmarks/Site B.md"), idle Waitlist.empty)
  /\ FileManager.ensureFileCanBeCreated crowded_host
       (lit "Bookmarks" ++ lit "/" ++ lit "Site B" ++ lit "." ++ lit "md")
       (idle Waitlist.empty)
     = (Ret (lit "Bookmarks" ++ lit "/" ++ lit "Site B" ++ lit "_"
             ++ slice_last 6 (decimal (getTime crowded_host (tick (idle Waitlist.empty))))
             ++ lit "." ++ lit "md"),
        idle Waitlist.empty).
Proof.
  split.
  - apply (proj1 (ensureFileCanBeCreated_renames demo_host (lit "Bookmarks/Site B.md")
                    (idle Waitlist.empty))).
    reflexivity.
  - apply (proj1 (proj2 (ensureFileCanBeCreated_renames crowded_host
                           (lit "Bookmarks" ++ lit "/" ++ lit "Site B" ++ lit "." ++ lit "md")
                           (idle Waitlist.empty)))
                 eq_refl (lit "Bookmarks") (lit "Site B") (lit "md") eq_refl eq_refl).
    + vm_compute. repeat constructor; discriminate.
    + vm_compute. repeat constructor; discriminate.
    + vm_compute. repeat constructor; discriminate.
Defined.


(** Witness of [note_file_path]: a title with a slash and a colon, in a
    vault where every name is taken. *)
Lemma note_file_path_witness :
  let safe := FileName.sanitizeFileName (lit "a/b: c") in
  let free := bookmarkFolder demo_settings ++ lit "/" ++ safe ++ lit ".md" in
  let path :=
      if getAbstractFileByPath crowded_host (tick (idle Waitlist.empty)) free
      then bookmarkFolder demo_settings ++ lit "/" ++ safe ++ lit "_"
           ++ slice_last 6 (decimal (getTime crowded_host (tick (idle Waitlist.empty))))
           ++ lit ".md"
      else free in
  fst (FileManager.createNoteFile crowded_host demo_settings (VStr (lit "a/b: c"))
         (lit "text") (idle Waitlist.empty))
  = settle (vault_create crowded_host (tick (idle Waitlist.empty)) path (lit "text"))
  /\ (exists rest,
        effects (snd (FileManager.createNoteFile crowded_host demo_settings
                        (VStr (lit "a/b: c")) (lit "text") (idle Waitlist.empty)))
        = effects (idle Waitlist.empty) ++ CreateFile path (lit "text") :: rest)
  /\ Forall (fun c => c <> 47 /\ c <> 92) safe.
Proof.
  apply (note_file_path crowded_host demo_settings (lit "a/b: c") (lit "text")
           (idle Waitlist.empty)).
  reflexivity.
Defined.

(** Witness of [one_bad_line_stops_all]: the second of three lines is no
    address. *)
Lemma one_bad_line_stops_all_witness :
  exists line,
    In line (BookmarkModal.address_lines (trim three_lines))
    /\ BookmarkModal.is_address demo_host line = false
    /\ BookmarkModal.startWorkflow demo_host demo_settings me 3 three_lines
         (idle Waitlist.empty)
       = (Ret tt,
          set_effects (effects (idle Waitlist.empty) ++ [Notice (lit "无效网址：" ++ line)])
                      (idle Waitlist.empty)).
Proof.
  apply (one_bad_line_stops_all demo_host demo_settings me 3 three_lines
           (lit "not an address") (idle Waitlist.empty)).
  - vm_compute. reflexivity.
  - vm_compute. reflexivity.
  - vm_compute. right. left. reflexivity.
  - vm_compute. reflexivity.
Defined.

(** Witness of [addresses_join_a_running_batch]: two addresses entered
    while another instance runs. *)
Lemma addresses_join_a_running_batch_witness :
  let w := set_lock true (Some (lit "other")) (idle Waitlist.empty) in
  exists w',
    BookmarkModal.startWorkflow demo_host demo_settings me 2 two_lines w = (Ret tt, w')
    /\ waitlist (queue w')
       = waitlist (queue w)
         ++ map (fun l => new_item l ProcessFull) (BookmarkModal.address_lines (trim two_lines))
    /\ effects w' = effects w ++ [Workflow.busy_notice (runningInstanceId w)]
    /\ same_lock w w'.
Proof.
  intros w.
  apply (addresses_join_a_running_batch demo_host demo_settings me 2 two_lines w).
  - vm_compute. reflexivity.
  - vm_compute. reflexivity.
  - vm_compute. repeat constructor.
  - intros d. reflexivity.
  - reflexivity.
Defined.


(** Witness of [batch_reads_items_in_turn]: the batch of two with one
    failing item. *)
Lemma batch_reads_items_in_turn_witness :
  let w := idle (after_adds two_urls Waitlist.empty) in
  exists k,
    (k <= List.length (waitlist (queue w)))%nat
    /\ read_events (queue (snd (Workflow.startURLWorkflow reader_fails_for_a demo_settings
                                  me 2 w)))
       = read_events (queue w) ++ map (read_of w) (seq 0 k)
    /\ (fst (Workflow.startURLWorkflow reader_fails_for_a demo_settings me 2 w) = Ret true ->
        k = List.length (waitlist (queue w))).
Proof.
  intros w.
  apply (batch_reads_items_in_turn reader_fails_for_a demo_settings me 2 w).
  - reflexivity.
  - vm_compute. lia.
Defined.

(** Witness of [broken_off_batch_keeps_addresses]: cancel is pressed
    while the first of two addresses is fetched. *)
Lemma broken_off_batch_keeps_addresses_witness :
  map url (waitlist (queue (snd (Workflow.startURLWorkflow impatient_host demo_settings me 2
                                   (idle (after_adds two_urls Waitlist.empty))))))
  = map url (waitlist (queue (idle (after_adds two_urls Waitlist.empty)))).
Proof.
  apply (broken_off_batch_keeps_addresses impatient_host demo_settings me 2
           (idle (after_adds two_urls Waitlist.empty))).
  - reflexivity.
  - vm_compute. lia.
  - intros d. reflexivity.
  - vm_compute. reflexivity.
Defined.
